(** * Transcriber: the chunked resumable upload client and its dispatcher

    A shallow embedding of [services/geminiService.ts] in its two revisions:
    - [ContentRange]: the revision that drives the upload with a
      [Content-Range] header and HTTP 308 (src/services/geminiService.ts);
    - [Unified]: the revision that drives it with [X-Goog-Upload-Command]
      (the second document of src/unnamed/part_002).

    Asynchronous code is modelled by a small monad [Async]: a computation
    reads the history of events so far, and yields an outcome together with
    the events it appended.  The remote service and the generation SDK are
    oracles that may answer differently depending on that history.  Both
    [while] loops take fuel; an exhausted loop is reported as [Pending].

    The components that call the service ([FileUpload.tsx],
    [AudioRecorder.tsx], [App.tsx]) are embedded handler by handler, as
    functions on the state they read and set, and put together as a page
    that moves one event at a time. *)

From Stdlib Require Import ZArith List String Ascii Bool Lia.
From Stdlib Require Import QArith Qround Qpower Lqa.
From Stdlib Require Import DecimalString Sorted Floats.
Import ListNotations.

Local Open Scope string_scope.
Local Open Scope Z_scope.

(** ** JavaScript primitives used by the service *)

Module JS.

(** Truthiness of a string: only the empty string is falsy. *)
Definition truthy (s : string) : bool :=
  match s with
  | EmptyString => false
  | String _ _ => true
  end.

(** Truthiness of [string | undefined] (or [string | null]). *)
Definition truthy_opt (s : option string) : bool :=
  match s with
  | None => false
  | Some s => truthy s
  end.

(** [a || b] on strings. *)
Definition or_else (a b : string) : string :=
  if truthy a then a else b.

(** [s.includes(sub)] *)
Definition includes (s sub : string) : bool :=
  match index 0 sub s with
  | Some _ => true
  | None => false
  end.

(** [s.startsWith(p)] *)
Definition startsWith (s p : string) : bool := prefix p s.

(** [n.toString()] and [`${n}`] for an integer-valued number. *)
Definition toString (n : Z) : string :=
  NilZero.string_of_int (Z.to_int n).

(** [x === 'lit'] where [x] may be [undefined]. *)
Definition strictEq (x : option string) (lit : string) : bool :=
  match x with
  | None => false
  | Some s => (s =? lit)%string
  end.

End JS.

(** ** Number arithmetic

    JavaScript numbers are IEEE 754 binary64 values.  File sizes and offsets
    are integers below 2^53, on which [+], [Math.min] and the comparisons are
    exact; they are kept in [Z].  The progress percentage is the only place
    where rounding shows: [Math.round((offset / file.size) * 100)] rounds
    twice to 53 significant bits before [Math.round].  A finite double is
    represented by its exact rational value; the exponent range is not
    modelled (the quotients at hand lie between 2^-53 and 100), nor is a
    division by zero (the loop body runs only when [offset < file.size],
    so [file.size] is positive there). *)

Module Float64.
Local Open Scope Q_scope.

Definition pow2 (e : Z) : Q := 2 ^ e.

(** [floor (log2 x)] for a positive rational. *)
Definition ilog2 (x : Q) : Z :=
  let l := (Z.log2 (Qnum x) - Z.log2 (Zpos (Qden x)))%Z in
  if Qle_bool (pow2 l) x then l else (l - 1)%Z.

(** Round to the nearest integer, ties to even. *)
Definition rne (x : Q) : Z :=
  let f := Qfloor x in
  match Qcompare (x - inject_Z f) (1 # 2) with
  | Lt => f
  | Gt => (f + 1)%Z
  | Eq => if Z.even f then f else (f + 1)%Z
  end.

(** Round a positive rational to 53 significant bits. *)
Definition round_pos (x : Q) : Q :=
  let e := (ilog2 x - 52)%Z in
  inject_Z (rne (x * pow2 (- e))) * pow2 e.

Definition round (x : Q) : Q :=
  match Qcompare x 0 with
  | Eq => 0
  | Gt => round_pos x
  | Lt => - round_pos (- x)
  end.

(** [a / b] and [a * b] on doubles. *)
Definition div (a b : Q) : Q := round (a / b).
Definition mul (a b : Q) : Q := round (a * b).

(** [Math.round]: nearest integer, ties towards +infinity. *)
Definition Math_round (x : Q) : Z := Qfloor (x + (1 # 2)).

(** The rational value of a finite IEEE 754 datum, to compare the model
    with the primitive binary64 operations. *)
Definition of_spec_float (f : spec_float) : Q :=
  match f with
  | S754_finite s m e =>
      (if s then - (1) else 1) * inject_Z (Zpos m) * pow2 e
  | _ => 0
  end.

End Float64.

(** ** Constants (constants.ts) *)

Definition GEMINI_PRO_MODEL : string := "gemini-2.0-flash-thinking-exp-01-21".
Definition GEMINI_FLASH_MODEL : string := "gemini-2.0-flash-exp".
Definition MAX_FILE_SIZE_WARNING : Z := 2 * 1024 * 1024 * 1024.
Definition MAX_PREVIEW_SIZE : Z := 50 * 1024 * 1024.
Definition UPLOAD_CHUNK_SIZE : Z := 8 * 1024 * 1024.

Definition dquote : string := String "034"%char EmptyString.

Definition TRANSCRIPTION_PROMPT : string :=
  "
You are a professional transcriber and mathematician. 
Your task is to provide a verbatim, word-for-word transcription of the provided media.

Rules:
1. Transcribe every word exactly as spoken.
2. If the speaker writes or mentions mathematical formulas, physics equations, or scientific notation, you MUST write them using valid LaTeX syntax enclosed in '$' for inline math or '$$' for block math.
3. Example: " ++ dquote ++ "The energy is equals to m c squared" ++ dquote
  ++ " should be transcribed as " ++ dquote ++ "The energy is $E=mc^2$"
  ++ dquote ++ ".
4. Do not summarize. Do not leave out details.
5. Structure the output with appropriate paragraph breaks for readability.
".

Definition API_HOST : string := "https://generativelanguage.googleapis.com".

(** ** Data model *)

(** A thrown value: the constructor's name and its [message]. *)
Record Exn := mkExn { exnName : string; message : string }.

Definition Error (msg : string) : Exn := mkExn "Error" msg.
Definition TypeError (msg : string) : Exn := mkExn "TypeError" msg.

(** A [Blob] obtained by slicing is a view on a byte range of the file:
    the bytes from [blobStart] (inclusive) to [blobEnd] (exclusive). *)
Record Blob := mkBlob { blobStart : Z; blobEnd : Z }.

Definition blobSize (b : Blob) : Z := blobEnd b - blobStart b.

Module File.

Record t := make { name : string; type : string; size : Z }.

Definition clamp (f : t) (x : Z) : Z :=
  if x <? 0 then Z.max (size f + x) 0 else Z.min x (size f).

(** [file.slice(start, end)] as the File API defines it. *)
Definition slice (f : t) (start stop : Z) : Blob :=
  let s := clamp f start in
  let e := clamp f stop in
  mkBlob s (s + Z.max (e - s) 0).

End File.

(** The [file] object of the final upload response. *)
Module FileResource.
Record t := make { uri : string; name : string; state : option string }.
End FileResource.

(** What [res.json()] yields: [uploadData] has a [file], [checkData] a
    [state]. *)
Module Json.
Record t := make { file : option FileResource.t; state : option string }.
End Json.

Module Response.

Record t := make {
  status : Z;
  statusText : string;
  x_goog_upload_url : option string;  (* headers.get('x-goog-upload-url') *)
  text : string;                      (* await res.text() *)
  json : Exn + Json.t                 (* await res.json() *)
}.

(** [res.ok]: the status is in the range 200-299. *)
Definition ok (r : t) : bool := (200 <=? status r) && (status r <=? 299).

End Response.

Inductive Body :=
| NoBody
| DisplayNameBody (display_name : string) (* JSON.stringify({ file: { display_name } }) *)
| BlobBody (chunk : Blob).

Record Request := mkRequest {
  url : string;
  method : string;
  headers : list (string * string);
  body : Body
}.

Record ThinkingConfig := mkThinkingConfig { thinkingBudget : Z }.

Record GenConfig := mkGenConfig {
  systemInstruction : string;
  thinkingConfig : option ThinkingConfig
}.

(** The argument of [ai.models.generateContent], with the key the client
    was built with. *)
Record GenRequest := mkGenRequest {
  clientApiKey : string;
  model : string;
  fileData_mimeType : string;
  fileData_fileUri : string;
  promptText : string;
  config : GenConfig
}.

Record GenResponse := mkGenResponse { responseText : option string }.

(** Observable events of one run, in the order they happen.  An exchange
    with the network records the request and how it was answered. *)
Inductive Event :=
| EvFetch (req : Request) (answer : Exn + Response.t)
| EvSleep (ms : Z)
| EvProgress (percent : Z)
| EvGenerate (req : GenRequest) (answer : Exn + GenResponse)
| EvConsoleError (label : string) (e : Exn).

Definition Trace := list Event.

(** The environment: the process configuration, the remote storage
    service and the generation SDK.  The answers may depend on everything
    that happened before. *)
Record World := mkWorld {
  API_KEY : option string;  (* process.env.API_KEY *)
  fetchOracle : Trace -> Request -> Exn + Response.t;
  generateOracle : Trace -> GenRequest -> Exn + GenResponse
}.

(** ** The monad of asynchronous computations *)

Inductive Loop := ChunkLoop | PollLoop.

Inductive Outcome (A : Type) :=
| Returned (a : A)
| Thrown (e : Exn)
| Pending (l : Loop).  (* the loop [l] ran out of fuel *)

Arguments Returned {A} a.
Arguments Thrown {A} e.
Arguments Pending {A} l.

(** A computation maps the history to its outcome and the events it adds. *)
Definition Async (A : Type) := Trace -> Outcome A * list Event.

Definition ret {A} (a : A) : Async A := fun _ => (Returned a, []).

Definition bind {A B} (m : Async A) (k : A -> Async B) : Async B :=
  fun h =>
    match m h with
    | (Returned a, n1) =>
        let (o, n2) := k a (h ++ n1)%list in (o, (n1 ++ n2)%list)
    | (Thrown e, n1) => (Thrown e, n1)
    | (Pending l, n1) => (Pending l, n1)
    end.

Definition throw {A} (e : Exn) : Async A := fun _ => (Thrown e, []).

Definition starve {A} (l : Loop) : Async A := fun _ => (Pending l, []).

Definition emit (ev : Event) : Async unit := fun _ => (Returned tt, [ev]).

(** Settle a promise that is already decided. *)
Definition settle {A} (r : Exn + A) : Async A :=
  match r with
  | inl e => throw e
  | inr a => ret a
  end.

Definition tryCatch {A} (m : Async A) (handler : Exn -> Async A) : Async A :=
  fun h =>
    match m h with
    | (Thrown e, n1) =>
        let (o, n2) := handler e (h ++ n1)%list in (o, (n1 ++ n2)%list)
    | r => r
    end.

Declare Scope async_scope.
Delimit Scope async_scope with async.

Notation "x <- c1 ;; c2" := (bind c1 (fun x => c2))
  (at level 61, c1 at next level, right associativity) : async_scope.
Notation "c1 ;; c2" := (bind c1 (fun _ => c2))
  (at level 61, right associativity) : async_scope.

Local Open Scope async_scope.

(** [await fetch(url, init)] *)
Definition fetch (w : World) (req : Request) : Async Response.t :=
  fun h =>
    let answer := fetchOracle w h req in
    match answer with
    | inl e => (Thrown e, [EvFetch req answer])
    | inr r => (Returned r, [EvFetch req answer])
    end.

(** [await ai.models.generateContent(req)] *)
Definition generateContent (w : World) (req : GenRequest) : Async GenResponse :=
  fun h =>
    let answer := generateOracle w h req in
    match answer with
    | inl e => (Thrown e, [EvGenerate req answer])
    | inr r => (Returned r, [EvGenerate req answer])
    end.

(** [await new Promise((resolve) => setTimeout(resolve, ms))] *)
Definition sleep (ms : Z) : Async unit := emit (EvSleep ms).

(** The caller's progress callback. *)
Definition onProgress (percent : Z) : Async unit := emit (EvProgress percent).

Definition console_error (label : string) (e : Exn) : Async unit :=
  emit (EvConsoleError label e).

(** Reading a property of [uploadData.file] throws when [file] is missing. *)
Definition getFile (data : Json.t) : Async FileResource.t :=
  match Json.file data with
  | Some f => ret f
  | None =>
      throw (TypeError "Cannot read properties of undefined (reading 'uri')")
  end.

(** [Math.min(Math.round((offset / file.size) * 100), 99)] *)
Definition progressOf (offset size : Z) : Z :=
  Z.min
    (Float64.Math_round
       (Float64.mul (Float64.div (inject_Z offset) (inject_Z size)) 100))
    99.

(** ** The service *)

(** 3. Poll for ACTIVE state.  The loop is the same text in both revisions:
    [while (state === 'PROCESSING') { wait; fetch; state = checkData.state;
    if (state === 'FAILED') throw ... }]. *)
Fixpoint pollLoop (w : World) (apiKey fileName : string)
    (fuel : nat) (state : option string) : Async unit :=
  if JS.strictEq state "PROCESSING" then
    match fuel with
    | O => starve PollLoop
    | S fuel' =>
        sleep 2000 ;;
        checkRes <- fetch w
          (mkRequest (API_HOST ++ "/v1beta/" ++ fileName ++ "?key=" ++ apiKey)
                     "GET" [] NoBody) ;;
        checkData <- settle (Response.json checkRes) ;;
        let state := Json.state checkData in
        if JS.strictEq state "FAILED"
        then throw (Error "File processing failed on Gemini servers.")
        else pollLoop w apiKey fileName fuel' state
    end
  else ret tt.

(** 1. Initial Resumable Request (Start): the same in both revisions. *)
Definition startRequest (file : File.t) (apiKey : string) : Request :=
  let uploadUrl := API_HOST ++ "/upload/v1beta/files?key=" ++ apiKey in
  let contentType := JS.or_else (File.type file) "application/octet-stream" in
  mkRequest uploadUrl "POST"
    [ ("X-Goog-Upload-Protocol", "resumable");
      ("X-Goog-Upload-Command", "start");
      ("X-Goog-Upload-Header-Content-Length", JS.toString (File.size file));
      ("X-Goog-Upload-Header-Content-Type", contentType);
      ("Content-Type", "application/json") ]
    (DisplayNameBody (File.name file)).

(** Ensure API key is present in the resumable URL. *)
Definition ensureKey (resumableUrl apiKey : string) : string :=
  if negb (JS.includes resumableUrl "key=") then
    let separator := if JS.includes resumableUrl "?" then "&" else "?" in
    resumableUrl ++ separator ++ "key=" ++ apiKey
  else resumableUrl.

Definition uploadFailed (offset : Z) (uploadRes : Response.t) : Exn :=
  Error ("Upload failed at offset " ++ JS.toString offset ++ ": "
         ++ JS.toString (Response.status uploadRes) ++ " "
         ++ Response.statusText uploadRes ++ " - " ++ Response.text uploadRes).

(** What both revisions do once the upload is complete: read the created
    resource, poll it, and return its URI. *)
Definition finishUpload (w : World) (apiKey : string) (pollFuel : nat)
    (uploadRes : Response.t) : Async string :=
  uploadData <- settle (Response.json uploadRes) ;;
  created <- getFile uploadData ;;
  let fileUri := FileResource.uri created in
  let fileName := FileResource.name created in
  pollLoop w apiKey fileName pollFuel (FileResource.state created) ;;
  ret fileUri.

(** The [try { ... } catch (error) { ... }] around the generation call. *)
Definition generate (w : World) (req : GenRequest) : Async string :=
  tryCatch
    (response <- generateContent w req ;;
     ret (match responseText response with
          | Some t => JS.or_else t "No transcription generated."
          | None => "No transcription generated."
          end))
    (fun error =>
       console_error "Gemini API Error:" error ;;
       throw (Error (JS.or_else (message error) "Failed to transcribe media."))).

(** *** Revision with [X-Goog-Upload-Command] (src/unnamed/part_002) *)

Module Unified.
Section Service.

Variable w : World.

(** The [while (offset < file.size)] loop; [chunkSize] stands for the
    imported constant [UPLOAD_CHUNK_SIZE]. *)
Fixpoint uploadLoop (chunkSize : Z) (file : File.t) (apiKey : string)
    (resumableUrl contentType : string) (pollFuel fuel : nat)
    (offset : Z) : Async string :=
  if offset <? File.size file then
    match fuel with
    | O => starve ChunkLoop
    | S fuel' =>
        let chunkEnd := Z.min (offset + chunkSize) (File.size file) in
        let chunk := File.slice file offset chunkEnd in
        let isLastChunk := chunkEnd =? File.size file in
        let command := if isLastChunk then "upload, finalize" else "upload" in
        let headers :=
          [ ("Content-Type", contentType);
            ("X-Goog-Upload-Offset", JS.toString offset);
            ("X-Goog-Upload-Command", command) ] in
        uploadRes <- fetch w
          (mkRequest resumableUrl "POST" headers (BlobBody chunk)) ;;
        if negb (Response.ok uploadRes) then
          throw (uploadFailed offset uploadRes)
        else
          let offset := chunkEnd in
          let progress := progressOf offset (File.size file) in
          onProgress progress ;;
          if isLastChunk then finishUpload w apiKey pollFuel uploadRes
          else uploadLoop chunkSize file apiKey resumableUrl contentType
                          pollFuel fuel' offset
    end
  else throw (Error "Upload loop finished without returning URI").

(** Fix: If the URL is relative, prepend the host; then ensure the key. *)
Definition targetUrl (apiKey : string) (resumableUrl : string) : string :=
  let resumableUrl :=
    if JS.startsWith resumableUrl "/" then API_HOST ++ resumableUrl
    else resumableUrl in
  ensureKey resumableUrl apiKey.

Definition uploadToGemini (chunkSize : Z) (pollFuel fuel : nat)
    (file : File.t) (apiKey : string) : Async string :=
  let contentType := JS.or_else (File.type file) "application/octet-stream" in
  initRes <- fetch w (startRequest file apiKey) ;;
  if negb (Response.ok initRes) then
    throw (Error ("Failed to initialize upload: " ++ Response.statusText initRes))
  else
    let resumableUrl := Response.x_goog_upload_url initRes in
    match resumableUrl with
    | Some resumableUrl =>
        if negb (JS.truthy resumableUrl) then
          throw (Error "No upload URL received from Gemini API")
        else
          uploadLoop chunkSize file apiKey (targetUrl apiKey resumableUrl)
                     contentType pollFuel fuel 0
    | None => throw (Error "No upload URL received from Gemini API")
    end.

Definition transcribeMedia (pollFuel fuel : nat) (file : File.t)
    (mimeType : string) (isComplexArg : option bool) : Async string :=
  let isComplex := match isComplexArg with Some b => b | None => true end in
  let apiKey := API_KEY w in
  match apiKey with
  | Some apiKey =>
      if negb (JS.truthy apiKey) then
        throw (Error "API Key is not configured (process.env.API_KEY is missing)")
      else
        let safeMimeType :=
          JS.or_else mimeType
            (JS.or_else (File.type file) "application/octet-stream") in
        fileUri <- uploadToGemini UPLOAD_CHUNK_SIZE pollFuel fuel file apiKey ;;
        onProgress 100 ;;
        let modelId := if isComplex then GEMINI_PRO_MODEL else GEMINI_FLASH_MODEL in
        let config :=
          mkGenConfig
            "You are an expert transcriber with deep knowledge of mathematical notation."
            (if isComplex then Some (mkThinkingConfig 32768) else None) in
        generate w
          (mkGenRequest apiKey modelId safeMimeType fileUri
                        TRANSCRIPTION_PROMPT config)
  | None =>
      throw (Error "API Key is not configured (process.env.API_KEY is missing)")
  end.

End Service.
End Unified.

(** *** Revision with [Content-Range] (src/services/geminiService.ts) *)

Module ContentRange.
Section Service.

Variable w : World.

Fixpoint uploadLoop (chunkSize : Z) (file : File.t) (apiKey : string)
    (resumableUrl contentType : string) (pollFuel fuel : nat)
    (offset : Z) : Async string :=
  if offset <? File.size file then
    match fuel with
    | O => starve ChunkLoop
    | S fuel' =>
        let chunkEnd := Z.min (offset + chunkSize) (File.size file) in
        let chunk := File.slice file offset chunkEnd in
        let contentRange :=
          "bytes " ++ JS.toString offset ++ "-" ++ JS.toString (chunkEnd - 1)
          ++ "/" ++ JS.toString (File.size file) in
        let headers :=
          [ ("Content-Range", contentRange);
            ("Content-Type", contentType) ] in
        uploadRes <- fetch w
          (mkRequest resumableUrl "PUT" headers (BlobBody chunk)) ;;
        if negb (Response.status uploadRes =? 308)
           && negb (Response.ok uploadRes) then
          throw (uploadFailed offset uploadRes)
        else
          let offset := chunkEnd in
          let progress := progressOf offset (File.size file) in
          onProgress progress ;;
          if Response.ok uploadRes
             && negb (Response.status uploadRes =? 308) then
            finishUpload w apiKey pollFuel uploadRes
          else uploadLoop chunkSize file apiKey resumableUrl contentType
                          pollFuel fuel' offset
    end
  else throw (Error "Upload loop finished without returning URI").

(** This revision only ensures the key. *)
Definition targetUrl (apiKey : string) (resumableUrl : string) : string :=
  ensureKey resumableUrl apiKey.

Definition uploadToGemini (chunkSize : Z) (pollFuel fuel : nat)
    (file : File.t) (apiKey : string) : Async string :=
  let contentType := JS.or_else (File.type file) "application/octet-stream" in
  initRes <- fetch w (startRequest file apiKey) ;;
  if negb (Response.ok initRes) then
    throw (Error ("Failed to initialize upload: " ++ Response.statusText initRes))
  else
    let resumableUrl := Response.x_goog_upload_url initRes in
    match resumableUrl with
    | Some resumableUrl =>
        if negb (JS.truthy resumableUrl) then
          throw (Error "No upload URL received from Gemini API")
        else
          uploadLoop chunkSize file apiKey (targetUrl apiKey resumableUrl)
                     contentType pollFuel fuel 0
    | None => throw (Error "No upload URL received from Gemini API")
    end.

Definition transcribeMedia (pollFuel fuel : nat) (file : File.t)
    (mimeType : string) (isComplexArg : option bool) : Async string :=
  let isComplex := match isComplexArg with Some b => b | None => true end in
  let apiKey := API_KEY w in
  match apiKey with
  | Some apiKey =>
      if negb (JS.truthy apiKey) then
        throw (Error "API Key not found in environment variables.")
      else
        let safeMimeType :=
          JS.or_else mimeType
            (JS.or_else (File.type file) "application/octet-stream") in
        fileUri <- uploadToGemini UPLOAD_CHUNK_SIZE pollFuel fuel file apiKey ;;
        onProgress 100 ;;
        let modelId := if isComplex then GEMINI_PRO_MODEL else GEMINI_FLASH_MODEL in
        let config :=
          mkGenConfig
            "You are an expert transcriber with deep knowledge of mathematical notation."
            (if isComplex then Some (mkThinkingConfig 32768) else None) in
        generate w
          (mkGenRequest apiKey modelId safeMimeType fileUri
                        TRANSCRIPTION_PROMPT config)
  | None => throw (Error "API Key not found in environment variables.")
  end.

End Service.
End ContentRange.

(** ** Observations on a trace *)

(** The byte range carried by a chunk request. *)
Definition chunkOf (ev : Event) : list Blob :=
  match ev with
  | EvFetch req _ =>
      match body req with
      | BlobBody c => [c]
      | _ => []
      end
  | _ => []
  end.

Definition progressOfEvent (ev : Event) : list Z :=
  match ev with
  | EvProgress p => [p]
  | _ => []
  end.

Definition generationOf (ev : Event) : list GenRequest :=
  match ev with
  | EvGenerate req _ => [req]
  | _ => []
  end.

Definition chunkUrlOf (ev : Event) : list string :=
  match ev with
  | EvFetch req _ =>
      match body req with
      | BlobBody _ => [url req]
      | _ => []
      end
  | _ => []
  end.

(** The chunks sent, the progress values reported and the generation
    requests issued, each in order. *)
Definition chunksSent (tr : list Event) : list Blob := flat_map chunkOf tr.
Definition progressValues (tr : list Event) : list Z := flat_map progressOfEvent tr.
Definition generations (tr : list Event) : list GenRequest := flat_map generationOf tr.

(** The URLs the chunk requests were sent to. *)
Definition chunkUrls (tr : list Event) : list string := flat_map chunkUrlOf tr.

(** Requests that reach the network: [fetch] and the generation call. *)
Definition isNetworkCall (ev : Event) : bool :=
  match ev with
  | EvFetch _ _ | EvGenerate _ _ => true
  | _ => false
  end.

Definition networkCalls (tr : list Event) : list Event := filter isNetworkCall tr.

(** Events of the polling phase: a wait, or a readiness check. *)
Definition isPollEvent (ev : Event) : bool :=
  match ev with
  | EvSleep _ => true
  | EvFetch req _ =>
      match body req with
      | NoBody => true
      | _ => false
      end
  | _ => false
  end.

Definition sumSizes (bs : list Blob) : Z :=
  fold_right (fun b acc => blobSize b + acc) 0 bs.

(** [ceil (a / b)] for positive [b]. *)
Definition ceilDiv (a b : Z) : Z := (a + b - 1) / b.

(** Ranges that follow one another without gap or overlap, from [from]
    up to [to], each of them non-empty. *)
Fixpoint contiguous (from : Z) (bs : list Blob) (to : Z) : Prop :=
  match bs with
  | [] => from = to
  | b :: bs' =>
      blobStart b = from /\ blobStart b < blobEnd b /\ contiguous (blobEnd b) bs' to
  end.

(** Every range but the last has exactly [c] bytes; the last has at most [c]. *)
Fixpoint fixedSize (c : Z) (bs : list Blob) : Prop :=
  match bs with
  | [] => True
  | [b] => blobSize b <= c
  | b :: bs' => blobSize b = c /\ fixedSize c bs'
  end.

(** The byte range of a chunk exchange and the answer it got. *)
Definition answerOf (ev : Event) : option (Blob * (Exn + Response.t)) :=
  match ev with
  | EvFetch req answer =>
      match body req with
      | BlobBody c => Some (c, answer)
      | _ => None
      end
  | _ => None
  end.

(** How a chunk request may be answered, per revision.  [Unified]: any
    response that is not [ok] is an error.  [ContentRange]: 308 means
    that the upload is to be resumed, any other response that is not [ok]
    is an error. *)

Module UnifiedProtocol.

Definition unexpected (r : Response.t) : bool := negb (Response.ok r).

(** Every chunk request of the trace got an [ok] response. *)
Definition accepted (ev : Event) : bool :=
  match answerOf ev with
  | Some (_, inr r) => Response.ok r
  | Some (_, inl _) => false
  | None => true
  end.

End UnifiedProtocol.

Module RangeProtocol.

Definition unexpected (r : Response.t) : bool :=
  negb (Response.status r =? 308) && negb (Response.ok r).

(** Every chunk request of the trace got 308, or [ok] if it was the one
    that ends at [size]. *)
Definition accepted (size : Z) (ev : Event) : bool :=
  match answerOf ev with
  | Some (c, inr r) =>
      (Response.status r =? 308) || (Response.ok r && (blobEnd c =? size))
  | Some (_, inl _) => false
  | None => true
  end.

End RangeProtocol.

(** The session was opened: the start request got an [ok] response that
    carries a non-empty upload URL. *)
Definition sessionOpened (answer : Exn + Response.t) : bool :=
  match answer with
  | inr r => Response.ok r && JS.truthy_opt (Response.x_goog_upload_url r)
  | inl _ => false
  end.

(** How a run ends when the session could not be opened. *)
Definition startFailure (answer : Exn + Response.t) : Exn :=
  match answer with
  | inl e => e
  | inr r =>
      if negb (Response.ok r)
      then Error ("Failed to initialize upload: " ++ Response.statusText r)
      else Error "No upload URL received from Gemini API"
  end.

(** The upload URL announced by the start response. *)
Definition announcedUrl (answer : Exn + Response.t) : string :=
  match answer with
  | inr r =>
      match Response.x_goog_upload_url r with
      | Some u => u
      | None => ""
      end
  | inl _ => ""
  end.

(** ** The shape of a run of the chunk loop

    Both revisions run the same loop up to the request they build at an
    offset and the way they read the response: fail, finish, or go on. *)

Inductive Verdict := Refuse | Complete | Continue.

Definition nextOffset (chunkSize : Z) (file : File.t) (offset : Z) : Z :=
  Z.min (offset + chunkSize) (File.size file).

Section LoopShape.

Variables (w : World) (chunkSize : Z) (file : File.t).
Variables (apiKey : string) (pollFuel : nat).
Variable requestAt : Z -> Request.
Variable verdict : Z -> Response.t -> Verdict.

Let next := nextOffset chunkSize file.

Inductive LoopRun : nat -> Z -> Outcome string -> list Event -> Prop :=
| LoopDone fuel o :
    File.size file <= o ->
    LoopRun fuel o (Thrown (Error "Upload loop finished without returning URI")) []
| LoopStarved o :
    o < File.size file ->
    LoopRun O o (Pending ChunkLoop) []
| LoopRejected fuel o e :
    o < File.size file ->
    LoopRun (S fuel) o (Thrown e) [EvFetch (requestAt o) (inl e)]
| LoopRefused fuel o r :
    o < File.size file ->
    verdict o r = Refuse ->
    LoopRun (S fuel) o (Thrown (uploadFailed o r)) [EvFetch (requestAt o) (inr r)]
| LoopCompleted fuel o r h out n :
    o < File.size file ->
    verdict o r = Complete ->
    finishUpload w apiKey pollFuel r h = (out, n) ->
    LoopRun (S fuel) o out
      (EvFetch (requestAt o) (inr r)
         :: EvProgress (progressOf (next o) (File.size file)) :: n)
| LoopContinued fuel o r out n :
    o < File.size file ->
    verdict o r = Continue ->
    LoopRun fuel (next o) out n ->
    LoopRun (S fuel) o out
      (EvFetch (requestAt o) (inr r)
         :: EvProgress (progressOf (next o) (File.size file)) :: n).

(** The chunks a complete upload sends from [o] on, [k] of them. *)
Fixpoint planFrom (k : nat) (o : Z) : list Blob :=
  match k with
  | O => []
  | S k' => mkBlob o (next o) :: planFrom k' (next o)
  end.

Definition remaining (o : Z) : nat :=
  Z.to_nat (ceilDiv (File.size file - o) chunkSize).

(** What a chunk exchange must look like for the upload to go through:
    answered, not refused, and completed only by the chunk that ends the
    file. *)
Definition expected (ev : Event) : Prop :=
  match answerOf ev with
  | Some (c, inr r) =>
      verdict (blobStart c) r <> Refuse
      /\ (verdict (blobStart c) r = Complete ->
          blobEnd c = File.size file \/ next (blobStart c) = File.size file)
  | Some (_, inl _) => False
  | None => True
  end.

(** A run of [uploadToGemini] from history [h]: the start exchange, then
    the loop from offset 0 if the session was opened. *)
Definition UploadShape (fuel : nat) (h : Trace)
    (run : Outcome string * list Event) : Prop :=
  let answer := fetchOracle w h (startRequest file apiKey) in
  if sessionOpened answer then
    exists out n,
      LoopRun fuel 0 out n
      /\ run = (out, EvFetch (startRequest file apiKey) answer :: n)
  else
    run = (Thrown (startFailure answer),
           [EvFetch (startRequest file apiKey) answer]).

End LoopShape.

Module UnifiedShape.

Definition requestAt (chunkSize : Z) (file : File.t)
    (resumableUrl contentType : string) (offset : Z) : Request :=
  let chunkEnd := nextOffset chunkSize file offset in
  mkRequest resumableUrl "POST"
    [ ("Content-Type", contentType);
      ("X-Goog-Upload-Offset", JS.toString offset);
      ("X-Goog-Upload-Command",
       if chunkEnd =? File.size file then "upload, finalize" else "upload") ]
    (BlobBody (File.slice file offset chunkEnd)).

Definition verdict (chunkSize : Z) (file : File.t)
    (offset : Z) (r : Response.t) : Verdict :=
  if negb (Response.ok r) then Refuse
  else if nextOffset chunkSize file offset =? File.size file then Complete
       else Continue.

End UnifiedShape.

Module RangeShape.

Definition requestAt (chunkSize : Z) (file : File.t)
    (resumableUrl contentType : string) (offset : Z) : Request :=
  let chunkEnd := nextOffset chunkSize file offset in
  mkRequest resumableUrl "PUT"
    [ ("Content-Range",
       "bytes " ++ JS.toString offset ++ "-" ++ JS.toString (chunkEnd - 1)
       ++ "/" ++ JS.toString (File.size file));
      ("Content-Type", contentType) ]
    (BlobBody (File.slice file offset chunkEnd)).

Definition verdict (r : Response.t) : Verdict :=
  if negb (Response.status r =? 308) && negb (Response.ok r) then Refuse
  else if Response.ok r && negb (Response.status r =? 308) then Complete
       else Continue.

End RangeShape.

(** ** The shape of a whole run *)

(** The generation request a run issues for a given key and file URI. *)
Definition generationRequest (apiKey : string) (file : File.t)
    (mimeType : string) (isComplexArg : option bool) (fileUri : string)
    : GenRequest :=
  let isComplex := match isComplexArg with Some b => b | None => true end in
  mkGenRequest apiKey
    (if isComplex then GEMINI_PRO_MODEL else GEMINI_FLASH_MODEL)
    (JS.or_else mimeType (JS.or_else (File.type file) "application/octet-stream"))
    fileUri TRANSCRIPTION_PROMPT
    (mkGenConfig
       "You are an expert transcriber with deep knowledge of mathematical notation."
       (if isComplex then Some (mkThinkingConfig 32768) else None)).

(** [transcribeMedia] of both revisions, up to the message of the
    configuration error and the upload function. *)
Definition transcribeWith (w : World) (missingKey : string)
    (upload : string -> Async string) (file : File.t)
    (mimeType : string) (isComplexArg : option bool) : Async string :=
  if negb (JS.truthy_opt (API_KEY w)) then throw (Error missingKey)
  else
    let apiKey := match API_KEY w with Some k => k | None => "" end in
    fileUri <- upload apiKey ;;
    onProgress 100 ;;
    generate w (generationRequest apiKey file mimeType isComplexArg fileUri).

(** What [generate] hands back for an answer of the SDK. *)
Definition generationOutcome (answer : Exn + GenResponse) : Outcome string :=
  match answer with
  | inr response =>
      Returned (match responseText response with
                | Some t => JS.or_else t "No transcription generated."
                | None => "No transcription generated."
                end)
  | inl error =>
      Thrown (Error (JS.or_else (message error) "Failed to transcribe media."))
  end.

Definition generationEvents (req : GenRequest) (answer : Exn + GenResponse)
    : list Event :=
  match answer with
  | inr _ => [EvProgress 100; EvGenerate req answer]
  | inl error =>
      [EvProgress 100; EvGenerate req answer;
       EvConsoleError "Gemini API Error:" error]
  end.

(** ** The two revisions side by side *)

Inductive Revision := UnifiedRevision | ContentRangeRevision.

Definition uploadToGemini (rev : Revision) (w : World) (chunkSize : Z)
    (pollFuel fuel : nat) (file : File.t) (apiKey : string) : Async string :=
  match rev with
  | UnifiedRevision => Unified.uploadToGemini w chunkSize pollFuel fuel file apiKey
  | ContentRangeRevision =>
      ContentRange.uploadToGemini w chunkSize pollFuel fuel file apiKey
  end.

Definition transcribeMedia (rev : Revision) (w : World) (pollFuel fuel : nat)
    (file : File.t) (mimeType : string) (isComplexArg : option bool)
    : Async string :=
  match rev with
  | UnifiedRevision =>
      Unified.transcribeMedia w pollFuel fuel file mimeType isComplexArg
  | ContentRangeRevision =>
      ContentRange.transcribeMedia w pollFuel fuel file mimeType isComplexArg
  end.

Definition targetUrl (rev : Revision) (apiKey resumableUrl : string) : string :=
  match rev with
  | UnifiedRevision => Unified.targetUrl apiKey resumableUrl
  | ContentRangeRevision => ContentRange.targetUrl apiKey resumableUrl
  end.

Definition missingKeyMessage (rev : Revision) : string :=
  match rev with
  | UnifiedRevision => "API Key is not configured (process.env.API_KEY is missing)"
  | ContentRangeRevision => "API Key not found in environment variables."
  end.

(** A response that is neither "continue" nor "complete". *)
Definition unexpected (rev : Revision) (r : Response.t) : bool :=
  match rev with
  | UnifiedRevision => UnifiedProtocol.unexpected r
  | ContentRangeRevision => RangeProtocol.unexpected r
  end.

(** The chunk exchange [ev], if it is one, went as the protocol foresees. *)
Definition accepted (rev : Revision) (size : Z) (ev : Event) : bool :=
  match rev with
  | UnifiedRevision => UnifiedProtocol.accepted ev
  | ContentRangeRevision => RangeProtocol.accepted size ev
  end.

Definition requestAt (rev : Revision) (chunkSize : Z) (file : File.t)
    (resumableUrl contentType : string) : Z -> Request :=
  match rev with
  | UnifiedRevision =>
      UnifiedShape.requestAt chunkSize file resumableUrl contentType
  | ContentRangeRevision =>
      RangeShape.requestAt chunkSize file resumableUrl contentType
  end.

Definition verdict (rev : Revision) (chunkSize : Z) (file : File.t)
    : Z -> Response.t -> Verdict :=
  match rev with
  | UnifiedRevision => UnifiedShape.verdict chunkSize file
  | ContentRangeRevision => fun _ => RangeShape.verdict
  end.

(** ** What the specification asks of a run *)

(** The chunk ranges of an upload of [size] bytes in chunks of [chunkSize]:
    [ceil (size / chunkSize)] of them, each of [chunkSize] bytes but a
    possibly smaller last one, contiguous from offset 0, [size] bytes in
    total. *)
Definition chunkPartition (chunkSize size : Z) (bs : list Blob) : Prop :=
  Z.of_nat (List.length bs) = ceilDiv size chunkSize
  /\ fixedSize chunkSize bs
  /\ contiguous 0 bs size
  /\ sumSizes bs = size.

(** The progress contract as the specification words it: 0 first, then
    non-decreasing values of at most 99, then 100 once. *)
Definition progressContractAsStated (ps : list Z) : Prop :=
  hd_error ps = Some 0
  /\ StronglySorted Z.le ps
  /\ exists before, ps = (before ++ [100])%list /\ Forall (fun p => p <= 99) before.

(** A readiness check of the trace reported the state [s]. *)
Definition pollReported (tr : list Event) (s : string) : Prop :=
  exists req r d,
    In (EvFetch req (inr r)) tr /\ body req = NoBody
    /\ Response.json r = inr d /\ Json.state d = Some s.

(** The response [r] to the chunk [c] completes the upload: [isLastChunk]
    in one revision, [uploadRes.ok && uploadRes.status !== 308] in the
    other. *)
Definition completes (rev : Revision) (size : Z) (c : Blob) (r : Response.t)
    : bool :=
  match rev with
  | UnifiedRevision => Response.ok r && (blobEnd c =? size)
  | ContentRangeRevision => Response.ok r && negb (Response.status r =? 308)
  end.

(** The response that completed the upload reported the created resource
    in the state [s]. *)
Definition createdReported (rev : Revision) (size : Z) (tr : list Event)
    (s : string) : Prop :=
  exists req r c d f,
    In (EvFetch req (inr r)) tr /\ body req = BlobBody c
    /\ completes rev size c r = true
    /\ Response.json r = inr d /\ Json.file d = Some f
    /\ FileResource.state f = Some s.



(** How the polling ends once a check reported the state [s]. *)
Definition decidedBy (s : string) (A : Type) (out : Outcome A) : Prop :=
  (s = "FAILED" ->
   out = Thrown (Error "File processing failed on Gemini servers."))
  /\ (s <> "PROCESSING" -> s <> "FAILED" -> exists a, out = Returned a).

(** ** Scripted environments *)

Definition countSleeps (h : Trace) : nat :=
  List.length (filter (fun ev => match ev with EvSleep _ => true | _ => false end) h).

Record Script := mkScript {
  startAnswer : Exn + Response.t;
  chunkAnswer : Request -> Blob -> Exn + Response.t;
  pollAnswer : nat -> Exn + Response.t;  (* by the number of waits so far *)
  genAnswer : Exn + GenResponse
}.

Definition scripted (key : option string) (s : Script) : World :=
  mkWorld key
    (fun h req =>
       match body req with
       | DisplayNameBody _ => startAnswer s
       | BlobBody c => chunkAnswer s req c
       | NoBody => pollAnswer s (countSleeps h)
       end)
    (fun _ _ => genAnswer s).

Definition notJson : Exn + Json.t :=
  inl (mkExn "SyntaxError" "Unexpected end of JSON input").

Definition plainResponse (status : Z) (statusText text : string) : Response.t :=
  Response.make status statusText None text notJson.

Definition startResponse (uploadUrl : string) : Response.t :=
  Response.make 200 "OK" (Some uploadUrl) "" notJson.

Definition createdResponse (state : string) : Response.t :=
  Response.make 200 "OK" None ""
    (inr (Json.make
            (Some (FileResource.make "https://generativelanguage.googleapis.com/v1beta/files/abc"
                                     "files/abc" (Some state)))
            None)).

Definition stateResponse (state : string) : Response.t :=
  Response.make 200 "OK" None "" (inr (Json.make None (Some state))).

(** The service as the protocol describes it: the chunk that ends the file
    is answered with the created resource in [finalState], an earlier one
    with 308 to a [PUT] and 200 to a [POST]; the first readiness check
    still reports PROCESSING, the later ones [laterState]. *)
Definition serviceScript (uploadUrl : string) (size : Z)
    (finalState laterState : string) (generated : option string) : Script :=
  mkScript
    (inr (startResponse uploadUrl))
    (fun req c =>
       if blobEnd c =? size then inr (createdResponse finalState)
       else if (method req =? "PUT")%string
            then inr (plainResponse 308 "Resume Incomplete" "")
            else inr (plainResponse 200 "OK" ""))
    (fun polls =>
       inr (stateResponse (if (polls <? 2)%nat then "PROCESSING" else laterState)))
    (inr (mkGenResponse generated)).

Definition absoluteUploadUrl : string :=
  "https://generativelanguage.googleapis.com/upload/v1beta/files?upload_id=abc".

Definition relativeUploadUrl : string := "/upload/v1beta/files?upload_id=abc".

Definition lecture : File.t := File.make "lecture.mp4" "video/mp4" (20 * 1024 * 1024).


(** A healthy service for [lecture]. *)
Definition healthy : World :=
  scripted (Some "K")
    (serviceScript absoluteUploadUrl (File.size lecture) "PROCESSING" "ACTIVE"
                   (Some "Hello $E=mc^2$")).

(** The same service announcing a relative upload URL. *)
Definition relativeTarget : World :=
  scripted (Some "K")
    (serviceScript relativeUploadUrl (File.size lecture) "PROCESSING" "ACTIVE"
                   (Some "Hello $E=mc^2$")).

(** The created resource is already FAILED in the final response. *)
Definition failedAtOnce : World :=
  scripted (Some "K")
    (serviceScript absoluteUploadUrl (File.size lecture) "FAILED" "FAILED"
                   (Some "Hello $E=mc^2$")).

(** The resource fails while it is polled. *)
Definition failedLater : World :=
  scripted (Some "K")
    (serviceScript absoluteUploadUrl (File.size lecture) "PROCESSING" "FAILED"
                   (Some "Hello $E=mc^2$")).

(** The generation call returns an empty text. *)
Definition silent : World :=
  scripted (Some "K")
    (serviceScript absoluteUploadUrl (File.size lecture) "ACTIVE" "ACTIVE" (Some "")).

(** No key in the environment. *)
Definition unconfigured : World :=
  scripted None
    (serviceScript absoluteUploadUrl (File.size lecture) "ACTIVE" "ACTIVE"
                   (Some "Hello")).

(** The start response carries no upload URL. *)
Definition noSessionUrl : World :=
  scripted (Some "K")
    (mkScript (inr (plainResponse 200 "OK" ""))
              (fun _ _ => inr (plainResponse 200 "OK" ""))
              (fun _ => inr (stateResponse "ACTIVE"))
              (inr (mkGenResponse (Some "Hello")))).

(** The second chunk is answered with a server error. *)
Definition brokenMidway : World :=
  scripted (Some "K")
    (mkScript (inr (startResponse absoluteUploadUrl))
              (fun req c =>
                 if blobStart c =? 0
                 then (if (method req =? "PUT")%string
                       then inr (plainResponse 308 "Resume Incomplete" "")
                       else inr (plainResponse 200 "OK" ""))
                 else inr (plainResponse 503 "Service Unavailable" "try later"))
              (fun _ => inr (stateResponse "ACTIVE"))
              (inr (mkGenResponse (Some "Hello")))).

(** ** Further observations on a trace *)

(** The URL of a readiness check. *)
Definition checkUrl (apiKey fileName : string) : string :=
  API_HOST ++ "/v1beta/" ++ fileName ++ "?key=" ++ apiKey.

(** Events of the chunk phase: a chunk exchange, or a progress report. *)
Definition isUploadEvent (ev : Event) : bool :=
  match ev with
  | EvFetch req _ =>
      match body req with
      | BlobBody _ => true
      | _ => false
      end
  | EvProgress _ => true
  | _ => false
  end.

(** A readiness check. *)
Definition isCheck (ev : Event) : bool :=
  match ev with
  | EvFetch req _ =>
      match body req with
      | NoBody => true
      | _ => false
      end
  | _ => false
  end.

Definition checksMade (tr : list Event) : list Event := filter isCheck tr.

(** Waits of two seconds, each followed by a readiness check at [url]. *)
Fixpoint alternating (url : string) (n : list Event) : Prop :=
  match n with
  | [] => True
  | EvSleep ms :: EvFetch req _ :: rest =>
      ms = 2000 /\ req = mkRequest url "GET" [] NoBody /\ alternating url rest
  | _ => False
  end.

(** The readiness check [ev], if it is one, reported PROCESSING. *)
Definition stillProcessing (ev : Event) : bool :=
  match ev with
  | EvFetch req answer =>
      match body req with
      | NoBody =>
          match answer with
          | inr r =>
              match Response.json r with
              | inr d => JS.strictEq (Json.state d) "PROCESSING"
              | inl _ => false
              end
          | inl _ => false
          end
      | _ => true
      end
  | _ => true
  end.

Definition consoleErrorOf (ev : Event) : list (string * Exn) :=
  match ev with
  | EvConsoleError label e => [(label, e)]
  | _ => []
  end.

(** What was written with [console.error]. *)
Definition consoleErrors (tr : list Event) : list (string * Exn) :=
  flat_map consoleErrorOf tr.

(** The percentage reported once the chunk [b] was taken. *)
Definition percentAfter (size : Z) (b : Blob) : Z := progressOf (blobEnd b) size.

(** The chunk [c] is a block of the file: it starts inside the file at a
    multiple of the chunk size and reaches to the next multiple, or to the
    end of the file. *)
Definition isBlock (chunkSize size : Z) (c : Blob) : Prop :=
  0 <= blobStart c < size
  /\ blobStart c mod chunkSize = 0
  /\ blobEnd c = Z.min (blobStart c + chunkSize) size.

(** The chunk exchange [ev], if it is one, was answered 308. *)
Definition resumed (ev : Event) : bool :=
  match answerOf ev with
  | Some (_, inr r) => Response.status r =? 308
  | Some (_, inl _) => false
  | None => true
  end.

(** The chunk of [ev] when it was taken: its request was answered, and
    not with a status that [unexpected] rules out. *)
Definition takenBy (unexpected : Response.t -> bool) (ev : Event) : list Blob :=
  match answerOf ev with
  | Some (c, inr r) => if unexpected r then [] else [c]
  | _ => []
  end.

(** The chunks that were taken, in order. *)
Definition chunksTaken (rev : Revision) (tr : list Event) : list Blob :=
  flat_map (takenBy (unexpected rev)) tr.

(** The request of [ev], if it is one, has a [key=] in its URL. *)
Definition carriesKey (ev : Event) : bool :=
  match ev with
  | EvFetch req _ => JS.includes (url req) "key="
  | _ => true
  end.

(** What a rejected generation call leaves on the console. *)
Definition loggedRejection (ev : Event) : list (string * Exn) :=
  match ev with
  | EvGenerate _ (inl e) => [("Gemini API Error:", e)]
  | _ => []
  end.

(** *** Further scripted environments *)

(** The resource never leaves PROCESSING. *)
Definition stuck : World :=
  scripted (Some "K")
    (serviceScript absoluteUploadUrl (File.size lecture) "PROCESSING" "PROCESSING"
                   (Some "Hello")).

(** The readiness checks are answered 404 with a body without [state]. *)
Definition forgotten : World :=
  scripted (Some "K")
    (mkScript (inr (startResponse absoluteUploadUrl))
              (fun _ c =>
                 if blobEnd c =? File.size lecture
                 then inr (createdResponse "PROCESSING")
                 else inr (plainResponse 200 "OK" ""))
              (fun _ => inr (Response.make 404 "Not Found" None ""
                               (inr (Json.make None None))))
              (inr (mkGenResponse (Some "Hello")))).

(** Every chunk, the last one included, is answered 308. *)
Definition alwaysResuming : World :=
  scripted (Some "K")
    (mkScript (inr (startResponse absoluteUploadUrl))
              (fun _ _ => inr (plainResponse 308 "Resume Incomplete" ""))
              (fun _ => inr (stateResponse "ACTIVE"))
              (inr (mkGenResponse (Some "Hello")))).

(** The first chunk is already answered with the created resource. *)
Definition eager : World :=
  scripted (Some "K")
    (mkScript (inr (startResponse absoluteUploadUrl))
              (fun _ _ => inr (createdResponse "ACTIVE"))
              (fun _ => inr (stateResponse "ACTIVE"))
              (inr (mkGenResponse (Some "Hello")))).

(** The network is down after the first chunk. *)
Definition offlineMidway : World :=
  scripted (Some "K")
    (mkScript (inr (startResponse absoluteUploadUrl))
              (fun req c =>
                 if blobStart c =? 0
                 then (if (method req =? "PUT")%string
                       then inr (plainResponse 308 "Resume Incomplete" "")
                       else inr (plainResponse 200 "OK" ""))
                 else inl (TypeError "Failed to fetch"))
              (fun _ => inr (stateResponse "ACTIVE"))
              (inr (mkGenResponse (Some "Hello")))).

(** The generation call is rejected, with a message and without one. *)
Definition overloaded (msg : string) : World :=
  scripted (Some "K")
    (mkScript (inr (startResponse absoluteUploadUrl))
              (chunkAnswer (serviceScript absoluteUploadUrl (File.size lecture)
                                          "ACTIVE" "ACTIVE" None))
              (fun _ => inr (stateResponse "ACTIVE"))
              (inl (mkExn "ApiError" msg))).

(** ** The components (types.ts, FileUpload.tsx, AudioRecorder.tsx, App.tsx)

    A handler is a function from the state it reads to the state its
    [set...] calls leave; what it hands to a callback prop is part of its
    result. *)

Module AppState.
Inductive t := IDLE | UPLOADING | PROCESSING | COMPLETE | ERROR.
End AppState.

Inductive FileType := video | audio.

Module UploadedFile.
Record t := make {
  file : File.t;
  previewUrl : string;
  type : FileType;
  mimeType : string;
  size : Z
}.
End UploadedFile.

(** The object URLs of the browser: [createObjectURL] mints a URL and
    keeps it alive until [revokeObjectURL] is called on it.  The name of a
    minted URL is the browser's business; here it is [blob:] and a serial
    number, and all that is used of it is that it is not empty. *)
Module URL.

Record Store := mkStore { live : list string; minted : nat }.

Definition empty : Store := mkStore [] 0.

Definition createObjectURL (s : Store) : string * Store :=
  let u := "blob:" ++ JS.toString (Z.of_nat (minted s)) in
  (u, mkStore (u :: live s) (S (minted s))).

Definition revokeObjectURL (u : string) (s : Store) : Store :=
  mkStore (filter (fun v => negb (v =? u)%string) (live s)) (minted s).

End URL.

(** [file.size <= MAX_PREVIEW_SIZE ? URL.createObjectURL(file) : ''] *)
Definition previewFor (f : File.t) (urls : URL.Store) : string * URL.Store :=
  if File.size f <=? MAX_PREVIEW_SIZE then URL.createObjectURL urls
  else ("", urls).

Module FileUpload.

Record State := mkState { isDragging : bool; error : option string }.

Definition initial : State := mkState false None.

(** [processFile]: the third component is the argument of
    [onFileSelected], when it is called. *)
Definition processFile (f : File.t) (st : State) (urls : URL.Store)
    : State * URL.Store * option UploadedFile.t :=
  if negb (JS.startsWith (File.type f) "video/")
     && negb (JS.startsWith (File.type f) "audio/")
  then (mkState (isDragging st)
                (Some "Please upload a valid video or audio file."),
        urls, None)
  else
    let (previewUrl, urls') := previewFor f urls in
    (mkState (isDragging st) None, urls',
     Some (UploadedFile.make f previewUrl
             (if JS.startsWith (File.type f) "video/" then video else audio)
             (File.type f) (File.size f))).

(** [handleDrop]; [files] is [e.dataTransfer.files]. *)
Definition handleDrop (disabled : bool) (files : list File.t)
    (st : State) (urls : URL.Store)
    : State * URL.Store * option UploadedFile.t :=
  let st1 := mkState false (error st) in
  if disabled then (st1, urls, None)
  else match files with
       | f :: _ => processFile f st1 urls
       | [] => (st1, urls, None)
       end.

(** [handleFileInput]; [files] is [e.target.files], which may be null. *)
Definition handleFileInput (files : option (list File.t))
    (st : State) (urls : URL.Store)
    : State * URL.Store * option UploadedFile.t :=
  match files with
  | Some (f :: _) => processFile f st urls
  | _ => (st, urls, None)
  end.

End FileUpload.

Module AudioRecorder.

(** [chunks] holds the sizes of the blobs in [chunksRef.current];
    [mediaRecorder] tells whether [mediaRecorderRef.current] is set. *)
Record State := mkState {
  isRecording : bool;
  mediaRecorder : bool;
  chunks : list Z
}.

Definition initial : State := mkState false false [].

(** [startRecording]; [granted] tells whether [getUserMedia] resolved.
    The second component is what [alert] showed. *)
Definition startRecording (granted : bool) (st : State)
    : State * option string :=
  if granted then (mkState true true [], None)
  else (st, Some "Could not access microphone. Please check permissions.").

(** [ondataavailable] for a blob of [size] bytes. *)
Definition ondataavailable (size : Z) (st : State) : State :=
  if 0 <? size
  then mkState (isRecording st) (mediaRecorder st) (chunks st ++ [size])%list
  else st.


(** The file built by [onstop]: the concatenation of the chunks. *)
Definition recordedFile (st : State) : File.t :=
  File.make "recording.webm" "audio/webm" (fold_right Z.add 0 (chunks st)).

(** [onstop]: the third component is the argument of
    [onRecordingComplete]. *)
Definition onstop (st : State) (urls : URL.Store)
    : State * URL.Store * UploadedFile.t :=
  let file := recordedFile st in
  let (previewUrl, urls') := previewFor file urls in
  (mkState false (mediaRecorder st) (chunks st), urls',
   UploadedFile.make file previewUrl audio "audio/webm" (File.size file)).

(** A whole recording: start, the data events, stop. *)
Definition record (sizes : list Z) (urls : URL.Store)
    : State * URL.Store * UploadedFile.t :=
  onstop (fold_left (fun st size => ondataavailable size st) sizes
            (fst (startRecording true initial)))
         urls.

End AudioRecorder.

Module App.

Record State := mkState {
  appState : AppState.t;
  uploadedFile : option UploadedFile.t;
  transcription : string;
  error : option string;
  uploadProgress : Z
}.

Definition initial : State := mkState AppState.IDLE None "" None 0.

(** [uploadedFile?.type === 'video'] *)
Definition isComplexModel (s : State) : bool :=
  match uploadedFile s with
  | Some u => match UploadedFile.type u with video => true | audio => false end
  | None => false
  end.

(** [if (uploadedFile?.previewUrl) URL.revokeObjectURL(uploadedFile.previewUrl)],
    in both handlers and in the cleanup of the effect. *)
Definition revokePreview (s : State) (urls : URL.Store) : URL.Store :=
  match uploadedFile s with
  | Some u =>
      if JS.truthy (UploadedFile.previewUrl u)
      then URL.revokeObjectURL (UploadedFile.previewUrl u) urls
      else urls
  | None => urls
  end.

Definition handleFileSelected (fileData : UploadedFile.t) (s : State)
    (urls : URL.Store) : State * URL.Store :=
  (mkState AppState.IDLE (Some fileData) (transcription s) (error s) 0,
   revokePreview s urls).

Definition handleReset (s : State) (urls : URL.Store) : State * URL.Store :=
  (mkState AppState.IDLE None "" None 0, revokePreview s urls).

(** [startTranscription] up to its [await]: nothing without a file. *)
Definition startTranscription_begin (s : State) : option State :=
  match uploadedFile s with
  | None => None
  | Some _ =>
      Some (mkState AppState.UPLOADING (uploadedFile s) (transcription s) None 0)
  end.

(** [(progress) => setUploadProgress(progress)] *)
Definition onProgress (progress : Z) (s : State) : State :=
  mkState (appState s) (uploadedFile s) (transcription s) (error s) progress.

(** After the [await]: the promise was fulfilled. *)
Definition onFulfilled (result : string) (s : State) : State :=
  mkState AppState.COMPLETE (uploadedFile s) result (error s) (uploadProgress s).

(** After the [await]: the [catch] branch. *)
Definition onRejected (err : Exn) (s : State) : State :=
  mkState AppState.ERROR (uploadedFile s) (transcription s)
    (Some (JS.or_else (message err)
             "An unexpected error occurred during transcription."))
    (uploadProgress s).

(** [appState === AppState.PROCESSING || appState === AppState.UPLOADING],
    the [disabled] of the inputs and of the start button. *)
Definition busy (s : State) : bool :=
  match appState s with
  | AppState.PROCESSING | AppState.UPLOADING => true
  | _ => false
  end.

Definition shouldShowVideoPreview (s : State) : bool :=
  match uploadedFile s with
  | Some u =>
      match UploadedFile.type u with
      | video => UploadedFile.size u <? MAX_PREVIEW_SIZE
      | audio => false
      end
  | None => false
  end.

(** The call [startTranscription] makes for the file on display. *)
Definition transcriptionCall (rev : Revision) (w : World) (pollFuel fuel : nat)
    (h : Trace) (s : State) : option (Outcome string * list Event) :=
  match uploadedFile s with
  | Some u =>
      Some (transcribeMedia rev w pollFuel fuel (UploadedFile.file u)
              (UploadedFile.mimeType u) (Some (isComplexModel s)) h)
  | None => None
  end.

End App.

(** *** The page as a whole

    What can happen to the page, one event at a time.  A call of
    [transcribeMedia] that was started reports progress and settles
    whenever it does: [running] counts the calls not yet settled. *)

Inductive Action :=
| DropFiles (files : list File.t)             (* a drop on the picker *)
| ChooseFiles (files : option (list File.t))  (* a change of the file input *)
| FinishRecording (sizes : list Z)   (* a recording, from start to stop *)
| ClickReset
| ClickStart
| Progress (percent : Z)             (* [onProgress] of a running call *)
| Fulfilled (result : string)        (* a running call returned *)
| Rejected (err : Exn).              (* a running call threw *)

Module Page.

Record t := mk {
  app : App.State;
  urls : URL.Store;
  running : nat;
  console : list Exn
}.

Definition initial : t := mk App.initial URL.empty 0 [].

(** [!uploadedFile]: the inputs are rendered instead of the file card. *)
Definition inputsShown (p : t) : bool :=
  match App.uploadedFile (app p) with
  | None => true
  | Some _ => false
  end.

(** [onFileSelected] and [onRecordingComplete] are [handleFileSelected];
    the change of [uploadedFile] runs the cleanup of the effect. *)
Definition selected (fileData : UploadedFile.t) (urls1 : URL.Store) (p : t) : t :=
  let (app', urls2) := App.handleFileSelected fileData (app p) urls1 in
  mk app' (App.revokePreview (app p) urls2) (running p) (console p).

(** The page once a handler of the picker has run. *)
Definition picked (p : t)
    (result : FileUpload.State * URL.Store * option UploadedFile.t) : t :=
  match result with
  | (_, urls1, Some fileData) => selected fileData urls1 p
  | (_, urls1, None) => mk (app p) urls1 (running p) (console p)
  end.

(** The page after [act], or [None] when the control that would trigger
    it is not rendered, is disabled, or no call is running.  The picker
    is mounted afresh whenever it is rendered again; its own state does
    not reach the page. *)
Definition step (p : t) (act : Action) : option t :=
  match act with
  | DropFiles files =>
      if inputsShown p then
        Some (picked p (FileUpload.handleDrop (App.busy (app p)) files
                          FileUpload.initial (urls p)))
      else None
  | ChooseFiles files =>
      if inputsShown p && negb (App.busy (app p)) then
        Some (picked p (FileUpload.handleFileInput files FileUpload.initial
                          (urls p)))
      else None
  | FinishRecording sizes =>
      if inputsShown p && negb (App.busy (app p)) then
        match AudioRecorder.record sizes (urls p) with
        | (_, urls1, fileData) => Some (selected fileData urls1 p)
        end
      else None
  | ClickReset =>
      if inputsShown p then None
      else
        let (app', urls1) := App.handleReset (app p) (urls p) in
        Some (mk app' (App.revokePreview (app p) urls1) (running p) (console p))
  | ClickStart =>
      if inputsShown p || App.busy (app p) then None
      else
        match App.startTranscription_begin (app p) with
        | Some app' => Some (mk app' (urls p) (S (running p)) (console p))
        | None => None
        end
  | Progress percent =>
      match running p with
      | O => None
      | S _ => Some (mk (App.onProgress percent (app p)) (urls p) (running p)
                        (console p))
      end
  | Fulfilled result =>
      match running p with
      | O => None
      | S k => Some (mk (App.onFulfilled result (app p)) (urls p) k (console p))
      end
  | Rejected err =>
      match running p with
      | O => None
      | S k => Some (mk (App.onRejected err (app p)) (urls p) k
                        (console p ++ [err])%list)
      end
  end.

(** The pages an enabled sequence of events goes through. *)
Fixpoint history (p : t) (acts : list Action) : option (list t) :=
  match acts with
  | [] => Some []
  | act :: rest =>
      match step p act with
      | Some p' =>
          match history p' rest with
          | Some ps => Some (p' :: ps)
          | None => None
          end
      | None => None
      end
  end.

Definition after (p : t) (acts : list Action) : option t :=
  match history p acts with
  | Some ps => Some (last ps p)
  | None => None
  end.

(** What a call hands back to the page, in order. *)
Definition callbacks (run : Outcome string * list Event) : list Action :=
  (map Progress (progressValues (snd run))
   ++ match fst run with
      | Returned result => [Fulfilled result]
      | Thrown err => [Rejected err]
      | Pending _ => []
      end)%list.

(** A click on the start button and the call it makes, left alone. *)
Definition transcribing (rev : Revision) (w : World) (pollFuel fuel : nat)
    (h : Trace) (p : t) : list Action :=
  match App.transcriptionCall rev w pollFuel fuel h (app p) with
  | Some run => ClickStart :: callbacks run
  | None => []
  end.

(** No URL is kept alive but the preview of the file on display. *)
Definition previewOnly (p : t) : Prop :=
  URL.live (urls p)
  = match App.uploadedFile (app p) with
    | Some u =>
        if JS.truthy (UploadedFile.previewUrl u)
        then [UploadedFile.previewUrl u]
        else []
    | None => []
    end.

(** The file on display has a preview URL exactly when it is small enough
    for one. *)
Definition previewSized (p : t) : Prop :=
  forall u, App.uploadedFile (app p) = Some u ->
    JS.truthy (UploadedFile.previewUrl u)
    = (UploadedFile.size u <=? MAX_PREVIEW_SIZE).

(** The states a page can be in. *)
Definition steady (p : t) : Prop :=
  App.appState (app p) <> AppState.PROCESSING
  /\ (App.busy (app p) = true ->
      inputsShown p = false /\ (0 < running p)%nat).

End Page.

(** * Facts

    ** Rounding to binary64 *)

(** The rounding model agrees with the primitive binary64 operations. *)
Example div_conforms :
  Qeq_bool (Float64.div 23 40)
           (Float64.of_spec_float (Prim2SF (23 / 40)%float)) = true.
Proof. vm_compute. reflexivity. Qed.

Example mul_conforms :
  Qeq_bool (Float64.mul (Float64.div 23 40) 100)
           (Float64.of_spec_float (Prim2SF (23 / 40 * 100)%float)) = true.
Proof. vm_compute. reflexivity. Qed.

Example third_conforms :
  Qeq_bool (Float64.mul (Float64.div 1 3) 100)
           (Float64.of_spec_float (Prim2SF (1 / 3 * 100)%float)) = true.
Proof. vm_compute. reflexivity. Qed.

(** After 23 chunks of a 40-chunk file the report is 57, not 58:
    [23 / 40 * 100] is 57.49999999999999 in binary64. *)
Example percent_after_23_of_40 :
  progressOf (23 * UPLOAD_CHUNK_SIZE) (40 * UPLOAD_CHUNK_SIZE) = 57.
Proof. vm_compute. reflexivity. Qed.

Example percent_of_first_chunk :
  progressOf UPLOAD_CHUNK_SIZE (File.size lecture) = 40.
Proof. vm_compute. reflexivity. Qed.

Section Float64Facts.
Import Float64.
Local Open Scope Q_scope.

Lemma pow2_pos (e : Z) : 0 < pow2 e.
Proof. apply Qpower_0_lt. reflexivity. Qed.

Lemma pow2_add (a b : Z) : pow2 (a + b) == pow2 a * pow2 b.
Proof. apply Qpower_plus. discriminate. Qed.

Lemma pow2_le (a b : Z) : (a <= b)%Z -> pow2 a <= pow2 b.
Proof. intros H. apply Qpower_le_compat_l; [exact H | discriminate]. Qed.

Lemma pow2_lt_inv (a b : Z) : pow2 a < pow2 b -> (a < b)%Z.
Proof. intros H. apply (Qpower_lt_compat_l_inv 2); [exact H | reflexivity]. Qed.

Lemma pow2_inject (n : Z) : (0 <= n)%Z -> pow2 n == inject_Z (2 ^ n).
Proof. intros H. symmetry. apply (Zpower_Qpower 2 n H). Qed.

Lemma pow2_cancel (e : Z) : pow2 (- e) * pow2 e == 1.
Proof. rewrite <- pow2_add. replace (- e + e)%Z with 0%Z by lia. reflexivity. Qed.

Lemma log2_bounds (p : Z) :
  (0 < p)%Z -> pow2 (Z.log2 p) <= inject_Z p /\ inject_Z p < pow2 (Z.log2 p + 1).
Proof.
  intros Hp. destruct (Z.log2_spec p Hp) as [Hlo Hhi].
  pose proof (Z.log2_nonneg p) as Hn.
  split.
  - rewrite pow2_inject by exact Hn. rewrite <- Zle_Qle. exact Hlo.
  - rewrite pow2_inject by lia. rewrite <- Zlt_Qlt.
    replace (Z.log2 p + 1)%Z with (Z.succ (Z.log2 p)) by lia. exact Hhi.
Qed.

Lemma ilog2_spec (x : Q) :
  0 < x -> pow2 (ilog2 x) <= x /\ x < pow2 (ilog2 x + 1).
Proof.
  intros Hx. unfold ilog2.
  destruct x as [p q]. cbn [Qnum Qden].
  assert (Hp : (0 < p)%Z).
  { unfold Qlt in Hx. cbn in Hx. lia. }
  destruct (log2_bounds p Hp) as [Hp1 Hp2].
  destruct (log2_bounds (Zpos q) (Pos2Z.is_pos q)) as [Hq1 Hq2].
  set (lp := Z.log2 p) in *. set (lq := Z.log2 (Zpos q)) in *.
  assert (Hpq : p # q == inject_Z p * / inject_Z (Zpos q)) by apply Qmake_Qdiv.
  assert (Hqpos : 0 < inject_Z (Zpos q)).
  { change 0 with (inject_Z 0). rewrite <- Zlt_Qlt. apply Pos2Z.is_pos. }
  destruct (Qle_bool (pow2 (lp - lq)) (p # q)) eqn:Hb.
  - split.
    + apply Qle_bool_iff. exact Hb.
    + rewrite Hpq. apply Qlt_shift_div_r; [exact Hqpos|].
      replace (lp - lq + 1)%Z with ((lp + 1) + - lq)%Z by lia.
      rewrite pow2_add.
      pose proof (pow2_cancel lq) as Hc.
      pose proof (pow2_pos (- lq)) as H1. pose proof (pow2_pos (lp + 1)) as H2.
      pose proof (pow2_pos lq) as H3.
      apply Qlt_le_trans with (pow2 (lp + 1) * (pow2 (- lq) * pow2 lq)).
      * rewrite Hc. lra.
      * rewrite Qmult_assoc. apply Qmult_le_l.
        { apply Qmult_lt_0_compat; assumption. }
        exact Hq1.
  - split.
    + rewrite Hpq. apply Qle_shift_div_l; [exact Hqpos|].
      replace (lp - lq - 1)%Z with (lp + - (lq + 1))%Z by lia.
      rewrite pow2_add.
      pose proof (pow2_cancel (lq + 1)) as Hc.
      pose proof (pow2_pos (- (lq + 1))) as H1. pose proof (pow2_pos lp) as H2.
      apply Qle_trans with (pow2 lp * (pow2 (- (lq + 1)) * pow2 (lq + 1))).
      * rewrite Qmult_assoc. apply Qmult_le_l.
        { apply Qmult_lt_0_compat; assumption. }
        apply Qlt_le_weak. exact Hq2.
      * rewrite Hc. lra.
    + assert (Hlt : p # q < pow2 (lp - lq)).
      { apply Qnot_le_lt. intros Hle. apply Qle_bool_iff in Hle. congruence. }
      replace (lp - lq - 1 + 1)%Z with (lp - lq)%Z by lia. exact Hlt.
Qed.

Lemma ilog2_mono (x y : Q) : 0 < x -> x <= y -> (ilog2 x <= ilog2 y)%Z.
Proof.
  intros Hx Hxy.
  destruct (ilog2_spec x Hx) as [Hx1 _].
  destruct (ilog2_spec y) as [_ Hy2]; [lra|].
  assert (H : pow2 (ilog2 x) < pow2 (ilog2 y + 1)) by lra.
  apply pow2_lt_inv in H. lia.
Qed.

Lemma rne_bounds (x : Q) : (Qfloor x <= rne x <= Qfloor x + 1)%Z.
Proof.
  unfold rne. destruct (Qcompare _ _); [destruct (Z.even _)| |]; lia.
Qed.

Lemma rne_inject (n : Z) : rne (inject_Z n) = n.
Proof.
  unfold rne. rewrite Qfloor_Z.
  destruct (Qcompare_spec (inject_Z n - inject_Z n) (1 # 2)) as [H|H|H];
    try reflexivity; exfalso; lra.
Qed.

Lemma rne_mono (x y : Q) : x <= y -> (rne x <= rne y)%Z.
Proof.
  intros Hxy.
  pose proof (Qfloor_resp_le x y Hxy) as Hf.
  pose proof (rne_bounds x) as Bx. pose proof (rne_bounds y) as By.
  destruct (Z.eq_dec (Qfloor x) (Qfloor y)) as [E|N]; [|lia].
  unfold rne in *. rewrite <- E in *.
  destruct (Qcompare_spec (x - inject_Z (Qfloor x)) (1 # 2)) as [H1|H1|H1];
    destruct (Qcompare_spec (y - inject_Z (Qfloor x)) (1 # 2)) as [H2|H2|H2];
    try lia; try (exfalso; lra);
    destruct (Z.even (Qfloor x)); lia.
Qed.

Lemma round_pos_nonneg (x : Q) : 0 <= x -> 0 <= round_pos x.
Proof.
  intros Hx. unfold round_pos.
  apply Qmult_le_0_compat; [|apply Qlt_le_weak, pow2_pos].
  change 0 with (inject_Z 0). rewrite <- Zle_Qle.
  pose proof (rne_bounds (x * pow2 (- (ilog2 x - 52)))) as B.
  assert (0 <= Qfloor (x * pow2 (- (ilog2 x - 52))))%Z; [|lia].
  change 0%Z with (Qfloor 0). apply Qfloor_resp_le.
  apply Qmult_le_0_compat; [exact Hx | apply Qlt_le_weak, pow2_pos].
Qed.

Lemma round_pos_mono (x y : Q) : 0 < x -> x <= y -> round_pos x <= round_pos y.
Proof.
  intros Hx Hxy.
  pose proof (ilog2_mono x y Hx Hxy) as Hl.
  destruct (ilog2_spec x Hx) as [_ Hxhi].
  destruct (ilog2_spec y) as [Hylo _]; [lra|].
  unfold round_pos.
  set (ex := (ilog2 x - 52)%Z). set (ey := (ilog2 y - 52)%Z).
  destruct (Z.eq_dec ex ey) as [E|N].
  - rewrite <- E. apply Qmult_le_compat_r; [|apply Qlt_le_weak, pow2_pos].
    rewrite <- Zle_Qle. apply rne_mono.
    apply Qmult_le_compat_r; [exact Hxy | apply Qlt_le_weak, pow2_pos].
  - assert (Hlt : (ex + 1 <= ey)%Z) by (unfold ex, ey in *; lia).
    apply Qle_trans with (pow2 (ey + 52)).
    + apply Qle_trans with (pow2 (ex + 53)); [|apply pow2_le; lia].
      replace (ex + 53)%Z with (53 + ex)%Z by lia. rewrite pow2_add.
      apply Qmult_le_compat_r; [|apply Qlt_le_weak, pow2_pos].
      rewrite (pow2_inject 53) by lia. rewrite <- Zle_Qle.
      rewrite <- (rne_inject (2 ^ 53)). apply rne_mono.
      rewrite <- (pow2_inject 53) by lia.
      replace (ilog2 x + 1)%Z with (53 + ex)%Z in Hxhi by (unfold ex; lia).
      rewrite pow2_add in Hxhi.
      pose proof (pow2_cancel ex) as Hc. pose proof (pow2_pos (- ex)) as Hp.
      apply Qle_trans with (pow2 53 * pow2 ex * pow2 (- ex)).
      * apply Qmult_le_compat_r; lra.
      * rewrite <- Qmult_assoc, (Qmult_comm (pow2 ex)), Hc. lra.
    + replace (ey + 52)%Z with (52 + ey)%Z by lia. rewrite pow2_add.
      apply Qmult_le_compat_r; [|apply Qlt_le_weak, pow2_pos].
      rewrite (pow2_inject 52) by lia. rewrite <- Zle_Qle.
      rewrite <- (rne_inject (2 ^ 52)) at 1. apply rne_mono.
      rewrite <- (pow2_inject 52) by lia.
      replace (ilog2 y)%Z with (52 + ey)%Z in Hylo by (unfold ey; lia).
      rewrite pow2_add in Hylo.
      pose proof (pow2_cancel ey) as Hc. pose proof (pow2_pos (- ey)) as Hp.
      apply Qle_trans with (pow2 52 * pow2 ey * pow2 (- ey)).
      * rewrite <- Qmult_assoc, (Qmult_comm (pow2 ey)), Hc. lra.
      * apply Qmult_le_compat_r; lra.
Qed.

Lemma round_nonneg (x : Q) : 0 <= x -> 0 <= round x.
Proof.
  intros Hx. unfold round.
  destruct (Qcompare_spec x 0) as [H|H|H]; try lra.
  apply round_pos_nonneg. exact Hx.
Qed.

Lemma round_mono (x y : Q) : 0 <= x -> x <= y -> round x <= round y.
Proof.
  intros Hx Hxy. unfold round.
  destruct (Qcompare_spec x 0) as [H1|H1|H1];
    destruct (Qcompare_spec y 0) as [H2|H2|H2]; try lra.
  - apply round_pos_nonneg. lra.
  - apply round_pos_mono; assumption.
Qed.

Lemma Math_round_mono (x y : Q) : x <= y -> (Math_round x <= Math_round y)%Z.
Proof. intros H. apply Qfloor_resp_le. lra. Qed.

Lemma Math_round_nonneg (x : Q) : 0 <= x -> (0 <= Math_round x)%Z.
Proof.
  intros H. change 0%Z with (Qfloor 0). apply Qfloor_resp_le. lra.
Qed.

Lemma ratio_nonneg (a s : Z) : (0 <= a)%Z -> (0 < s)%Z -> 0 <= inject_Z a / inject_Z s.
Proof.
  intros Ha Hs. apply Qle_shift_div_l.
  - change 0 with (inject_Z 0). rewrite <- Zlt_Qlt. exact Hs.
  - rewrite Qmult_0_l. change 0 with (inject_Z 0). rewrite <- Zle_Qle. exact Ha.
Qed.

Lemma ratio_mono (a b s : Z) :
  (a <= b)%Z -> (0 < s)%Z -> inject_Z a / inject_Z s <= inject_Z b / inject_Z s.
Proof.
  intros Hab Hs. unfold Qdiv. apply Qmult_le_compat_r.
  - rewrite <- Zle_Qle. exact Hab.
  - apply Qlt_le_weak, Qinv_lt_0_compat.
    change 0 with (inject_Z 0). rewrite <- Zlt_Qlt. exact Hs.
Qed.
End Float64Facts.

Lemma progressOf_mono (a b s : Z) :
  0 <= a -> a <= b -> 0 < s -> progressOf a s <= progressOf b s.
Proof.
  intros Ha Hab Hs. unfold progressOf.
  apply Z.min_le_compat_r. apply Math_round_mono.
  unfold Float64.mul, Float64.div.
  pose proof (ratio_nonneg a s Ha Hs) as H0.
  pose proof (ratio_mono a b s Hab Hs) as H1.
  pose proof (round_nonneg _ H0) as H2.
  pose proof (round_mono _ _ H0 H1) as H3.
  apply round_mono.
  - apply Qmult_le_0_compat; [exact H2 | discriminate].
  - apply Qmult_le_compat_r; [exact H3 | discriminate].
Qed.

Lemma progressOf_range (a s : Z) :
  0 <= a -> 0 < s -> 0 <= progressOf a s <= 99.
Proof.
  intros Ha Hs. unfold progressOf. split; [|apply Z.le_min_r].
  apply Z.min_glb; [|lia]. apply Math_round_nonneg.
  unfold Float64.mul, Float64.div. apply round_nonneg.
  apply Qmult_le_0_compat; [|discriminate].
  apply round_nonneg, ratio_nonneg; assumption.
Qed.

(** ** Events of the polling phase *)

Lemma pollLoop_events (w : World) (apiKey fileName : string) :
  forall (fuel : nat) (state : option string) (h : Trace),
    forallb isPollEvent (snd (pollLoop w apiKey fileName fuel state h)) = true
    /\ fst (pollLoop w apiKey fileName fuel state h) <> Pending ChunkLoop.
Proof.
  induction fuel as [|fuel IH]; intros state h; cbn [pollLoop].
  - destruct (JS.strictEq state "PROCESSING"); cbn; split; congruence.
  - destruct (JS.strictEq state "PROCESSING"); [|cbn; split; congruence].
    unfold bind, sleep, emit, fetch.
    match goal with |- context [fetchOracle w ?h' ?req] =>
      destruct (fetchOracle w h' req) as [e|r] end.
    + cbn. split; congruence.
    + destruct (Response.json r) as [e|d]; cbn [settle throw ret].
      * cbn. split; congruence.
      * destruct (JS.strictEq (Json.state d) "FAILED").
        -- cbn. split; congruence.
        -- match goal with |- context [pollLoop w apiKey fileName fuel ?s ?h'] =>
             specialize (IH s h');
             destruct (pollLoop w apiKey fileName fuel s h') as [o n] end.
           cbn in *. exact IH.
Qed.

Lemma finishUpload_events (w : World) (apiKey : string) (pollFuel : nat)
    (r : Response.t) (h : Trace) :
  forallb isPollEvent (snd (finishUpload w apiKey pollFuel r h)) = true
  /\ fst (finishUpload w apiKey pollFuel r h) <> Pending ChunkLoop.
Proof.
  unfold finishUpload, bind, getFile.
  destruct (Response.json r) as [e|d]; cbn [settle throw ret].
  - cbn. split; congruence.
  - destruct (Json.file d) as [f|]; cbn [throw ret].
    + match goal with |- context [pollLoop w apiKey ?nm pollFuel ?s ?h'] =>
        destruct (pollLoop_events w apiKey nm pollFuel s h') as [E P];
        destruct (pollLoop w apiKey nm pollFuel s h') as [[u|e|l] n] end;
        cbn in *; rewrite ?app_nil_r; split; congruence.
    + cbn. split; congruence.
Qed.

(** ** Both loops have the shape [LoopRun] *)

Lemma Unified_uploadLoop_shape (w : World) (chunkSize : Z) (file : File.t)
    (apiKey resumableUrl contentType : string) (pollFuel : nat) :
  forall (fuel : nat) (offset : Z) (h : Trace),
    LoopRun w chunkSize file apiKey pollFuel
      (UnifiedShape.requestAt chunkSize file resumableUrl contentType)
      (UnifiedShape.verdict chunkSize file)
      fuel offset
      (fst (Unified.uploadLoop w chunkSize file apiKey resumableUrl contentType
              pollFuel fuel offset h))
      (snd (Unified.uploadLoop w chunkSize file apiKey resumableUrl contentType
              pollFuel fuel offset h)).
Proof.
  induction fuel as [|fuel IH]; intros offset h; cbn [Unified.uploadLoop];
    destruct (Z.ltb_spec offset (File.size file)) as [Hlt|Hge];
    try (cbn; constructor; assumption).
  unfold bind, fetch, onProgress, emit.
  fold (nextOffset chunkSize file offset).
  fold (UnifiedShape.requestAt chunkSize file resumableUrl contentType offset).
  set (req := UnifiedShape.requestAt chunkSize file resumableUrl contentType offset).
  destruct (fetchOracle w h req) as [e|r].
  - cbn. constructor. assumption.
  - destruct (Response.ok r) eqn:Hok; cbn [negb].
    + destruct (nextOffset chunkSize file offset =? File.size file) eqn:Hlast.
      * match goal with |- context [finishUpload w apiKey pollFuel r ?h'] =>
          destruct (finishUpload w apiKey pollFuel r h') as [out n] eqn:Hfin end.
        cbn. eapply LoopCompleted; eauto.
        unfold UnifiedShape.verdict. rewrite Hok, Hlast. reflexivity.
      * match goal with |- context [Unified.uploadLoop w _ _ _ _ _ _ fuel ?o' ?h'] =>
          specialize (IH o' h');
          destruct (Unified.uploadLoop w chunkSize file apiKey resumableUrl
                      contentType pollFuel fuel o' h') as [out n] end.
        cbn in *. eapply LoopContinued; eauto.
        unfold UnifiedShape.verdict. rewrite Hok, Hlast. reflexivity.
    + cbn. apply LoopRefused; [assumption|].
      unfold UnifiedShape.verdict. rewrite Hok. reflexivity.
Qed.

Lemma ContentRange_uploadLoop_shape (w : World) (chunkSize : Z) (file : File.t)
    (apiKey resumableUrl contentType : string) (pollFuel : nat) :
  forall (fuel : nat) (offset : Z) (h : Trace),
    LoopRun w chunkSize file apiKey pollFuel
      (RangeShape.requestAt chunkSize file resumableUrl contentType)
      (fun _ => RangeShape.verdict)
      fuel offset
      (fst (ContentRange.uploadLoop w chunkSize file apiKey resumableUrl
              contentType pollFuel fuel offset h))
      (snd (ContentRange.uploadLoop w chunkSize file apiKey resumableUrl
              contentType pollFuel fuel offset h)).
Proof.
  induction fuel as [|fuel IH]; intros offset h; cbn [ContentRange.uploadLoop];
    destruct (Z.ltb_spec offset (File.size file)) as [Hlt|Hge];
    try (cbn; constructor; assumption).
  unfold bind, fetch, onProgress, emit.
  fold (nextOffset chunkSize file offset).
  fold (RangeShape.requestAt chunkSize file resumableUrl contentType offset).
  set (req := RangeShape.requestAt chunkSize file resumableUrl contentType offset).
  destruct (fetchOracle w h req) as [e|r].
  - cbn. constructor. assumption.
  - destruct (negb (Response.status r =? 308) && negb (Response.ok r)) eqn:Hbad.
    + cbn. apply LoopRefused; [assumption|].
      unfold RangeShape.verdict. rewrite Hbad. reflexivity.
    + destruct (Response.ok r && negb (Response.status r =? 308)) eqn:Hdone.
      * match goal with |- context [finishUpload w apiKey pollFuel r ?h'] =>
          destruct (finishUpload w apiKey pollFuel r h') as [out n] eqn:Hfin end.
        cbn. eapply LoopCompleted; eauto.
        unfold RangeShape.verdict. rewrite Hbad, Hdone. reflexivity.
      * match goal with |- context [ContentRange.uploadLoop w _ _ _ _ _ _ fuel ?o' ?h'] =>
          specialize (IH o' h');
          destruct (ContentRange.uploadLoop w chunkSize file apiKey resumableUrl
                      contentType pollFuel fuel o' h') as [out n] end.
        cbn in *. eapply LoopContinued; eauto.
        unfold RangeShape.verdict. rewrite Hbad, Hdone. reflexivity.
Qed.

(** ** Observations distribute over concatenation *)

Lemma chunksSent_app (a b : list Event) :
  chunksSent (a ++ b) = (chunksSent a ++ chunksSent b)%list.
Proof. apply flat_map_app. Qed.

Lemma progressValues_app (a b : list Event) :
  progressValues (a ++ b) = (progressValues a ++ progressValues b)%list.
Proof. apply flat_map_app. Qed.

Lemma generations_app (a b : list Event) :
  generations (a ++ b) = (generations a ++ generations b)%list.
Proof. apply flat_map_app. Qed.

Lemma poll_events_silent (n : list Event) :
  forallb isPollEvent n = true ->
  chunksSent n = [] /\ progressValues n = [] /\ generations n = [].
Proof.
  induction n as [|ev n IH]; cbn [forallb]; [intros _; repeat split|].
  intros H. apply andb_prop in H as [Hev Hn].
  destruct (IH Hn) as (IH1 & IH2 & IH3).
  unfold chunksSent, progressValues, generations in *. cbn [flat_map].
  rewrite IH1, IH2, IH3.
  destruct ev as [req ans| | | |]; cbn in Hev; try discriminate.
  - cbn. destruct (body req); try discriminate. repeat split.
  - repeat split.
Qed.

Lemma poll_event_no_chunk (n : list Event) (req : Request) (ans : Exn + Response.t)
    (c : Blob) :
  forallb isPollEvent n = true ->
  In (EvFetch req ans) n -> body req = BlobBody c -> False.
Proof.
  intros H Hin Hb. rewrite forallb_forall in H. specialize (H _ Hin).
  cbn in H. rewrite Hb in H. discriminate.
Qed.

Lemma finishUpload_run (w : World) (apiKey : string) (pollFuel : nat)
    (r : Response.t) (h : Trace) (out : Outcome string) (n : list Event) :
  finishUpload w apiKey pollFuel r h = (out, n) ->
  forallb isPollEvent n = true /\ out <> Pending ChunkLoop.
Proof.
  intros H. pose proof (finishUpload_events w apiKey pollFuel r h) as P.
  rewrite H in P. exact P.
Qed.

(** ** Arithmetic of the chunk plan *)

Section LoopFacts.

Variables (w : World) (chunkSize : Z) (file : File.t).
Variables (apiKey : string) (pollFuel : nat).
Variable requestAt : Z -> Request.
Variable verdict : Z -> Response.t -> Verdict.

Hypothesis chunkSize_pos : 0 < chunkSize.
Hypothesis requestAt_body :
  forall o, body (requestAt o)
            = BlobBody (File.slice file o (nextOffset chunkSize file o)).

Local Abbreviation Run := (LoopRun w chunkSize file apiKey pollFuel requestAt verdict).
Local Abbreviation next := (nextOffset chunkSize file).
Local Abbreviation size := (File.size file).
Local Abbreviation plan := (planFrom chunkSize file).
Local Abbreviation left := (remaining chunkSize file).

Lemma next_bounds (o : Z) : o < size -> o < next o <= size.
Proof. unfold nextOffset. lia. Qed.

Lemma slice_exact (o : Z) :
  0 <= o -> o < size -> File.slice file o (next o) = mkBlob o (next o).
Proof.
  intros H0 H1. pose proof (next_bounds o H1) as B.
  unfold File.slice, File.clamp.
  destruct (Z.ltb_spec o 0); [lia|].
  destruct (Z.ltb_spec (next o) 0); [lia|].
  f_equal; lia.
Qed.

Lemma chunkOf_request (o : Z) (ans : Exn + Response.t) :
  0 <= o -> o < size ->
  chunkOf (EvFetch (requestAt o) ans) = [mkBlob o (next o)].
Proof.
  intros H0 H1. cbn. rewrite requestAt_body, slice_exact by assumption.
  reflexivity.
Qed.

Lemma left_done (o : Z) : size <= o -> left o = O.
Proof.
  intros H. unfold remaining, ceilDiv.
  assert ((size - o + chunkSize - 1) / chunkSize <= 0); [|lia].
  apply Z.lt_succ_r. apply Z.div_lt_upper_bound; lia.
Qed.

Lemma left_step (o : Z) : o < size -> left o = S (left (next o)).
Proof.
  intros H. unfold remaining, ceilDiv, nextOffset.
  destruct (Z.le_gt_cases (o + chunkSize) size) as [Hle|Hgt].
  - rewrite Z.min_l by lia.
    replace (size - o + chunkSize - 1)
      with ((size - (o + chunkSize) + chunkSize - 1) + 1 * chunkSize) by lia.
    rewrite Z.div_add by lia.
    assert (0 <= (size - (o + chunkSize) + chunkSize - 1) / chunkSize)
      by (apply Z.div_pos; lia).
    lia.
  - rewrite Z.min_r by lia.
    replace (size - size + chunkSize - 1) with (chunkSize - 1) by lia.
    rewrite (Z.div_small (chunkSize - 1)) by lia.
    replace (size - o + chunkSize - 1)
      with ((size - o - 1) + 1 * chunkSize) by lia.
    rewrite Z.div_add by lia.
    rewrite (Z.div_small (size - o - 1)) by lia.
    reflexivity.
Qed.

(** The loop cannot starve when given [ceil ((size - o) / chunkSize)]
    units of fuel. *)
Lemma LoopRun_terminates fuel o out n :
  Run fuel o out n -> (left o <= fuel)%nat -> out <> Pending ChunkLoop.
Proof.
  induction 1 as [fuel o Hge|o Hlt|fuel o e Hlt|fuel o r Hlt Hv
                 |fuel o r h out n Hlt Hv Hfin|fuel o r out n Hlt Hv Hrun IH];
    intros Hfuel; try congruence.
  - rewrite (left_step o Hlt) in Hfuel. lia.
  - apply (finishUpload_run _ _ _ _ _ _ _ Hfin).
  - apply IH. rewrite (left_step o Hlt) in Hfuel. lia.
Qed.

(** The chunks sent are an initial segment of the plan. *)
Lemma LoopRun_chunks_prefix fuel o out n :
  Run fuel o out n -> 0 <= o ->
  exists rest, plan (left o) o = (chunksSent n ++ rest)%list.
Proof.
  induction 1 as [fuel o Hge|o Hlt|fuel o e Hlt|fuel o r Hlt Hv
                 |fuel o r h out n Hlt Hv Hfin|fuel o r out n Hlt Hv Hrun IH];
    intros H0.
  - exists (plan (left o) o). reflexivity.
  - exists (plan (left o) o). reflexivity.
  - rewrite (left_step o Hlt). cbn [planFrom].
    unfold chunksSent. cbn [flat_map]. rewrite chunkOf_request by assumption.
    eexists. reflexivity.
  - rewrite (left_step o Hlt). cbn [planFrom].
    unfold chunksSent. cbn [flat_map]. rewrite chunkOf_request by assumption.
    eexists. reflexivity.
  - rewrite (left_step o Hlt). cbn [planFrom].
    destruct (finishUpload_run _ _ _ _ _ _ _ Hfin) as [E _].
    apply poll_events_silent in E as (E & _ & _).
    unfold chunksSent in *. cbn [flat_map]. rewrite chunkOf_request by assumption.
    cbn [chunkOf app]. rewrite E. eexists. reflexivity.
  - rewrite (left_step o Hlt). cbn [planFrom].
    destruct IH as [rest IH]. { pose proof (next_bounds o Hlt). lia. }
    unfold chunksSent in *. cbn [flat_map]. rewrite chunkOf_request by assumption.
    cbn [chunkOf app]. rewrite IH. eexists. reflexivity.
Qed.

Lemma answerOf_request (o : Z) (ans : Exn + Response.t) :
  0 <= o -> o < size ->
  answerOf (EvFetch (requestAt o) ans) = Some (mkBlob o (next o), ans).
Proof.
  intros H0 H1. cbn. rewrite requestAt_body, slice_exact by assumption.
  reflexivity.
Qed.

Lemma LoopRun_chunks_exact fuel o out n :
  Run fuel o out n -> 0 <= o -> (left o <= fuel)%nat ->
  Forall (expected chunkSize file verdict) n ->
  chunksSent n = plan (left o) o.
Proof.
  induction 1 as [fuel o Hge|o Hlt|fuel o e Hlt|fuel o r Hlt Hv
                 |fuel o r h out n Hlt Hv Hfin|fuel o r out n Hlt Hv Hrun IH];
    intros H0 Hfuel Hexp.
  - rewrite (left_done o Hge). reflexivity.
  - rewrite (left_step o Hlt) in Hfuel. lia.
  - apply Forall_inv in Hexp. unfold expected in Hexp.
    rewrite answerOf_request in Hexp by assumption. contradiction.
  - apply Forall_inv in Hexp. unfold expected in Hexp.
    rewrite answerOf_request in Hexp by assumption. cbn in Hexp. tauto.
  - pose proof (Forall_inv Hexp) as Hhd. unfold expected in Hhd.
    rewrite answerOf_request in Hhd by assumption. cbn in Hhd.
    destruct Hhd as [_ Hend]. specialize (Hend Hv).
    assert (Hend' : next o = size) by (destruct Hend; assumption).
    destruct (finishUpload_run _ _ _ _ _ _ _ Hfin) as [E _].
    apply poll_events_silent in E as (E & _ & _).
    rewrite (left_step o Hlt), (left_done (next o)) by lia.
    unfold chunksSent in *. cbn [flat_map planFrom].
    rewrite chunkOf_request by assumption. cbn [chunkOf app]. rewrite E.
    reflexivity.
  - rewrite (left_step o Hlt) in *. cbn [planFrom].
    unfold chunksSent in *. cbn [flat_map].
    rewrite chunkOf_request by assumption. cbn [chunkOf app].
    rewrite IH; [reflexivity| | |].
    + pose proof (next_bounds o Hlt). lia.
    + lia.
    + apply Forall_inv_tail in Hexp. apply Forall_inv_tail in Hexp. exact Hexp.
Qed.

Lemma plan_length (k : nat) (o : Z) : List.length (plan k o) = k.
Proof.
  revert o. induction k as [|k IH]; intros o; cbn [planFrom List.length];
    [reflexivity|]. rewrite IH. reflexivity.
Qed.

Lemma LoopRun_chunk_count fuel o out n :
  Run fuel o out n -> 0 <= o -> (List.length (chunksSent n) <= left o)%nat.
Proof.
  intros Hrun H0.
  destruct (LoopRun_chunks_prefix _ _ _ _ Hrun H0) as [rest E].
  apply (f_equal (@List.length Blob)) in E.
  rewrite length_app, plan_length in E. lia.
Qed.

Lemma plan_contiguous (k : nat) :
  forall o, left o = k -> o <= size -> contiguous o (plan k o) size.
Proof.
  induction k as [|k IH]; intros o Hk Ho; cbn [planFrom contiguous].
  - destruct (Z.eq_dec o size) as [E|N]; [exact E|].
    rewrite left_step in Hk by lia. discriminate.
  - assert (Hlt : o < size).
    { destruct (Z.lt_ge_cases o size) as [H|H]; [exact H|].
      rewrite left_done in Hk by exact H. discriminate. }
    pose proof (next_bounds o Hlt) as B.
    rewrite left_step in Hk by exact Hlt.
    cbn [blobStart blobEnd]. repeat split; try lia.
    apply IH; lia.
Qed.

Lemma plan_fixedSize (k : nat) :
  forall o, left o = k -> fixedSize chunkSize (plan k o).
Proof.
  induction k as [|k IH]; intros o Hk; cbn [planFrom]; [exact I|].
  assert (Hlt : o < size).
  { destruct (Z.lt_ge_cases o size) as [H|H]; [exact H|].
    rewrite left_done in Hk by exact H. discriminate. }
  rewrite left_step in Hk by exact Hlt.
  assert (Hk' : left (next o) = k) by congruence.
  specialize (IH (next o) Hk').
  destruct k as [|k]; cbn [planFrom fixedSize] in *.
  - unfold blobSize, nextOffset. cbn. lia.
  - split; [|exact IH].
    assert (next o < size).
    { destruct (Z.lt_ge_cases (next o) size) as [H|H]; [exact H|].
      rewrite left_done in Hk' by exact H. discriminate. }
    unfold blobSize, nextOffset in *. cbn. lia.
Qed.

(** Progress values only grow and stay below 100. *)
Lemma LoopRun_progress fuel o out n :
  Run fuel o out n -> 0 <= o ->
  StronglySorted Z.le (progressValues n)
  /\ Forall (fun p => progressOf o size <= p <= 99) (progressValues n).
Proof.
  induction 1 as [fuel o Hge|o Hlt|fuel o e Hlt|fuel o r Hlt Hv
                 |fuel o r h out n Hlt Hv Hfin|fuel o r out n Hlt Hv Hrun IH];
    intros H0; try (cbn; split; constructor; fail).
  - destruct (finishUpload_run _ _ _ _ _ _ _ Hfin) as [E _].
    apply poll_events_silent in E as (_ & E & _).
    pose proof (next_bounds o Hlt) as B.
    unfold progressValues in *. cbn [flat_map progressOfEvent app].
    rewrite E. split.
    + repeat constructor.
    + constructor; [|constructor]. split.
      * apply progressOf_mono; lia.
      * apply progressOf_range; lia.
  - pose proof (next_bounds o Hlt) as B.
    destruct IH as [IHs IHb]; [lia|].
    unfold progressValues in *. cbn [flat_map progressOfEvent app].
    assert (M : progressOf o size <= progressOf (next o) size)
      by (apply progressOf_mono; lia).
    split.
    + constructor; [exact IHs|].
      eapply Forall_impl; [|exact IHb]. cbn. intros p Hp. lia.
    + constructor.
      * split; [exact M | apply progressOf_range; lia].
      * eapply Forall_impl; [|exact IHb]. cbn. intros p Hp. lia.
Qed.

Lemma LoopRun_no_generation fuel o out n :
  Run fuel o out n -> generations n = [].
Proof.
  induction 1 as [fuel o Hge|o Hlt|fuel o e Hlt|fuel o r Hlt Hv
                 |fuel o r h out n Hlt Hv Hfin|fuel o r out n Hlt Hv Hrun IH];
    try reflexivity.
  - destruct (finishUpload_run _ _ _ _ _ _ _ Hfin) as [E _].
    apply poll_events_silent in E as (_ & _ & E). exact E.
  - exact IH.
Qed.

(** A refused chunk ends the run: it is the last event, and the error
    reports its offset and the response. *)
Lemma LoopRun_refused_last fuel o out n :
  Run fuel o out n -> 0 <= o ->
  forall req r c,
    In (EvFetch req (inr r)) n -> body req = BlobBody c ->
    verdict (blobStart c) r = Refuse ->
    (exists pre, n = (pre ++ [EvFetch req (inr r)])%list)
    /\ out = Thrown (uploadFailed (blobStart c) r).
Proof.
  induction 1 as [fuel o Hge|o Hlt|fuel o e Hlt|fuel o r Hlt Hv
                 |fuel o r h out n Hlt Hv Hfin|fuel o r out n Hlt Hv Hrun IH];
    intros H0 req r' c Hin Hb Href; cbn [In] in Hin.
  - contradiction.
  - contradiction.
  - destruct Hin as [E|[]]. discriminate.
  - destruct Hin as [E|[]]. injection E as <- <-.
    rewrite requestAt_body, slice_exact in Hb by assumption.
    injection Hb as <-. cbn [blobStart]. split; [exists []|]; reflexivity.
  - destruct Hin as [E|[E|Hin]]; [|discriminate|].
    + injection E as <- <-.
      rewrite requestAt_body, slice_exact in Hb by assumption.
      injection Hb as <-. cbn [blobStart] in Href. congruence.
    + destruct (finishUpload_run _ _ _ _ _ _ _ Hfin) as [P _].
      exfalso. exact (poll_event_no_chunk _ _ _ _ P Hin Hb).
  - destruct Hin as [E|[E|Hin]]; [|discriminate|].
    + injection E as <- <-.
      rewrite requestAt_body, slice_exact in Hb by assumption.
      injection Hb as <-. cbn [blobStart] in Href. congruence.
    + pose proof (next_bounds o Hlt) as B.
      destruct (IH ltac:(lia) req r' c Hin Hb Href) as [[pre E] Ho].
      split; [|exact Ho]. rewrite E.
      exists (EvFetch (requestAt o) (inr r)
                :: EvProgress (progressOf (next o) size) :: pre).
      reflexivity.
Qed.

(** Every chunk request of a run is the one built at some offset. *)
Lemma LoopRun_requests fuel o out n :
  Run fuel o out n ->
  forall req ans c,
    In (EvFetch req ans) n -> body req = BlobBody c ->
    exists o', req = requestAt o'.
Proof.
  induction 1 as [fuel o Hge|o Hlt|fuel o e Hlt|fuel o r Hlt Hv
                 |fuel o r h out n Hlt Hv Hfin|fuel o r out n Hlt Hv Hrun IH];
    intros req ans c Hin Hb; cbn [In] in Hin.
  - contradiction.
  - contradiction.
  - destruct Hin as [E|[]]. injection E as <- _. eexists; reflexivity.
  - destruct Hin as [E|[]]. injection E as <- _. eexists; reflexivity.
  - destruct Hin as [E|[E|Hin]]; [|discriminate|].
    + injection E as <- _. eexists; reflexivity.
    + destruct (finishUpload_run _ _ _ _ _ _ _ Hfin) as [P _].
      exfalso. exact (poll_event_no_chunk _ _ _ _ P Hin Hb).
  - destruct Hin as [E|[E|Hin]]; [|discriminate|].
    + injection E as <- _. eexists; reflexivity.
    + exact (IH req ans c Hin Hb).
Qed.

End LoopFacts.

Lemma Unified_transcribeMedia_eq (w : World) (pollFuel fuel : nat) (file : File.t)
    (mimeType : string) (isComplexArg : option bool) :
  Unified.transcribeMedia w pollFuel fuel file mimeType isComplexArg
  = transcribeWith w "API Key is not configured (process.env.API_KEY is missing)"
      (Unified.uploadToGemini w UPLOAD_CHUNK_SIZE pollFuel fuel file)
      file mimeType isComplexArg.
Proof.
  unfold Unified.transcribeMedia, transcribeWith, JS.truthy_opt.
  destruct (API_KEY w) as [k|]; [|reflexivity].
  destruct (JS.truthy k); reflexivity.
Qed.

Lemma ContentRange_transcribeMedia_eq (w : World) (pollFuel fuel : nat)
    (file : File.t) (mimeType : string) (isComplexArg : option bool) :
  ContentRange.transcribeMedia w pollFuel fuel file mimeType isComplexArg
  = transcribeWith w "API Key not found in environment variables."
      (ContentRange.uploadToGemini w UPLOAD_CHUNK_SIZE pollFuel fuel file)
      file mimeType isComplexArg.
Proof.
  unfold ContentRange.transcribeMedia, transcribeWith, JS.truthy_opt.
  destruct (API_KEY w) as [k|]; [|reflexivity].
  destruct (JS.truthy k); reflexivity.
Qed.

Lemma transcribeWith_no_key (w : World) (missingKey : string)
    (upload : string -> Async string) (file : File.t) (mimeType : string)
    (isComplexArg : option bool) (h : Trace) :
  JS.truthy_opt (API_KEY w) = false ->
  transcribeWith w missingKey upload file mimeType isComplexArg h
  = (Thrown (Error missingKey), []).
Proof. intros H. unfold transcribeWith. rewrite H. reflexivity. Qed.

Lemma generate_run (w : World) (req : GenRequest) (h : Trace) :
  generate w req h
  = (generationOutcome (generateOracle w h req),
     tl (generationEvents req (generateOracle w h req))).
Proof.
  unfold generate, tryCatch, bind, generateContent, console_error, emit, throw, ret.
  destruct (generateOracle w h req) as [e|resp]; reflexivity.
Qed.

Lemma transcribeWith_run (w : World) (missingKey : string)
    (upload : string -> Async string) (file : File.t) (mimeType : string)
    (isComplexArg : option bool) (h : Trace) (apiKey : string) :
  API_KEY w = Some apiKey -> JS.truthy apiKey = true ->
  transcribeWith w missingKey upload file mimeType isComplexArg h
  = match upload apiKey h with
    | (Returned fileUri, n) =>
        let req := generationRequest apiKey file mimeType isComplexArg fileUri in
        let answer := generateOracle w ((h ++ n) ++ [EvProgress 100])%list req in
        (generationOutcome answer, (n ++ generationEvents req answer)%list)
    | (Thrown e, n) => (Thrown e, n)
    | (Pending l, n) => (Pending l, n)
    end.
Proof.
  intros Hk Ht. unfold transcribeWith, JS.truthy_opt. rewrite Hk, Ht. cbn [negb].
  unfold bind at 1. destruct (upload apiKey h) as [[uri|e|l] n]; try reflexivity.
  fold (generationRequest apiKey file mimeType isComplexArg uri).
  unfold bind, onProgress, emit. rewrite generate_run.
  destruct (generateOracle w _ _) as [e|resp]; reflexivity.
Qed.

(** ** The session start *)

Lemma Unified_upload_not_opened (w : World) (chunkSize : Z) (pollFuel fuel : nat)
    (file : File.t) (apiKey : string) (h : Trace) :
  let answer := fetchOracle w h (startRequest file apiKey) in
  sessionOpened answer = false ->
  Unified.uploadToGemini w chunkSize pollFuel fuel file apiKey h
  = (Thrown (startFailure answer), [EvFetch (startRequest file apiKey) answer]).
Proof.
  intros answer. subst answer.
  unfold Unified.uploadToGemini, bind, fetch, sessionOpened, startFailure.
  destruct (fetchOracle w h (startRequest file apiKey)) as [e|r]; [reflexivity|].
  destruct (Response.ok r); cbn [negb andb]; [|reflexivity].
  unfold JS.truthy_opt.
  destruct (Response.x_goog_upload_url r) as [u|]; [|reflexivity].
  intros ->. reflexivity.
Qed.

Lemma ContentRange_upload_not_opened (w : World) (chunkSize : Z)
    (pollFuel fuel : nat) (file : File.t) (apiKey : string) (h : Trace) :
  let answer := fetchOracle w h (startRequest file apiKey) in
  sessionOpened answer = false ->
  ContentRange.uploadToGemini w chunkSize pollFuel fuel file apiKey h
  = (Thrown (startFailure answer), [EvFetch (startRequest file apiKey) answer]).
Proof.
  intros answer. subst answer.
  unfold ContentRange.uploadToGemini, bind, fetch, sessionOpened, startFailure.
  destruct (fetchOracle w h (startRequest file apiKey)) as [e|r]; [reflexivity|].
  destruct (Response.ok r); cbn [negb andb]; [|reflexivity].
  unfold JS.truthy_opt.
  destruct (Response.x_goog_upload_url r) as [u|]; [|reflexivity].
  intros ->. reflexivity.
Qed.

Lemma Unified_upload_opened (w : World) (chunkSize : Z) (pollFuel fuel : nat)
    (file : File.t) (apiKey : string) (h : Trace) :
  let answer := fetchOracle w h (startRequest file apiKey) in
  sessionOpened answer = true ->
  exists out n,
    LoopRun w chunkSize file apiKey pollFuel
      (UnifiedShape.requestAt chunkSize file
         (Unified.targetUrl apiKey (announcedUrl answer))
         (JS.or_else (File.type file) "application/octet-stream"))
      (UnifiedShape.verdict chunkSize file) fuel 0 out n
    /\ Unified.uploadToGemini w chunkSize pollFuel fuel file apiKey h
       = (out, EvFetch (startRequest file apiKey) answer :: n).
Proof.
  intros answer. subst answer.
  unfold Unified.uploadToGemini, bind, fetch, sessionOpened, announcedUrl.
  destruct (fetchOracle w h (startRequest file apiKey)) as [e|r]; [discriminate|].
  destruct (Response.ok r); cbn [negb andb]; [|discriminate].
  unfold JS.truthy_opt.
  destruct (Response.x_goog_upload_url r) as [u|]; [|discriminate].
  intros ->. cbn [negb].
  match goal with |- context [Unified.uploadLoop w ?c ?f ?k ?u ?ct ?pf ?fu ?o ?h'] =>
    pose proof (Unified_uploadLoop_shape w c f k u ct pf fu o h') as S;
    destruct (Unified.uploadLoop w c f k u ct pf fu o h') as [out n] end.
  exists out, n. split; [exact S | reflexivity].
Qed.

Lemma ContentRange_upload_opened (w : World) (chunkSize : Z) (pollFuel fuel : nat)
    (file : File.t) (apiKey : string) (h : Trace) :
  let answer := fetchOracle w h (startRequest file apiKey) in
  sessionOpened answer = true ->
  exists out n,
    LoopRun w chunkSize file apiKey pollFuel
      (RangeShape.requestAt chunkSize file
         (ContentRange.targetUrl apiKey (announcedUrl answer))
         (JS.or_else (File.type file) "application/octet-stream"))
      (fun _ => RangeShape.verdict) fuel 0 out n
    /\ ContentRange.uploadToGemini w chunkSize pollFuel fuel file apiKey h
       = (out, EvFetch (startRequest file apiKey) answer :: n).
Proof.
  intros answer. subst answer.
  unfold ContentRange.uploadToGemini, bind, fetch, sessionOpened, announcedUrl.
  destruct (fetchOracle w h (startRequest file apiKey)) as [e|r]; [discriminate|].
  destruct (Response.ok r); cbn [negb andb]; [|discriminate].
  unfold JS.truthy_opt.
  destruct (Response.x_goog_upload_url r) as [u|]; [|discriminate].
  intros ->. cbn [negb].
  match goal with |- context [ContentRange.uploadLoop w ?c ?f ?k ?u ?ct ?pf ?fu ?o ?h'] =>
    pose proof (ContentRange_uploadLoop_shape w c f k u ct pf fu o h') as S;
    destruct (ContentRange.uploadLoop w c f k u ct pf fu o h') as [out n] end.
  exists out, n. split; [exact S | reflexivity].
Qed.

Lemma Unified_upload_shape (w : World) (chunkSize : Z) (pollFuel fuel : nat)
    (file : File.t) (apiKey : string) (h : Trace) :
  UploadShape w chunkSize file apiKey pollFuel
    (UnifiedShape.requestAt chunkSize file
       (Unified.targetUrl apiKey
          (announcedUrl (fetchOracle w h (startRequest file apiKey))))
       (JS.or_else (File.type file) "application/octet-stream"))
    (UnifiedShape.verdict chunkSize file) fuel h
    (Unified.uploadToGemini w chunkSize pollFuel fuel file apiKey h).
Proof.
  unfold UploadShape.
  destruct (sessionOpened (fetchOracle w h (startRequest file apiKey))) eqn:E.
  - apply Unified_upload_opened. exact E.
  - apply Unified_upload_not_opened. exact E.
Qed.

Lemma ContentRange_upload_shape (w : World) (chunkSize : Z) (pollFuel fuel : nat)
    (file : File.t) (apiKey : string) (h : Trace) :
  UploadShape w chunkSize file apiKey pollFuel
    (RangeShape.requestAt chunkSize file
       (ContentRange.targetUrl apiKey
          (announcedUrl (fetchOracle w h (startRequest file apiKey))))
       (JS.or_else (File.type file) "application/octet-stream"))
    (fun _ => RangeShape.verdict) fuel h
    (ContentRange.uploadToGemini w chunkSize pollFuel fuel file apiKey h).
Proof.
  unfold UploadShape.
  destruct (sessionOpened (fetchOracle w h (startRequest file apiKey))) eqn:E.
  - apply ContentRange_upload_opened. exact E.
  - apply ContentRange_upload_not_opened. exact E.
Qed.

Section UploadFacts.

Variables (w : World) (chunkSize : Z) (file : File.t).
Variables (apiKey : string) (pollFuel : nat).
Variable requestAt : Z -> Request.
Variable verdict : Z -> Response.t -> Verdict.

Hypothesis chunkSize_pos : 0 < chunkSize.
Hypothesis requestAt_body :
  forall o, body (requestAt o)
            = BlobBody (File.slice file o (nextOffset chunkSize file o)).

Variables (fuel : nat) (h : Trace) (run : Outcome string * list Event).
Hypothesis shape :
  UploadShape w chunkSize file apiKey pollFuel requestAt verdict fuel h run.

Local Abbreviation size := (File.size file).
Local Abbreviation start := (startRequest file apiKey).
Local Abbreviation answer := (fetchOracle w h (startRequest file apiKey)).
Local Abbreviation total := (remaining chunkSize file 0).

(** Case analysis on a run, as a tactic: [n] is the trace of the loop. *)
Ltac cases_of_run out n L :=
  unfold UploadShape in shape;
  destruct (sessionOpened answer);
  [ destruct shape as (out & n & L & ->) | subst run ];
  cbn [fst snd] in *.

Lemma upload_terminates :
  (total <= fuel)%nat -> fst run <> Pending ChunkLoop.
Proof.
  intros Hfuel. cases_of_run out n L; [|discriminate].
  eapply LoopRun_terminates; eauto.
Qed.

Lemma upload_chunk_count : (List.length (chunksSent (snd run)) <= total)%nat.
Proof.
  cases_of_run out n L; [|cbn; lia].
  change (chunksSent (EvFetch start answer :: n)) with (chunksSent n).
  eapply LoopRun_chunk_count; eauto. lia.
Qed.

Lemma upload_chunks_exact :
  sessionOpened answer = true -> (total <= fuel)%nat ->
  Forall (expected chunkSize file verdict) (snd run) ->
  chunksSent (snd run) = planFrom chunkSize file total 0.
Proof.
  intros Hopen Hfuel Hexp. unfold UploadShape in shape. rewrite Hopen in shape.
  destruct shape as (out & n & L & ->). cbn [snd] in *.
  change (chunksSent (EvFetch start answer :: n)) with (chunksSent n).
  eapply LoopRun_chunks_exact; eauto; [lia|].
  apply Forall_inv_tail in Hexp. exact Hexp.
Qed.

Lemma upload_progress :
  StronglySorted Z.le (progressValues (snd run))
  /\ Forall (fun p => 0 <= p <= 99) (progressValues (snd run)).
Proof.
  cases_of_run out n L; [|cbn; split; constructor].
  change (progressValues (EvFetch start answer :: n)) with (progressValues n).
  destruct (LoopRun_progress _ _ _ _ _ _ _ chunkSize_pos _ _ _ _ L) as [S B];
    [lia|].
  split; [exact S|]. eapply Forall_impl; [|exact B].
  cbn. intros p Hp.
  destruct (Z.lt_ge_cases 0 size) as [Hs|Hs].
  - pose proof (progressOf_range 0 size ltac:(lia) Hs). lia.
  - inversion L; subst; cbn in B; inversion B; lia.
Qed.

Lemma upload_no_generation : generations (snd run) = [].
Proof.
  cases_of_run out n L; [|reflexivity].
  change (generations (EvFetch start answer :: n)) with (generations n).
  eapply LoopRun_no_generation; eauto.
Qed.

Lemma upload_refused_last (req : Request) (r : Response.t) (c : Blob) :
  In (EvFetch req (inr r)) (snd run) -> body req = BlobBody c ->
  verdict (blobStart c) r = Refuse ->
  (exists pre, snd run = (pre ++ [EvFetch req (inr r)])%list)
  /\ fst run = Thrown (uploadFailed (blobStart c) r).
Proof.
  intros Hin Hb Hv. cases_of_run out n L; cbn [In] in Hin.
  - destruct Hin as [E|Hin].
    + injection E as <- _. cbn in Hb. discriminate Hb.
    + destruct (LoopRun_refused_last _ _ _ _ _ _ _ chunkSize_pos requestAt_body
                  _ _ _ _ L ltac:(lia) req r c Hin Hb Hv) as [[pre E] Ho].
      split; [|exact Ho]. exists (EvFetch start answer :: pre).
      rewrite E. reflexivity.
  - destruct Hin as [E|[]]. injection E as <- _. cbn in Hb. discriminate Hb.
Qed.

Lemma upload_requests (req : Request) (ans : Exn + Response.t) (c : Blob) :
  In (EvFetch req ans) (snd run) -> body req = BlobBody c ->
  exists o, req = requestAt o.
Proof.
  intros Hin Hb. cases_of_run out n L; cbn [In] in Hin.
  - destruct Hin as [E|Hin].
    + injection E as <- _. cbn in Hb. discriminate Hb.
    + eapply LoopRun_requests; eauto.
  - destruct Hin as [E|[]]. injection E as <- _. cbn in Hb. discriminate Hb.
Qed.

Lemma upload_starts_with_session :
  exists n, snd run = EvFetch start answer :: n.
Proof.
  cases_of_run out n L; eexists; reflexivity.
Qed.

End UploadFacts.

(** ** Bridging the revisions and the common shape *)

Lemma upload_shape (rev : Revision) (w : World) (chunkSize : Z)
    (pollFuel fuel : nat) (file : File.t) (apiKey : string) (h : Trace) :
  UploadShape w chunkSize file apiKey pollFuel
    (requestAt rev chunkSize file
       (targetUrl rev apiKey
          (announcedUrl (fetchOracle w h (startRequest file apiKey))))
       (JS.or_else (File.type file) "application/octet-stream"))
    (verdict rev chunkSize file) fuel h
    (uploadToGemini rev w chunkSize pollFuel fuel file apiKey h).
Proof.
  destruct rev; [apply Unified_upload_shape | apply ContentRange_upload_shape].
Qed.

Lemma requestAt_body (rev : Revision) (chunkSize : Z) (file : File.t)
    (resumableUrl contentType : string) (o : Z) :
  body (requestAt rev chunkSize file resumableUrl contentType o)
  = BlobBody (File.slice file o (nextOffset chunkSize file o)).
Proof. destruct rev; reflexivity. Qed.

Lemma requestAt_url (rev : Revision) (chunkSize : Z) (file : File.t)
    (resumableUrl contentType : string) (o : Z) :
  url (requestAt rev chunkSize file resumableUrl contentType o) = resumableUrl.
Proof. destruct rev; reflexivity. Qed.

Lemma status_308_not_ok (r : Response.t) :
  (Response.status r =? 308) = true -> Response.ok r = false.
Proof.
  intros H. apply Z.eqb_eq in H. unfold Response.ok. rewrite H. reflexivity.
Qed.

Lemma accepted_expected (rev : Revision) (chunkSize : Z) (file : File.t)
    (ev : Event) :
  accepted rev (File.size file) ev = true ->
  expected chunkSize file (verdict rev chunkSize file) ev.
Proof.
  unfold expected. destruct rev; cbn [accepted verdict];
    unfold UnifiedProtocol.accepted, RangeProtocol.accepted;
    destruct (answerOf ev) as [[c [e|r]]|]; try discriminate; try exact (fun _ => I).
  - intros Hok. unfold UnifiedShape.verdict. rewrite Hok. cbn [negb].
    destruct (Z.eqb_spec (nextOffset chunkSize file (blobStart c)) (File.size file)).
    + split; [discriminate | intros _; right; assumption].
    + split; discriminate.
  - intros H. unfold RangeShape.verdict.
    apply orb_prop in H as [H|H].
    + rewrite H, (status_308_not_ok r H). cbn. split; discriminate.
    + apply andb_prop in H as [Hok Hend]. apply Z.eqb_eq in Hend.
      rewrite Hok. rewrite andb_false_r. cbn [negb andb].
      destruct (negb (Response.status r =? 308)).
      * split; [discriminate | intros _; left; exact Hend].
      * split; discriminate.
Qed.

Lemma unexpected_refused (rev : Revision) (chunkSize : Z) (file : File.t)
    (o : Z) (r : Response.t) :
  unexpected rev r = true -> verdict rev chunkSize file o r = Refuse.
Proof.
  destruct rev; cbn [unexpected verdict];
    unfold UnifiedProtocol.unexpected, RangeProtocol.unexpected,
           UnifiedShape.verdict, RangeShape.verdict;
    intros ->; reflexivity.
Qed.

Lemma transcribeMedia_eq (rev : Revision) (w : World) (pollFuel fuel : nat)
    (file : File.t) (mimeType : string) (isComplexArg : option bool) :
  transcribeMedia rev w pollFuel fuel file mimeType isComplexArg
  = transcribeWith w (missingKeyMessage rev)
      (uploadToGemini rev w UPLOAD_CHUNK_SIZE pollFuel fuel file)
      file mimeType isComplexArg.
Proof.
  destruct rev;
    [apply Unified_transcribeMedia_eq | apply ContentRange_transcribeMedia_eq].
Qed.

Lemma contiguous_sum (bs : list Blob) :
  forall from to, contiguous from bs to -> sumSizes bs = to - from.
Proof.
  induction bs as [|b bs IH]; intros from to; cbn [contiguous sumSizes fold_right].
  - lia.
  - intros (Hs & _ & Hc). fold (sumSizes bs). rewrite (IH _ _ Hc).
    unfold blobSize. lia.
Qed.

Lemma plan_partition (chunkSize : Z) (file : File.t) :
  0 < chunkSize -> 0 <= File.size file ->
  chunkPartition chunkSize (File.size file)
    (planFrom chunkSize file (remaining chunkSize file 0) 0).
Proof.
  intros Hc Hs. unfold chunkPartition.
  pose proof (plan_contiguous chunkSize file Hc _ 0 eq_refl Hs) as Hcont.
  repeat split.
  - rewrite plan_length. unfold remaining.
    rewrite Z.sub_0_r. apply Z2Nat.id.
    unfold ceilDiv. apply Z.div_pos; lia.
  - apply plan_fixedSize; [exact Hc | reflexivity].
  - exact Hcont.
  - rewrite (contiguous_sum _ _ _ Hcont). lia.
Qed.

Lemma chunk_size_positive : 0 < UPLOAD_CHUNK_SIZE.
Proof. reflexivity. Qed.

Lemma truthy_key (w : World) :
  JS.truthy_opt (API_KEY w) = true ->
  exists apiKey, API_KEY w = Some apiKey /\ JS.truthy apiKey = true.
Proof.
  unfold JS.truthy_opt. destruct (API_KEY w) as [k|]; [|discriminate].
  intros H. exists k. split; [reflexivity | exact H].
Qed.

Lemma generation_in_trace (n : list Event) (req : GenRequest)
    (answer : Exn + GenResponse) :
  In (EvGenerate req answer) n -> generations n <> [].
Proof.
  induction n as [|ev n IH]; cbn [In]; [contradiction|].
  intros [E|H]; unfold generations in *; cbn [flat_map].
  - subst ev. discriminate.
  - specialize (IH H). destruct (generationOf ev); [exact IH | discriminate].
Qed.

Lemma generationEvents_progress (req : GenRequest) (answer : Exn + GenResponse) :
  progressValues (generationEvents req answer) = [100]
  /\ generations (generationEvents req answer) = [req].
Proof. destruct answer; split; reflexivity. Qed.

Lemma generationEvents_in (req req' : GenRequest)
    (answer answer' : Exn + GenResponse) :
  In (EvGenerate req' answer') (generationEvents req answer) ->
  req' = req /\ answer' = answer.
Proof.
  destruct answer; cbn; intros H;
    repeat (destruct H as [H|H]; try discriminate; try contradiction);
    injection H as <- <-; split; reflexivity.
Qed.


(** ** What a readiness check decides *)

Lemma strictEq_true (s lit : string) : JS.strictEq (Some s) lit = true <-> s = lit.
Proof. cbn. apply String.eqb_eq. Qed.

Lemma strictEq_false (s lit : string) : JS.strictEq (Some s) lit = false <-> s <> lit.
Proof. cbn. apply String.eqb_neq. Qed.

Lemma pollLoop_reported (w : World) (apiKey fileName : string) :
  forall (fuel : nat) (state : option string) (h : Trace)
         (req : Request) (r : Response.t) (d : Json.t) (s : string),
    In (EvFetch req (inr r)) (snd (pollLoop w apiKey fileName fuel state h)) ->
    Response.json r = inr d -> Json.state d = Some s ->
    decidedBy s unit (fst (pollLoop w apiKey fileName fuel state h)).
Proof.
  induction fuel as [|fuel IH]; intros state h req r d s; cbn [pollLoop].
  - destruct (JS.strictEq state "PROCESSING"); cbn; contradiction.
  - destruct (JS.strictEq state "PROCESSING"); [|cbn; contradiction].
    unfold bind, sleep, emit, fetch.
    match goal with |- context [fetchOracle w ?h' ?q] =>
      destruct (fetchOracle w h' q) as [e|r0] end.
    + cbn. intros [H|[H|[]]]; discriminate.
    + destruct (Response.json r0) as [e|d0] eqn:Hjson; cbn [settle throw ret].
      * cbn. intros [H|[H|[]]]; [discriminate|].
        injection H as _ <-. congruence.
      * destruct (JS.strictEq (Json.state d0) "FAILED") eqn:Hfailed.
        -- cbn. intros [H|[H|[]]]; [discriminate|].
           injection H as _ <-. intros Hd Hs.
           assert (d0 = d) by congruence. subst d0. rewrite Hs in Hfailed.
           apply strictEq_true in Hfailed. subst s.
           split; [reflexivity | congruence].
        -- match goal with |- context [pollLoop w apiKey fileName fuel ?st ?h'] =>
             specialize (IH st h' req r d s);
             destruct (pollLoop w apiKey fileName fuel st h') as [o n] eqn:Hrec end.
           cbn [fst snd app] in *. intros [H|[H|H]]; [discriminate| |].
           ++ injection H as _ <-. intros Hd Hs.
              assert (d0 = d) by congruence. subst d0. rewrite Hs in *.
              apply strictEq_false in Hfailed. split; [congruence|].
              intros Hproc _. apply strictEq_false in Hproc.
              destruct fuel; cbn [pollLoop] in Hrec; rewrite Hproc in Hrec;
                injection Hrec as <- _; eexists; reflexivity.
           ++ rewrite ?app_nil_r in H. exact (IH H).
Qed.

Lemma finishUpload_reported (w : World) (apiKey : string) (pollFuel : nat)
    (r0 : Response.t) (h : Trace) (req : Request) (r : Response.t)
    (d : Json.t) (s : string) :
  In (EvFetch req (inr r)) (snd (finishUpload w apiKey pollFuel r0 h)) ->
  Response.json r = inr d -> Json.state d = Some s ->
  decidedBy s string (fst (finishUpload w apiKey pollFuel r0 h)).
Proof.
  unfold finishUpload, bind, getFile.
  destruct (Response.json r0) as [e|d0]; cbn [settle throw ret]; [cbn; contradiction|].
  destruct (Json.file d0) as [f|]; cbn [throw ret]; [|cbn; contradiction].
  match goal with |- context [pollLoop w apiKey ?nm pollFuel ?st ?h'] =>
    pose proof (pollLoop_reported w apiKey nm pollFuel st h' req r d s) as P;
    destruct (pollLoop w apiKey nm pollFuel st h') as [[u|e|l] n] end;
    cbn [fst snd app] in *; rewrite ?app_nil_r; intros Hin Hd Hs;
    destruct (P Hin Hd Hs) as [PF PA]; split.
  - intros H. specialize (PF H). discriminate.
  - intros _ _. eexists; reflexivity.
  - intros H. specialize (PF H). injection PF as ->. reflexivity.
  - intros H1 H2. destruct (PA H1 H2) as [a Ha]. discriminate.
  - intros H. specialize (PF H). discriminate.
  - intros H1 H2. destruct (PA H1 H2) as [a Ha]. discriminate.
Qed.

Section ReportedFacts.

Variables (w : World) (chunkSize : Z) (file : File.t).
Variables (apiKey : string) (pollFuel : nat).
Variable requestAt : Z -> Request.
Variable verdict : Z -> Response.t -> Verdict.

Hypothesis requestAt_body :
  forall o, body (requestAt o)
            = BlobBody (File.slice file o (nextOffset chunkSize file o)).

Lemma LoopRun_reported fuel o out n :
  LoopRun w chunkSize file apiKey pollFuel requestAt verdict fuel o out n ->
  forall req r d s,
    In (EvFetch req (inr r)) n -> body req = NoBody ->
    Response.json r = inr d -> Json.state d = Some s ->
    decidedBy s string out.
Proof.
  induction 1 as [fuel o Hge|o Hlt|fuel o e Hlt|fuel o r Hlt Hv
                 |fuel o r h out n Hlt Hv Hfin|fuel o r out n Hlt Hv Hrun IH];
    intros req r' d s Hin Hb Hd Hs; cbn [In] in Hin.
  - contradiction.
  - contradiction.
  - destruct Hin as [E|[]]. discriminate.
  - destruct Hin as [E|[]]. injection E as <- _.
    rewrite requestAt_body in Hb. discriminate.
  - destruct Hin as [E|[E|Hin]]; [|discriminate|].
    + injection E as <- _. rewrite requestAt_body in Hb. discriminate.
    + pose proof (finishUpload_reported w apiKey pollFuel r h req r' d s) as P.
      rewrite Hfin in P. exact (P Hin Hd Hs).
  - destruct Hin as [E|[E|Hin]]; [|discriminate|].
    + injection E as <- _. rewrite requestAt_body in Hb. discriminate.
    + exact (IH req r' d s Hin Hb Hd Hs).
Qed.

Lemma upload_reported (fuel : nat) (h : Trace)
    (run : Outcome string * list Event) (s : string) :
  UploadShape w chunkSize file apiKey pollFuel requestAt verdict fuel h run ->
  pollReported (snd run) s -> decidedBy s string (fst run).
Proof.
  intros shape (req & r & d & Hin & Hb & Hd & Hs).
  unfold UploadShape in shape.
  destruct (sessionOpened (fetchOracle w h (startRequest file apiKey))).
  - destruct shape as (out & n & L & ->). cbn [fst snd In] in *.
    destruct Hin as [E|Hin].
    + injection E as <- _. cbn in Hb. discriminate Hb.
    + exact (LoopRun_reported _ _ _ _ L req r d s Hin Hb Hd Hs).
  - subst run. cbn [fst snd In] in *.
    destruct Hin as [E|[]]. injection E as <- _. cbn in Hb. discriminate Hb.
Qed.

End ReportedFacts.

Lemma pollReported_upload (n : list Event) (req : GenRequest)
    (answer : Exn + GenResponse) (s : string) :
  pollReported (n ++ generationEvents req answer) s -> pollReported n s.
Proof.
  intros (q & r & d & Hin & H). exists q, r, d. split; [|exact H].
  apply in_app_or in Hin as [Hin|Hin]; [exact Hin|].
  destruct answer; cbn in Hin;
    repeat (destruct Hin as [Hin|Hin]; try discriminate; try contradiction).
Qed.

(** A readiness check that reports FAILED ends the whole call with the
    processing error, before any generation request. *)
Lemma poll_failed_aborts (rev : Revision) (w : World) (pollFuel fuel : nat)
    (file : File.t) (mimeType : string) (isComplexArg : option bool) :
  let run := transcribeMedia rev w pollFuel fuel file mimeType isComplexArg [] in
  pollReported (snd run) "FAILED" ->
  fst run = Thrown (Error "File processing failed on Gemini servers.")
  /\ generations (snd run) = [].
Proof.
  intros run. subst run. rewrite transcribeMedia_eq.
  destruct (JS.truthy_opt (API_KEY w)) eqn:Hkey.
  - destruct (truthy_key w Hkey) as (apiKey & Hsome & Htruthy).
    rewrite (transcribeWith_run _ _ _ _ _ _ _ apiKey Hsome Htruthy).
    pose proof (upload_shape rev w UPLOAD_CHUNK_SIZE pollFuel fuel file apiKey [])
      as Hshape.
    pose proof (upload_no_generation _ _ _ _ _ _ _ _ _ _ Hshape) as Hgen.
    pose proof (upload_reported _ _ _ _ _ _ _ (requestAt_body rev _ file _ _)
                  _ _ _ "FAILED" Hshape) as Hrep.
    destruct (uploadToGemini rev w UPLOAD_CHUNK_SIZE pollFuel fuel file apiKey [])
      as [[fileUri|e|l] n]; cbn [fst snd] in *; intros Hpoll.
    + apply pollReported_upload in Hpoll.
      destruct (Hrep Hpoll) as [Hf _]. specialize (Hf eq_refl). discriminate.
    + destruct (Hrep Hpoll) as [Hf _]. specialize (Hf eq_refl).
      split; [exact Hf | exact Hgen].
    + destruct (Hrep Hpoll) as [Hf _]. specialize (Hf eq_refl). discriminate.
  - rewrite transcribeWith_no_key by exact Hkey.
    intros (q & r & d & [] & _).
Qed.

(** ** What the final response decides *)

Lemma finishUpload_created (w : World) (apiKey : string) (pollFuel : nat)
    (r : Response.t) (h : Trace) (d : Json.t) (f : FileResource.t) (s : string) :
  Response.json r = inr d -> Json.file d = Some f ->
  FileResource.state f = Some s -> s <> "PROCESSING" ->
  finishUpload w apiKey pollFuel r h = (Returned (FileResource.uri f), []).
Proof.
  intros Hd Hf Hs Hne. apply strictEq_false in Hne.
  unfold finishUpload, bind, getFile. rewrite Hd. cbn [settle ret].
  rewrite Hf. cbn [ret]. rewrite Hs.
  destruct pollFuel; cbn [pollLoop]; rewrite Hne; reflexivity.
Qed.

Lemma completes_verdict (rev : Revision) (chunkSize : Z) (file : File.t)
    (o : Z) (r : Response.t) :
  completes rev (File.size file) (mkBlob o (nextOffset chunkSize file o)) r = true ->
  verdict rev chunkSize file o r = Complete.
Proof.
  destruct rev; cbn [completes verdict blobEnd];
    unfold UnifiedShape.verdict, RangeShape.verdict; intros H.
  - apply andb_prop in H as [-> ->]. reflexivity.
  - rewrite H. apply andb_prop in H as [-> _].
    rewrite andb_false_r. reflexivity.
Qed.

Section CreatedFacts.

Variables (w : World) (chunkSize : Z) (file : File.t).
Variables (apiKey : string) (pollFuel : nat).
Variable requestAt : Z -> Request.
Variable verdict : Z -> Response.t -> Verdict.
Variable completing : Blob -> Response.t -> bool.

Hypothesis chunkSize_pos : 0 < chunkSize.
Hypothesis requestAt_body :
  forall o, body (requestAt o)
            = BlobBody (File.slice file o (nextOffset chunkSize file o)).
Hypothesis completing_verdict :
  forall o r,
    completing (mkBlob o (nextOffset chunkSize file o)) r = true ->
    verdict o r = Complete.

(** Once the completing response names a resource that is not PROCESSING,
    the loop returns its URI, whatever that state is. *)
Lemma LoopRun_created fuel o out n :
  LoopRun w chunkSize file apiKey pollFuel requestAt verdict fuel o out n ->
  0 <= o ->
  forall req r c d f s,
    In (EvFetch req (inr r)) n -> body req = BlobBody c ->
    completing c r = true ->
    Response.json r = inr d -> Json.file d = Some f ->
    FileResource.state f = Some s -> s <> "PROCESSING" ->
    out = Returned (FileResource.uri f).
Proof.
  induction 1 as [fuel o Hge|o Hlt|fuel o e Hlt|fuel o r Hlt Hv
                 |fuel o r h out n Hlt Hv Hfin|fuel o r out n Hlt Hv Hrun IH];
    intros H0 req r' c d f s Hin Hb Hc Hd Hf Hs Hne; cbn [In] in Hin.
  - contradiction.
  - contradiction.
  - destruct Hin as [E|[]]. discriminate.
  - destruct Hin as [E|[]]. injection E as <- <-.
    rewrite requestAt_body, (slice_exact chunkSize file chunkSize_pos) in Hb
      by assumption.
    injection Hb as <-. apply completing_verdict in Hc. congruence.
  - destruct Hin as [E|[E|Hin]]; [|discriminate|].
    + injection E as <- <-.
      rewrite (finishUpload_created _ _ _ _ _ _ _ _ Hd Hf Hs Hne) in Hfin.
      congruence.
    + destruct (finishUpload_run _ _ _ _ _ _ _ Hfin) as [P _].
      exfalso. exact (poll_event_no_chunk _ _ _ _ P Hin Hb).
  - destruct Hin as [E|[E|Hin]]; [|discriminate|].
    + injection E as <- <-.
      rewrite requestAt_body, (slice_exact chunkSize file chunkSize_pos) in Hb
        by assumption.
      injection Hb as <-. apply completing_verdict in Hc. congruence.
    + pose proof (next_bounds chunkSize file chunkSize_pos o Hlt) as B.
      exact (IH ltac:(lia) req r' c d f s Hin Hb Hc Hd Hf Hs Hne).
Qed.

Lemma upload_created (fuel : nat) (h : Trace)
    (run : Outcome string * list Event) :
  UploadShape w chunkSize file apiKey pollFuel requestAt verdict fuel h run ->
  forall req r c d f s,
    In (EvFetch req (inr r)) (snd run) -> body req = BlobBody c ->
    completing c r = true ->
    Response.json r = inr d -> Json.file d = Some f ->
    FileResource.state f = Some s -> s <> "PROCESSING" ->
    fst run = Returned (FileResource.uri f).
Proof.
  intros shape req r c d f s Hin Hb Hc Hd Hf Hs Hne.
  unfold UploadShape in shape.
  destruct (sessionOpened (fetchOracle w h (startRequest file apiKey))).
  - destruct shape as (out & n & L & ->). cbn [fst snd In] in *.
    destruct Hin as [E|Hin].
    + injection E as <- _. cbn in Hb. discriminate Hb.
    + exact (LoopRun_created _ _ _ _ L ltac:(lia) req r c d f s
               Hin Hb Hc Hd Hf Hs Hne).
  - subst run. cbn [fst snd In] in *.
    destruct Hin as [E|[]]. injection E as <- _. cbn in Hb. discriminate Hb.
Qed.

End CreatedFacts.

(** The upload returns a URI as soon as the completing response reports a
    state other than PROCESSING, FAILED included. *)
Lemma created_state_returns (rev : Revision) (w : World) (chunkSize : Z)
    (pollFuel fuel : nat) (file : File.t) (apiKey s : string) :
  let run := uploadToGemini rev w chunkSize pollFuel fuel file apiKey [] in
  0 < chunkSize ->
  createdReported rev (File.size file) (snd run) s -> s <> "PROCESSING" ->
  exists fileUri, fst run = Returned fileUri.
Proof.
  intros run Hchunk (req & r & c & d & f & Hin & Hb & Hc & Hd & Hf & Hs) Hne.
  pose proof (upload_shape rev w chunkSize pollFuel fuel file apiKey []) as Hshape.
  fold run in Hshape.
  exists (FileResource.uri f).
  exact (upload_created _ _ _ _ _ _ _ (completes rev (File.size file)) Hchunk
           (requestAt_body rev chunkSize file _ _)
           (completes_verdict rev chunkSize file)
           _ _ _ Hshape req r c d f s Hin Hb Hc Hd Hf Hs Hne).
Qed.

Lemma createdReported_upload (rev : Revision) (size : Z) (n : list Event)
    (req : GenRequest) (answer : Exn + GenResponse) (s : string) :
  createdReported rev size (n ++ generationEvents req answer) s ->
  createdReported rev size n s.
Proof.
  intros (q & r & c & d & f & Hin & H). exists q, r, c, d, f.
  split; [|exact H].
  apply in_app_or in Hin as [Hin|Hin]; [exact Hin|].
  destruct answer; cbn in Hin;
    repeat (destruct Hin as [Hin|Hin]; try discriminate; try contradiction).
Qed.

(** A resource that is already FAILED in the completing response does not
    stop the call: the generation request is issued. *)
Lemma created_failed_goes_on (rev : Revision) (w : World) (pollFuel fuel : nat)
    (file : File.t) (mimeType : string) (isComplexArg : option bool) :
  let run := transcribeMedia rev w pollFuel fuel file mimeType isComplexArg [] in
  createdReported rev (File.size file) (snd run) "FAILED" ->
  List.length (generations (snd run)) = 1%nat.
Proof.
  intros run. subst run. rewrite transcribeMedia_eq.
  destruct (JS.truthy_opt (API_KEY w)) eqn:Hkey.
  - destruct (truthy_key w Hkey) as (apiKey & Hsome & Htruthy).
    rewrite (transcribeWith_run _ _ _ _ _ _ _ apiKey Hsome Htruthy).
    pose proof (upload_shape rev w UPLOAD_CHUNK_SIZE pollFuel fuel file apiKey [])
      as Hshape.
    pose proof (upload_no_generation _ _ _ _ _ _ _ _ _ _ Hshape) as Hgen.
    pose proof (created_state_returns rev w UPLOAD_CHUNK_SIZE pollFuel fuel file
                  apiKey "FAILED" chunk_size_positive) as Hret.
    destruct (uploadToGemini rev w UPLOAD_CHUNK_SIZE pollFuel fuel file apiKey [])
      as [[fileUri|e|l] n]; cbn [fst snd] in *; intros Hcreated.
    + rewrite generations_app, Hgen.
      destruct (generationEvents_progress
                  (generationRequest apiKey file mimeType isComplexArg fileUri)
                  (generateOracle w (([] ++ n) ++ [EvProgress 100])%list
                     (generationRequest apiKey file mimeType isComplexArg fileUri)))
        as [_ ->].
      reflexivity.
    + destruct (Hret Hcreated) as [u Hu]; discriminate.
    + destruct (Hret Hcreated) as [u Hu]; discriminate.
  - rewrite transcribeWith_no_key by exact Hkey.
    intros (q & r & c & d & f & [] & _).
Qed.

(** ** The upload target *)

Lemma prefix_append (p s t : string) :
  prefix p s = true -> prefix p (s ++ t) = true.
Proof.
  revert s. induction p as [|a p IH]; intros s H;
    [destruct (s ++ t); reflexivity|].
  destruct s as [|b s]; cbn in *; [discriminate|].
  destruct (Ascii.ascii_dec a b); [apply IH; exact H | discriminate].
Qed.

Lemma append_assoc (a b c : string) : (a ++ b) ++ c = a ++ b ++ c.
Proof. induction a as [|x a IH]; cbn; [reflexivity | rewrite IH; reflexivity]. Qed.

Lemma substring_skip (a s : string) (n : nat) :
  substring (String.length a) n (a ++ s) = substring 0 n s.
Proof. induction a as [|c a IH]; [reflexivity | exact IH]. Qed.

Lemma includes_inserted (a b : string) :
  JS.includes (a ++ "key=" ++ b) "key=" = true.
Proof.
  unfold JS.includes.
  destruct (index 0 "key=" (a ++ "key=" ++ b)) eqn:E; [reflexivity|].
  exfalso.
  apply (index_correct3 0 (String.length a) _ _ E); [discriminate | lia |].
  rewrite substring_skip. cbn. destruct b; reflexivity.
Qed.

Lemma ensureKey_has_key (resumableUrl apiKey : string) :
  JS.includes (ensureKey resumableUrl apiKey) "key=" = true.
Proof.
  unfold ensureKey.
  destruct (JS.includes resumableUrl "key=") eqn:E; cbn [negb]; [exact E|].
  destruct (JS.includes resumableUrl "?").
  - change (resumableUrl ++ "&" ++ "key=" ++ apiKey)
      with (resumableUrl ++ "&key=" ++ apiKey).
    replace (resumableUrl ++ "&key=" ++ apiKey)
      with ((resumableUrl ++ "&") ++ "key=" ++ apiKey).
    + apply includes_inserted.
    + rewrite append_assoc. reflexivity.
  - replace (resumableUrl ++ "?" ++ "key=" ++ apiKey)
      with ((resumableUrl ++ "?") ++ "key=" ++ apiKey).
    + apply includes_inserted.
    + rewrite append_assoc. reflexivity.
Qed.

Lemma ensureKey_prefix (p resumableUrl apiKey : string) :
  prefix p resumableUrl = true -> prefix p (ensureKey resumableUrl apiKey) = true.
Proof.
  intros H. unfold ensureKey.
  destruct (negb (JS.includes resumableUrl "key=")); [|exact H].
  apply prefix_append. exact H.
Qed.

(** Both revisions leave a target that carries [key=]. *)
Lemma target_has_key (rev : Revision) (apiKey resumableUrl : string) :
  JS.includes (targetUrl rev apiKey resumableUrl) "key=" = true.
Proof. destruct rev; apply ensureKey_has_key. Qed.

(** [Unified] turns a relative URL into one on the API host. *)
Lemma Unified_target_absolute (apiKey resumableUrl : string) :
  JS.startsWith resumableUrl "/" = true ->
  JS.startsWith (targetUrl UnifiedRevision apiKey resumableUrl) API_HOST = true.
Proof.
  intros H. cbn [targetUrl]. unfold Unified.targetUrl. rewrite H.
  unfold JS.startsWith. apply ensureKey_prefix.
  replace API_HOST with (API_HOST ++ "") at 1.
  - generalize API_HOST. intros s. induction s as [|c s IH]; cbn.
    + destruct (resumableUrl); reflexivity.
    + destruct (Ascii.ascii_dec c c); [exact IH | congruence].
  - generalize API_HOST. intros s. induction s as [|c s IH]; cbn; congruence.
Qed.

(** [ContentRange] leaves a relative URL relative. *)
Lemma ContentRange_target_relative (apiKey resumableUrl : string) :
  JS.startsWith resumableUrl "/" = true ->
  JS.startsWith (targetUrl ContentRangeRevision apiKey resumableUrl) "/" = true.
Proof.
  intros H. cbn [targetUrl]. unfold ContentRange.targetUrl, JS.startsWith.
  apply ensureKey_prefix. exact H.
Qed.

(** Every chunk request of a run goes to the target settled at the start. *)
Lemma chunk_requests_reuse_target (rev : Revision) (w : World) (chunkSize : Z)
    (pollFuel fuel : nat) (file : File.t) (apiKey : string)
    (req : Request) (answer : Exn + Response.t) (c : Blob) :
  let run := uploadToGemini rev w chunkSize pollFuel fuel file apiKey [] in
  In (EvFetch req answer) (snd run) -> body req = BlobBody c ->
  url req
  = targetUrl rev apiKey
      (announcedUrl (fetchOracle w [] (startRequest file apiKey))).
Proof.
  intros run Hin Hbody.
  pose proof (upload_shape rev w chunkSize pollFuel fuel file apiKey []) as Hshape.
  fold run in Hshape.
  destruct (upload_requests _ _ _ _ _ _ _ _ _ _ Hshape req answer c Hin Hbody)
    as [o ->].
  apply requestAt_url.
Qed.


(** The failure is caught when it shows in a readiness check. *)
Example failed_later_is_caught :
  forall rev : Revision,
    fst (transcribeMedia rev failedLater 5 3 lecture "video/mp4" None [])
    = Thrown (Error "File processing failed on Gemini servers.").
Proof. intros [|]; vm_compute; reflexivity. Qed.

(** ** The chunks sent and the partition; the first report *)

Lemma upload_chunks_prefix (rev : Revision) (w : World) (chunkSize : Z)
    (pollFuel fuel : nat) (file : File.t) (apiKey : string) (h : Trace) :
  0 < chunkSize ->
  exists rest,
    planFrom chunkSize file (remaining chunkSize file 0) 0
    = (chunksSent (snd (uploadToGemini rev w chunkSize pollFuel fuel file
                          apiKey h)) ++ rest)%list.
Proof.
  intros Hchunk.
  pose proof (upload_shape rev w chunkSize pollFuel fuel file apiKey h) as S.
  unfold UploadShape in S.
  destruct (sessionOpened (fetchOracle w h (startRequest file apiKey))).
  - destruct S as (out & n & L & ->). cbn [snd].
    change (chunksSent (EvFetch (startRequest file apiKey)
                          (fetchOracle w h (startRequest file apiKey)) :: n))
      with (chunksSent n).
    exact (LoopRun_chunks_prefix _ _ _ _ _ _ _ Hchunk
             (requestAt_body rev chunkSize file _ _) _ _ _ _ L ltac:(lia)).
  - rewrite S. cbn. eexists. reflexivity.
Qed.


(** Of a file of 2 GiB the first chunk is less than half a percent. *)
Example percent_of_first_chunk_of_2GiB :
  progressOf (Z.min UPLOAD_CHUNK_SIZE MAX_FILE_SIZE_WARNING) MAX_FILE_SIZE_WARNING
  = 0.
Proof. vm_compute. reflexivity. Qed.

(** ** The state that lets an upload return *)









Section ReturnedFacts.

Variables (w : World) (chunkSize : Z) (file : File.t).
Variables (apiKey : string) (pollFuel : nat).
Variable requestAt : Z -> Request.
Variable verdict : Z -> Response.t -> Verdict.
Variable completing : Blob -> Response.t -> bool.

Hypothesis chunkSize_pos : 0 < chunkSize.
Hypothesis requestAt_body :
  forall o, body (requestAt o)
            = BlobBody (File.slice file o (nextOffset chunkSize file o)).
Hypothesis verdict_completing :
  forall o r,
    verdict o r = Complete ->
    completing (mkBlob o (nextOffset chunkSize file o)) r = true.




End ReturnedFacts.


(** * The claims of the specification *)

(** C1, as stated.  How many chunks are sent depends on the answers of
    the server.  In the revision with [Content-Range] an upload whose first
    chunk is answered 200 returns a URI after one chunk of three; in the
    other revision an upload whose second chunk is answered 503 stops after
    two chunks of three.  Neither run sent the partition of the file. *)
Lemma C1_chunks_sent_counterexample :
  (exists fileUri,
      fst (uploadToGemini ContentRangeRevision eager UPLOAD_CHUNK_SIZE 5 3
             lecture "K" []) = Returned fileUri)
  /\ ~ chunkPartition UPLOAD_CHUNK_SIZE (File.size lecture)
         (chunksSent
            (snd (uploadToGemini ContentRangeRevision eager UPLOAD_CHUNK_SIZE
                    5 3 lecture "K" [])))
  /\ ~ chunkPartition UPLOAD_CHUNK_SIZE (File.size lecture)
         (chunksSent
            (snd (uploadToGemini UnifiedRevision brokenMidway UPLOAD_CHUNK_SIZE
                    5 3 lecture "K" []))).
Proof.
  split; [|split].
  - eexists. vm_compute. reflexivity.
  - intros [Hcount _]. vm_compute in Hcount. discriminate Hcount.
  - intros [Hcount _]. vm_compute in Hcount. discriminate Hcount.
Qed.

(** C1, amended.  An upload of [size > 0] bytes in chunks of
    [chunkSize > 0] never needs more than [ceil (size / chunkSize)]
    iterations of the chunk loop and never sends more chunk requests than
    that; the chunks it sends are always the first ones of the partition of
    the file into [ceil (size / chunkSize)] ranges, each of [chunkSize]
    bytes but a possibly smaller last one, contiguous from offset 0 and
    [size] bytes in total; when the session was opened and every chunk
    exchange went as the protocol foresees, it sends all of them. *)
Theorem C1_chunk_partition :
  forall (rev : Revision) (w : World) (chunkSize : Z) (file : File.t)
         (apiKey : string) (pollFuel fuel : nat),
    let size := File.size file in
    let run := uploadToGemini rev w chunkSize pollFuel fuel file apiKey [] in
    0 < size -> 0 < chunkSize ->
    (Z.to_nat (ceilDiv size chunkSize) <= fuel)%nat ->
    fst run <> Pending ChunkLoop
    /\ Z.of_nat (List.length (chunksSent (snd run))) <= ceilDiv size chunkSize
    /\ (exists rest,
           chunkPartition chunkSize size (chunksSent (snd run) ++ rest)%list)
    /\ (sessionOpened (fetchOracle w [] (startRequest file apiKey)) = true ->
        forallb (accepted rev size) (snd run) = true ->
        chunkPartition chunkSize size (chunksSent (snd run))).
Proof.
  intros rev w chunkSize file apiKey pollFuel fuel size run Hsize Hchunk Hfuel.
  pose proof (upload_shape rev w chunkSize pollFuel fuel file apiKey []) as Hshape.
  fold run in Hshape.
  assert (Htotal : remaining chunkSize file 0 = Z.to_nat (ceilDiv size chunkSize)).
  { unfold remaining. rewrite Z.sub_0_r. reflexivity. }
  assert (Hpos : 0 <= ceilDiv size chunkSize).
  { unfold ceilDiv. apply Z.div_pos; lia. }
  split; [|split; [|split]].
  - eapply upload_terminates; eauto. rewrite Htotal. exact Hfuel.
  - pose proof (upload_chunk_count _ _ _ _ _ _ _ Hchunk
                  (requestAt_body rev chunkSize file _ _) _ _ _ Hshape) as Hcount.
    rewrite Htotal in Hcount. lia.
  - destruct (upload_chunks_prefix rev w chunkSize pollFuel fuel file apiKey []
                Hchunk) as [rest Hrest].
    exists rest. fold run in Hrest. rewrite <- Hrest.
    apply plan_partition; lia.
  - intros Hopen Hacc.
    rewrite (upload_chunks_exact _ _ _ _ _ _ _ Hchunk
               (requestAt_body rev chunkSize file _ _) _ _ _ Hshape Hopen).
    + apply plan_partition; lia.
    + rewrite Htotal. exact Hfuel.
    + apply Forall_forall. intros ev Hin.
      apply accepted_expected.
      rewrite forallb_forall in Hacc. exact (Hacc ev Hin).
Qed.

Lemma C1_chunk_partition_witness :
  let run := uploadToGemini ContentRangeRevision healthy UPLOAD_CHUNK_SIZE 5 3
               lecture "K" [] in
  let size := File.size lecture in
  sessionOpened (fetchOracle healthy [] (startRequest lecture "K")) = true
  /\ forallb (accepted ContentRangeRevision size) (snd run) = true
  /\ fst run <> Pending ChunkLoop
  /\ Z.of_nat (List.length (chunksSent (snd run)))
     <= ceilDiv size UPLOAD_CHUNK_SIZE
  /\ (exists rest,
         chunkPartition UPLOAD_CHUNK_SIZE size (chunksSent (snd run) ++ rest)%list)
  /\ chunkPartition UPLOAD_CHUNK_SIZE size (chunksSent (snd run)).
Proof.
  intros run size.
  assert (Hopen : sessionOpened
                    (fetchOracle healthy [] (startRequest lecture "K")) = true)
    by (vm_compute; reflexivity).
  assert (Hacc : forallb (accepted ContentRangeRevision size) (snd run) = true)
    by (vm_compute; reflexivity).
  destruct (C1_chunk_partition ContentRangeRevision healthy UPLOAD_CHUNK_SIZE
              lecture "K" 5%nat 3%nat)
    as (Hends & Hcount & Hprefix & Hexact);
    [reflexivity | reflexivity | vm_compute; lia |].
  split; [exact Hopen|]. split; [exact Hacc|]. split; [exact Hends|].
  split; [exact Hcount|]. split; [exact Hprefix|].
  exact (Hexact Hopen Hacc).
Defined.




(** C3.  The revision with [Content-Range] sends every chunk to the
    relative URL it was given, with the key appended; the revision with
    [X-Goog-Upload-Command] sends them to the same path on the API host. *)
Theorem C3_relative_target_not_normalized :
  chunkUrls
    (snd (uploadToGemini ContentRangeRevision relativeTarget UPLOAD_CHUNK_SIZE
            5 3 lecture "K" []))
  = [ "/upload/v1beta/files?upload_id=abc&key=K";
      "/upload/v1beta/files?upload_id=abc&key=K";
      "/upload/v1beta/files?upload_id=abc&key=K" ]
  /\ chunkUrls
       (snd (uploadToGemini UnifiedRevision relativeTarget UPLOAD_CHUNK_SIZE
               5 3 lecture "K" []))
     = [ "https://generativelanguage.googleapis.com/upload/v1beta/files?upload_id=abc&key=K";
         "https://generativelanguage.googleapis.com/upload/v1beta/files?upload_id=abc&key=K";
         "https://generativelanguage.googleapis.com/upload/v1beta/files?upload_id=abc&key=K" ].
Proof. split; vm_compute; reflexivity. Qed.

(** C4.  When the response to the final chunk already reports FAILED, both
    revisions return the file URI: the call goes on to the generation
    request and returns its text. *)
Theorem C4_failed_final_state_ignored :
  forall rev : Revision,
    fst (transcribeMedia rev failedAtOnce 5 3 lecture "video/mp4" None [])
    = Returned "Hello $E=mc^2$"
    /\ List.length
         (generations
            (snd (transcribeMedia rev failedAtOnce 5 3 lecture "video/mp4" None [])))
       = 1%nat.
Proof. intros [|]; split; vm_compute; reflexivity. Qed.

(** C5.  When the key is set and the upload has returned, the call
    reports 100 and makes its generation request; when that request is
    answered with an empty (or missing) text, the call ends there and the
    caller receives the literal fallback. *)
Theorem C5_empty_generation_fallback :
  forall (rev : Revision) (w : World) (pollFuel fuel : nat) (file : File.t)
         (mimeType : string) (isComplexArg : option bool) (h : Trace)
         (apiKey fileUri : string) (n : list Event)
         (generated : option string),
    let run := transcribeMedia rev w pollFuel fuel file mimeType isComplexArg h in
    let req := generationRequest apiKey file mimeType isComplexArg fileUri in
    API_KEY w = Some apiKey -> JS.truthy apiKey = true ->
    uploadToGemini rev w UPLOAD_CHUNK_SIZE pollFuel fuel file apiKey h
    = (Returned fileUri, n) ->
    generateOracle w ((h ++ n) ++ [EvProgress 100])%list req
    = inr (mkGenResponse generated) ->
    JS.truthy_opt generated = false ->
    fst run = Returned "No transcription generated."
    /\ snd run
       = (n ++ [EvProgress 100;
                EvGenerate req (inr (mkGenResponse generated))])%list.
Proof.
  intros rev w pollFuel fuel file mimeType isComplexArg h apiKey fileUri n
         generated run req Hsome Htruthy Hup Hgen Hempty.
  subst run req. rewrite transcribeMedia_eq.
  rewrite (transcribeWith_run _ _ _ _ _ _ _ apiKey Hsome Htruthy).
  rewrite Hup. cbn zeta. rewrite Hgen.
  cbn [generationOutcome generationEvents responseText fst snd].
  split; [|reflexivity].
  destruct generated as [[|c t]|]; [reflexivity | discriminate | reflexivity].
Qed.

Lemma C5_empty_generation_fallback_witness :
  fst (transcribeMedia ContentRangeRevision silent 5 3 lecture "video/mp4" None [])
  = Returned "No transcription generated."
  /\ snd (transcribeMedia ContentRangeRevision silent 5 3 lecture "video/mp4"
            None [])
     = (snd (uploadToGemini ContentRangeRevision silent UPLOAD_CHUNK_SIZE 5 3
               lecture "K" [])
          ++ [EvProgress 100;
              EvGenerate
                (generationRequest "K" lecture "video/mp4" None
                   "https://generativelanguage.googleapis.com/v1beta/files/abc")
                (inr (mkGenResponse (Some "")))])%list.
Proof.
  apply (C5_empty_generation_fallback ContentRangeRevision silent 5%nat 3%nat
           lecture "video/mp4" None [] "K"
           "https://generativelanguage.googleapis.com/v1beta/files/abc"
           (snd (uploadToGemini ContentRangeRevision silent UPLOAD_CHUNK_SIZE
                   5 3 lecture "K" []))
           (Some ""));
    reflexivity.
Defined.

(** C6.  Without a key in the environment the call fails with the
    configuration error before anything happens: the trace is empty, so no
    request reached the network. *)
Theorem C6_missing_key :
  forall (rev : Revision) (w : World) (pollFuel fuel : nat) (file : File.t)
         (mimeType : string) (isComplexArg : option bool) (h : Trace),
    let run := transcribeMedia rev w pollFuel fuel file mimeType isComplexArg h in
    JS.truthy_opt (API_KEY w) = false ->
    fst run = Thrown (Error (missingKeyMessage rev))
    /\ snd run = []
    /\ networkCalls (snd run) = [].
Proof.
  intros rev w pollFuel fuel file mimeType isComplexArg h run Hkey. subst run.
  rewrite transcribeMedia_eq, transcribeWith_no_key by exact Hkey.
  repeat split.
Qed.

Lemma C6_missing_key_witness :
  fst (transcribeMedia ContentRangeRevision unconfigured 5 3 lecture "video/mp4"
         None [])
  = Thrown (Error "API Key not found in environment variables.")
  /\ snd (transcribeMedia ContentRangeRevision unconfigured 5 3 lecture
            "video/mp4" None []) = []
  /\ networkCalls
       (snd (transcribeMedia ContentRangeRevision unconfigured 5 3 lecture
               "video/mp4" None [])) = [].
Proof.
  apply (C6_missing_key ContentRangeRevision unconfigured 5%nat 3%nat lecture
           "video/mp4" None []).
  reflexivity.
Defined.

(** C7.  When the start response carries no upload URL, the upload fails
    right after the start exchange and no chunk request is sent; for an
    [ok] response the error is the missing upload URL. *)
Theorem C7_no_session_url :
  forall (rev : Revision) (w : World) (chunkSize : Z) (pollFuel fuel : nat)
         (file : File.t) (apiKey : string) (r : Response.t),
    let run := uploadToGemini rev w chunkSize pollFuel fuel file apiKey [] in
    fetchOracle w [] (startRequest file apiKey) = inr r ->
    JS.truthy_opt (Response.x_goog_upload_url r) = false ->
    snd run = [EvFetch (startRequest file apiKey) (inr r)]
    /\ chunksSent (snd run) = []
    /\ fst run
       = Thrown (if Response.ok r
                 then Error "No upload URL received from Gemini API"
                 else Error ("Failed to initialize upload: "
                             ++ Response.statusText r)).
Proof.
  intros rev w chunkSize pollFuel fuel file apiKey r run Hans Hurl.
  pose proof (upload_shape rev w chunkSize pollFuel fuel file apiKey []) as Hshape.
  fold run in Hshape. unfold UploadShape in Hshape.
  rewrite Hans in Hshape. cbn [sessionOpened startFailure] in Hshape.
  rewrite Hurl, andb_false_r in Hshape. rewrite Hshape. cbn [fst snd].
  repeat split. destruct (Response.ok r); reflexivity.
Qed.

Lemma C7_no_session_url_witness :
  snd (uploadToGemini ContentRangeRevision noSessionUrl UPLOAD_CHUNK_SIZE 5 3
         lecture "K" [])
  = [EvFetch (startRequest lecture "K") (inr (plainResponse 200 "OK" ""))]
  /\ chunksSent
       (snd (uploadToGemini ContentRangeRevision noSessionUrl UPLOAD_CHUNK_SIZE
               5 3 lecture "K" [])) = []
  /\ fst (uploadToGemini ContentRangeRevision noSessionUrl UPLOAD_CHUNK_SIZE
            5 3 lecture "K" [])
     = Thrown (Error "No upload URL received from Gemini API").
Proof.
  apply (C7_no_session_url ContentRangeRevision noSessionUrl UPLOAD_CHUNK_SIZE
           5%nat 3%nat lecture "K" (plainResponse 200 "OK" ""));
    reflexivity.
Defined.

(** C8.  A chunk request answered with an unexpected status ends the run
    at once: the exchange is the last event of the trace, and the error
    carries the offset of the chunk, the status code, the status text and
    the body of the response. *)
Theorem C8_unexpected_status_aborts :
  forall (rev : Revision) (w : World) (chunkSize : Z) (pollFuel fuel : nat)
         (file : File.t) (apiKey : string)
         (req : Request) (r : Response.t) (c : Blob),
    let run := uploadToGemini rev w chunkSize pollFuel fuel file apiKey [] in
    0 < chunkSize ->
    In (EvFetch req (inr r)) (snd run) -> body req = BlobBody c ->
    unexpected rev r = true ->
    (exists before, snd run = (before ++ [EvFetch req (inr r)])%list)
    /\ fst run
       = Thrown (Error ("Upload failed at offset " ++ JS.toString (blobStart c)
                        ++ ": " ++ JS.toString (Response.status r) ++ " "
                        ++ Response.statusText r ++ " - " ++ Response.text r)).
Proof.
  intros rev w chunkSize pollFuel fuel file apiKey req r c run Hchunk Hin Hbody Hbad.
  pose proof (upload_shape rev w chunkSize pollFuel fuel file apiKey []) as Hshape.
  fold run in Hshape.
  exact (upload_refused_last _ _ _ _ _ _ _ Hchunk
           (requestAt_body rev chunkSize file _ _) _ _ _ Hshape req r c Hin Hbody
           (unexpected_refused rev chunkSize file _ r Hbad)).
Qed.

Lemma C8_unexpected_status_aborts_witness :
  (exists before,
      snd (uploadToGemini ContentRangeRevision brokenMidway UPLOAD_CHUNK_SIZE
             5 3 lecture "K" [])
      = (before
           ++ [EvFetch
                 (RangeShape.requestAt UPLOAD_CHUNK_SIZE lecture
                    (absoluteUploadUrl ++ "&key=K") "video/mp4" 8388608)
                 (inr (plainResponse 503 "Service Unavailable" "try later"))])%list)
  /\ fst (uploadToGemini ContentRangeRevision brokenMidway UPLOAD_CHUNK_SIZE
            5 3 lecture "K" [])
     = Thrown (Error "Upload failed at offset 8388608: 503 Service Unavailable - try later").
Proof.
  apply (C8_unexpected_status_aborts ContentRangeRevision brokenMidway
           UPLOAD_CHUNK_SIZE 5%nat 3%nat lecture "K"
           (RangeShape.requestAt UPLOAD_CHUNK_SIZE lecture
              (absoluteUploadUrl ++ "&key=K") "video/mp4" 8388608)
           (plainResponse 503 "Service Unavailable" "try later")
           (mkBlob 8388608 16777216)).
  - reflexivity.
  - vm_compute. do 3 right. left. reflexivity.
  - reflexivity.
  - reflexivity.
Defined.

(** C9.  When the key is set and the upload has returned, the call makes
    one generation request, for the file just uploaded: it names the deep
    model and carries a thinking budget exactly when the complexity hint is
    true (or left out, which defaults to true); otherwise it names the fast
    model and carries no thinking configuration. *)
Theorem C9_model_selection :
  forall (rev : Revision) (w : World) (pollFuel fuel : nat) (file : File.t)
         (mimeType : string) (isComplexArg : option bool) (h : Trace)
         (apiKey fileUri : string) (n : list Event),
    let run := transcribeMedia rev w pollFuel fuel file mimeType isComplexArg h in
    let isComplex := match isComplexArg with Some b => b | None => true end in
    API_KEY w = Some apiKey -> JS.truthy apiKey = true ->
    uploadToGemini rev w UPLOAD_CHUNK_SIZE pollFuel fuel file apiKey h
    = (Returned fileUri, n) ->
    exists req,
      generations (snd run) = [req]
      /\ fileData_fileUri req = fileUri
      /\ model req = (if isComplex then GEMINI_PRO_MODEL else GEMINI_FLASH_MODEL)
      /\ thinkingConfig (config req)
         = (if isComplex then Some (mkThinkingConfig 32768) else None).
Proof.
  intros rev w pollFuel fuel file mimeType isComplexArg h apiKey fileUri n
         run isComplex Hsome Htruthy Hup.
  subst run. rewrite transcribeMedia_eq.
  rewrite (transcribeWith_run _ _ _ _ _ _ _ apiKey Hsome Htruthy).
  pose proof (upload_shape rev w UPLOAD_CHUNK_SIZE pollFuel fuel file apiKey h)
    as Hshape.
  pose proof (upload_no_generation _ _ _ _ _ _ _ _ _ _ Hshape) as Hgen.
  rewrite Hup in *. cbn [fst snd] in *.
  exists (generationRequest apiKey file mimeType isComplexArg fileUri).
  rewrite generations_app, Hgen.
  destruct (generationEvents_progress
              (generationRequest apiKey file mimeType isComplexArg fileUri)
              (generateOracle w ((h ++ n) ++ [EvProgress 100])%list
                 (generationRequest apiKey file mimeType isComplexArg fileUri)))
    as [_ ->].
  repeat split.
Qed.

Lemma C9_model_selection_witness :
  exists req,
    generations
      (snd (transcribeMedia UnifiedRevision silent 5 3 lecture "" (Some false) []))
    = [req]
    /\ fileData_fileUri req
       = "https://generativelanguage.googleapis.com/v1beta/files/abc"
    /\ model req = GEMINI_FLASH_MODEL
    /\ thinkingConfig (config req) = None.
Proof.
  apply (C9_model_selection UnifiedRevision silent 5%nat 3%nat lecture ""
           (Some false) [] "K"
           "https://generativelanguage.googleapis.com/v1beta/files/abc"
           (snd (uploadToGemini UnifiedRevision silent UPLOAD_CHUNK_SIZE 5 3
                   lecture "K" [])));
    reflexivity.
Defined.



(** * Further properties of the code *)

(** ** The polling phase, event by event *)

Lemma pollLoop_alternating (w : World) (apiKey fileName : string) :
  forall (fuel : nat) (state : option string) (h : Trace),
    alternating (checkUrl apiKey fileName)
      (snd (pollLoop w apiKey fileName fuel state h)).
Proof.
  induction fuel as [|fuel IH]; intros state h; cbn [pollLoop].
  - destruct (JS.strictEq state "PROCESSING"); exact I.
  - destruct (JS.strictEq state "PROCESSING"); [|exact I].
    unfold bind, sleep, emit, fetch.
    match goal with |- context [fetchOracle w ?h' ?q] =>
      destruct (fetchOracle w h' q) as [e|r0] end.
    + cbn. repeat split.
    + destruct (Response.json r0) as [e|d0]; cbn [settle throw ret].
      * cbn. repeat split.
      * destruct (JS.strictEq (Json.state d0) "FAILED").
        -- cbn. repeat split.
        -- match goal with |- context [pollLoop w apiKey fileName fuel ?st ?h'] =>
             specialize (IH st h');
             destruct (pollLoop w apiKey fileName fuel st h') as [o n] end.
           cbn in *. repeat split. exact IH.
Qed.

Lemma finishUpload_alternating (w : World) (apiKey : string) (pollFuel : nat)
    (r : Response.t) (h : Trace) :
  exists fileName,
    alternating (checkUrl apiKey fileName)
      (snd (finishUpload w apiKey pollFuel r h)).
Proof.
  unfold finishUpload, bind, getFile.
  destruct (Response.json r) as [e|d]; cbn [settle throw ret];
    [exists ""; exact I|].
  destruct (Json.file d) as [f|]; cbn [throw ret]; [|exists ""; exact I].
  exists (FileResource.name f).
  match goal with |- context [pollLoop w apiKey ?nm pollFuel ?s ?h'] =>
    pose proof (pollLoop_alternating w apiKey nm pollFuel s h') as P;
    destruct (pollLoop w apiKey nm pollFuel s h') as [[u|e|l] n] end;
    cbn in *; rewrite ?app_nil_r; exact P.
Qed.

Lemma alternating_check (url : string) (n : list Event) :
  alternating url n ->
  forall req answer,
    In (EvFetch req answer) n -> req = mkRequest url "GET" [] NoBody.
Proof.
  assert (G : forall (k : nat) (m : list Event),
             (List.length m <= k)%nat -> alternating url m ->
             forall req answer,
               In (EvFetch req answer) m -> req = mkRequest url "GET" [] NoBody).
  { induction k as [|k IH]; intros m Hk.
    - destruct m; [intros _ ? ? []|cbn in Hk; lia].
    - destruct m as [|[| ms | | |] [|[q a| | | |] rest]]; cbn; try contradiction.
      intros (_ & Hq & Hrest) req answer [E|[E|Hin]]; [discriminate| |].
      + injection E as <- _. exact Hq.
      + apply (IH rest ltac:(cbn in Hk; lia) Hrest req answer Hin). }
  exact (G (List.length n) n (le_n _)).
Qed.

Lemma alternating_counts (url : string) (n : list Event) :
  alternating url n ->
  countSleeps n = List.length (checksMade n)
  /\ forallb isPollEvent n = true.
Proof.
  assert (G : forall (k : nat) (m : list Event),
             (List.length m <= k)%nat -> alternating url m ->
             countSleeps m = List.length (checksMade m)
             /\ forallb isPollEvent m = true).
  { induction k as [|k IH]; intros m Hk.
    - destruct m; [intros _; split; reflexivity|cbn in Hk; lia].
    - destruct m as [|[| ms | | |] [|[q a| | | |] rest]]; cbn; try contradiction;
        [intros _; split; reflexivity|].
      intros (_ & -> & Hrest). cbn.
      destruct (IH rest ltac:(cbn in Hk; lia) Hrest) as [IH1 IH2].
      unfold countSleeps, checksMade in *. rewrite IH1.
      split; [reflexivity | exact IH2]. }
  exact (G (List.length n) n (le_n _)).
Qed.

(** ** A full file is reported as 99 *)

Lemma round_compat (x y : Q) : (0 <= x)%Q -> (x == y)%Q ->
  (Float64.round x == Float64.round y)%Q.
Proof.
  intros Hx Hxy. apply Qle_antisym; apply round_mono; lra.
Qed.

Lemma progressOf_full (size : Z) : 0 < size -> progressOf size size = 99.
Proof.
  intros Hs. unfold progressOf, Float64.mul, Float64.div.
  assert (H1 : (inject_Z size / inject_Z size == 1)%Q).
  { apply Qmult_inv_r. intros E.
    change 0%Q with (inject_Z 0) in E.
    rewrite inject_Z_injective in E. lia. }
  assert (R1 : (Float64.round (inject_Z size / inject_Z size) == 1)%Q).
  { rewrite (round_compat _ 1); [vm_compute; reflexivity | lra | exact H1]. }
  assert (R2 : (Float64.round
                  (Float64.round (inject_Z size / inject_Z size) * 100) == 100)%Q).
  { rewrite (round_compat _ 100); [vm_compute; reflexivity | lra | lra]. }
  unfold Float64.Math_round.
  assert (F : Qfloor (Float64.round
                        (Float64.round (inject_Z size / inject_Z size) * 100)
                      + (1 # 2)) = 100).
  { assert (E : (Float64.round
                   (Float64.round (inject_Z size / inject_Z size) * 100)
                 + (1 # 2) == 201 # 2)%Q) by lra.
    rewrite (Qfloor_comp _ _ E). reflexivity. }
  rewrite F. reflexivity.
Qed.

Lemma finishUpload_returned (w : World) (apiKey : string) (pollFuel : nat)
    (r : Response.t) (h : Trace) (fileUri : string) (n : list Event) :
  finishUpload w apiKey pollFuel r h = (Returned fileUri, n) ->
  exists d f,
    Response.json r = inr d /\ Json.file d = Some f
    /\ fileUri = FileResource.uri f.
Proof.
  unfold finishUpload, bind, getFile.
  destruct (Response.json r) as [e|d] eqn:Hd; cbn [settle throw ret];
    [discriminate|].
  destruct (Json.file d) as [f|] eqn:Hf; cbn [throw ret]; [|discriminate].
  destruct (pollLoop w apiKey (FileResource.name f) pollFuel
              (FileResource.state f) ((h ++ []) ++ [])%list) as [[u|e|l] n'];
    cbn; intros E; try discriminate.
  injection E as <- _. exists d, f. repeat split. exact Hf.
Qed.

Section MoreLoopFacts.

Variables (w : World) (chunkSize : Z) (file : File.t).
Variables (apiKey : string) (pollFuel : nat).
Variable requestAt : Z -> Request.
Variable verdict : Z -> Response.t -> Verdict.

Hypothesis chunkSize_pos : 0 < chunkSize.
Hypothesis requestAt_body :
  forall o, body (requestAt o)
            = BlobBody (File.slice file o (nextOffset chunkSize file o)).

Local Abbreviation Run := (LoopRun w chunkSize file apiKey pollFuel requestAt verdict).
Local Abbreviation next := (nextOffset chunkSize file).
Local Abbreviation size := (File.size file).

Lemma request_is_upload_event (o : Z) (answer : Exn + Response.t) :
  isUploadEvent (EvFetch (requestAt o) answer) = true.
Proof. cbn. rewrite requestAt_body. reflexivity. Qed.

(** Every chunk request was built at an offset inside the file, and
    carries the bytes from there to the next offset. *)
Lemma LoopRun_requests_bounded fuel o out n :
  Run fuel o out n -> 0 <= o ->
  forall req answer c,
    In (EvFetch req answer) n -> body req = BlobBody c ->
    exists o', o <= o' < size /\ req = requestAt o' /\ c = mkBlob o' (next o').
Proof.
  induction 1 as [fuel o Hge|o Hlt|fuel o e Hlt|fuel o r Hlt Hv
                 |fuel o r h out n Hlt Hv Hfin|fuel o r out n Hlt Hv Hrun IH];
    intros H0 req answer c Hin Hb; cbn [In] in Hin;
    try contradiction;
    try (destruct Hin as [E|Hin];
         [injection E as <- _;
          rewrite requestAt_body,
                  (slice_exact chunkSize file chunkSize_pos) in Hb by assumption;
          injection Hb as <-; exists o; repeat split; lia|]).
  - contradiction.
  - contradiction.
  - destruct Hin as [E|Hin]; [discriminate|].
    destruct (finishUpload_run _ _ _ _ _ _ _ Hfin) as [P _].
    exfalso. exact (poll_event_no_chunk _ _ _ _ P Hin Hb).
  - destruct Hin as [E|Hin]; [discriminate|].
    pose proof (next_bounds chunkSize file chunkSize_pos o Hlt) as B.
    destruct (IH ltac:(lia) req answer c Hin Hb) as (o' & Ho' & E1 & E2).
    exists o'. repeat split; try assumption; lia.
Qed.

(** The chunk phase comes first, the polling phase after it. *)
Lemma LoopRun_phases fuel o out n :
  Run fuel o out n ->
  exists chunkPhase pollPhase fileName,
    n = (chunkPhase ++ pollPhase)%list
    /\ forallb isUploadEvent chunkPhase = true
    /\ alternating (checkUrl apiKey fileName) pollPhase.
Proof.
  induction 1 as [fuel o Hge|o Hlt|fuel o e Hlt|fuel o r Hlt Hv
                 |fuel o r h out n Hlt Hv Hfin|fuel o r out n Hlt Hv Hrun IH].
  - exists [], [], "". repeat split.
  - exists [], [], "". repeat split.
  - exists [EvFetch (requestAt o) (inl e)], [], "".
    cbn [forallb]. rewrite request_is_upload_event. repeat split.
  - exists [EvFetch (requestAt o) (inr r)], [], "".
    cbn [forallb]. rewrite request_is_upload_event. repeat split.
  - destruct (finishUpload_alternating w apiKey pollFuel r h) as [name A].
    rewrite Hfin in A. cbn [snd] in A.
    exists [EvFetch (requestAt o) (inr r);
            EvProgress (progressOf (next o) size)], n, name.
    cbn [forallb]. rewrite request_is_upload_event. repeat split. exact A.
  - destruct IH as (up & poll & name & -> & Hup & Hpoll).
    exists (EvFetch (requestAt o) (inr r)
              :: EvProgress (progressOf (next o) size) :: up), poll, name.
    cbn [forallb]. rewrite request_is_upload_event, Hup. repeat split. exact Hpoll.
Qed.

(** A run that returns: its chunks reach from the start offset to the end
    of the completing chunk, whose response names the resource returned,
    and the last percentage reported is the one after that chunk. *)
Lemma LoopRun_returned fuel o out n :
  Run fuel o out n -> 0 <= o ->
  forall fileUri, out = Returned fileUri ->
    exists before last r d f reports,
      chunksSent n = (before ++ [last])%list
      /\ contiguous o (chunksSent n) (blobEnd last)
      /\ o <= blobStart last < blobEnd last
      /\ blobEnd last <= size
      /\ blobEnd last = next (blobStart last)
      /\ verdict (blobStart last) r = Complete
      /\ In (EvFetch (requestAt (blobStart last)) (inr r)) n
      /\ Response.json r = inr d /\ Json.file d = Some f
      /\ fileUri = FileResource.uri f
      /\ progressValues n = (reports ++ [progressOf (blobEnd last) size])%list.
Proof.
  induction 1 as [fuel o Hge|o Hlt|fuel o e Hlt|fuel o r Hlt Hv
                 |fuel o r h out n Hlt Hv Hfin|fuel o r out n Hlt Hv Hrun IH];
    intros H0 fileUri Hout; try discriminate.
  - subst out.
    destruct (finishUpload_returned _ _ _ _ _ _ _ Hfin) as (d & f & Hd & Hf & Hu).
    destruct (finishUpload_run _ _ _ _ _ _ _ Hfin) as [P _].
    apply poll_events_silent in P as (Pc & Pp & _).
    pose proof (next_bounds chunkSize file chunkSize_pos o Hlt) as B.
    exists [], (mkBlob o (next o)), r, d, f, [].
    unfold chunksSent, progressValues in *. cbn [flat_map].
    rewrite (chunkOf_request chunkSize file requestAt chunkSize_pos requestAt_body)
      by assumption.
    cbn [chunkOf progressOfEvent app blobStart blobEnd contiguous In].
    rewrite Pc, Pp. repeat split; try assumption; try lia. left. reflexivity.
  - pose proof (next_bounds chunkSize file chunkSize_pos o Hlt) as B.
    destruct (IH ltac:(lia) fileUri Hout)
      as (before & last & r' & d & f & reports
          & Hc & Hcont & Hlast & Hle & Hnext & Hv' & Hin & Hd & Hf & Hu & Hp).
    exists (mkBlob o (next o) :: before), last, r', d, f,
           (progressOf (next o) size :: reports).
    unfold chunksSent, progressValues in *. cbn [flat_map].
    rewrite (chunkOf_request chunkSize file requestAt chunkSize_pos requestAt_body)
      by assumption.
    cbn [chunkOf progressOfEvent app blobStart blobEnd contiguous In].
    rewrite Hc in *. rewrite Hp.
    repeat split; try assumption; try lia. right. right. exact Hin.
Qed.

End MoreLoopFacts.

(** ** What ends the polling *)

Lemma pollLoop_idle (w : World) (apiKey fileName : string) (fuel : nat)
    (state : option string) (h : Trace) :
  JS.strictEq state "PROCESSING" = false ->
  pollLoop w apiKey fileName fuel state h = (Returned tt, []).
Proof. intros H. destruct fuel; cbn [pollLoop]; rewrite H; reflexivity. Qed.

(** A check whose body does not say PROCESSING is the one that ends the
    polling: with an error if it says FAILED, with success otherwise. *)
Lemma pollLoop_said (w : World) (apiKey fileName : string) :
  forall (fuel : nat) (state : option string) (h : Trace)
         (req : Request) (r : Response.t) (d : Json.t),
    In (EvFetch req (inr r)) (snd (pollLoop w apiKey fileName fuel state h)) ->
    Response.json r = inr d ->
    JS.strictEq (Json.state d) "PROCESSING" = false ->
    fst (pollLoop w apiKey fileName fuel state h)
    = if JS.strictEq (Json.state d) "FAILED"
      then Thrown (Error "File processing failed on Gemini servers.")
      else Returned tt.
Proof.
  induction fuel as [|fuel IH]; intros state h req r d; cbn [pollLoop].
  - destruct (JS.strictEq state "PROCESSING"); cbn; contradiction.
  - destruct (JS.strictEq state "PROCESSING"); [|cbn; contradiction].
    unfold bind, sleep, emit, fetch.
    match goal with |- context [fetchOracle w ?h' ?q] =>
      destruct (fetchOracle w h' q) as [e|r0] end.
    + cbn. intros [H|[H|[]]]; discriminate.
    + destruct (Response.json r0) as [e|d0] eqn:Hjson; cbn [settle throw ret].
      * cbn. intros [H|[H|[]]]; [discriminate|].
        injection H as _ <-. congruence.
      * destruct (JS.strictEq (Json.state d0) "FAILED") eqn:Hfailed.
        -- cbn. intros [H|[H|[]]]; [discriminate|].
           injection H as _ <-. intros Hd _.
           assert (d0 = d) by congruence. subst d0. rewrite Hfailed. reflexivity.
        -- match goal with |- context [pollLoop w apiKey fileName fuel ?st ?h'] =>
             specialize (IH st h' req r d);
             pose proof (pollLoop_idle w apiKey fileName fuel st h') as Idle;
             destruct (pollLoop w apiKey fileName fuel st h') as [o n] end.
           cbn [fst snd app] in *. intros [H|[H|H]]; [discriminate| |].
           ++ injection H as _ <-. intros Hd Hproc.
              assert (d0 = d) by congruence. subst d0. rewrite Hfailed.
              specialize (Idle Hproc). injection Idle as -> ->. reflexivity.
           ++ rewrite ?app_nil_r in H. intros Hd Hproc.
              rewrite (IH H Hd Hproc).
              destruct (JS.strictEq (Json.state d) "FAILED"); reflexivity.
Qed.

(** The polling is left unfinished exactly when every check so far said
    PROCESSING; it has then waited once per unit of its budget. *)
Lemma pollLoop_pending (w : World) (apiKey fileName : string) :
  forall (fuel : nat) (state : option string) (h : Trace),
    let run := pollLoop w apiKey fileName fuel state h in
    (forall l, fst run = Pending l ->
       l = PollLoop
       /\ forallb stillProcessing (snd run) = true
       /\ countSleeps (snd run) = fuel)
    /\ (JS.strictEq state "PROCESSING" = true ->
        forallb stillProcessing (snd run) = true ->
        fst run = Pending PollLoop).
Proof.
  induction fuel as [|fuel IH]; intros state h; cbn [pollLoop].
  - destruct (JS.strictEq state "PROCESSING"); cbn; split;
      try discriminate; try reflexivity.
    intros l E. injection E as <-. repeat split.
  - destruct (JS.strictEq state "PROCESSING"); [|cbn; split; discriminate].
    unfold bind, sleep, emit, fetch.
    match goal with |- context [fetchOracle w ?h' ?q] =>
      destruct (fetchOracle w h' q) as [e|r0] end.
    + cbn. split; discriminate.
    + destruct (Response.json r0) as [e|d0] eqn:Hjson; cbn [settle throw ret].
      * cbn. rewrite Hjson. split; discriminate.
      * destruct (JS.strictEq (Json.state d0) "FAILED") eqn:Hfailed.
        -- cbn. rewrite Hjson. split; [discriminate|].
           intros _ H. rewrite andb_true_r in H.
           destruct (Json.state d0) as [s|]; [|discriminate].
           apply strictEq_true in H. apply strictEq_true in Hfailed.
           congruence.
        -- match goal with |- context [pollLoop w apiKey fileName fuel ?st ?h'] =>
             specialize (IH st h');
             pose proof (pollLoop_idle w apiKey fileName fuel st h') as Idle;
             destruct (pollLoop w apiKey fileName fuel st h') as [o n] end.
           cbn [fst snd app] in *. rewrite ?app_nil_r.
           destruct IH as [IH1 IH2]. cbn [forallb stillProcessing body].
           rewrite Hjson. unfold countSleeps in *. cbn [filter List.length].
           split.
           ++ intros l E. destruct o as [u|e|l']; try discriminate.
              injection E as <-. destruct (IH1 l' eq_refl) as (-> & F & C).
              destruct (JS.strictEq (Json.state d0) "PROCESSING") eqn:P.
              ** cbn. rewrite F, C. repeat split.
              ** specialize (Idle eq_refl). discriminate.
           ++ intros _ H. cbn [andb] in H. apply andb_prop in H as [P F].
              rewrite (IH2 P F). reflexivity.
Qed.

Lemma pollLoop_entered (w : World) (apiKey fileName : string) (fuel : nat)
    (state : option string) (h : Trace) :
  existsb isCheck (snd (pollLoop w apiKey fileName fuel state h)) = true ->
  JS.strictEq state "PROCESSING" = true.
Proof.
  destruct (JS.strictEq state "PROCESSING") eqn:E; [reflexivity|].
  rewrite (pollLoop_idle _ _ _ _ _ _ E). cbn. discriminate.
Qed.

Lemma finishUpload_said (w : World) (apiKey : string) (pollFuel : nat)
    (r0 : Response.t) (h : Trace) (req : Request) (r : Response.t)
    (d : Json.t) :
  In (EvFetch req (inr r)) (snd (finishUpload w apiKey pollFuel r0 h)) ->
  Response.json r = inr d ->
  JS.strictEq (Json.state d) "PROCESSING" = false ->
  if JS.strictEq (Json.state d) "FAILED"
  then fst (finishUpload w apiKey pollFuel r0 h)
       = Thrown (Error "File processing failed on Gemini servers.")
  else exists fileUri, fst (finishUpload w apiKey pollFuel r0 h) = Returned fileUri.
Proof.
  unfold finishUpload, bind, getFile.
  destruct (Response.json r0) as [e|d0]; cbn [settle throw ret]; [cbn; contradiction|].
  destruct (Json.file d0) as [f|]; cbn [throw ret]; [|cbn; contradiction].
  match goal with |- context [pollLoop w apiKey ?nm pollFuel ?st ?h'] =>
    pose proof (pollLoop_said w apiKey nm pollFuel st h' req r d) as P;
    destruct (pollLoop w apiKey nm pollFuel st h') as [o n] end.
  cbn [fst snd app] in *. intros Hin Hd Hp.
  assert (Hin' : In (EvFetch req (inr r)) n).
  { destruct o; cbn [snd app] in Hin; rewrite ?app_nil_r in Hin; exact Hin. }
  rewrite (P Hin' Hd Hp).
  destruct (JS.strictEq (Json.state d) "FAILED"); cbn; [reflexivity|].
  eexists; reflexivity.
Qed.

Lemma finishUpload_pending (w : World) (apiKey : string) (pollFuel : nat)
    (r0 : Response.t) (h : Trace) :
  let run := finishUpload w apiKey pollFuel r0 h in
  (forall l, fst run = Pending l ->
     l = PollLoop
     /\ forallb stillProcessing (snd run) = true
     /\ countSleeps (snd run) = pollFuel)
  /\ (existsb isCheck (snd run) = true ->
      forallb stillProcessing (snd run) = true ->
      fst run = Pending PollLoop).
Proof.
  unfold finishUpload, bind, getFile.
  destruct (Response.json r0) as [e|d0]; cbn [settle throw ret];
    [cbn; split; discriminate|].
  destruct (Json.file d0) as [f|]; cbn [throw ret]; [|cbn; split; discriminate].
  match goal with |- context [pollLoop w apiKey ?nm pollFuel ?st ?h'] =>
    pose proof (pollLoop_pending w apiKey nm pollFuel st h') as [P1 P2];
    pose proof (pollLoop_entered w apiKey nm pollFuel st h') as P3;
    destruct (pollLoop w apiKey nm pollFuel st h') as [o n] end.
  cbn [fst snd app] in *.
  destruct o as [u|e|l]; cbn [fst snd] in *; rewrite ?app_nil_r; split;
    try discriminate.
  - intros C F. specialize (P2 (P3 C) F). discriminate.
  - intros C F. specialize (P2 (P3 C) F). discriminate.
  - intros l' E'. injection E' as <-. exact (P1 l eq_refl).
  - intros C F. specialize (P2 (P3 C) F). injection P2 as ->. reflexivity.
Qed.

Lemma pollLoop_last_check (w : World) (apiKey fileName : string) :
  forall (fuel : nat) (state : option string) (h : Trace)
         (req : Request) (r : Response.t) (d : Json.t),
    In (EvFetch req (inr r)) (snd (pollLoop w apiKey fileName fuel state h)) ->
    Response.json r = inr d ->
    JS.strictEq (Json.state d) "PROCESSING" = false ->
    exists before,
      snd (pollLoop w apiKey fileName fuel state h)
      = (before ++ [EvFetch req (inr r)])%list.
Proof.
  induction fuel as [|fuel IH]; intros state h req r d; cbn [pollLoop].
  - destruct (JS.strictEq state "PROCESSING"); cbn; contradiction.
  - destruct (JS.strictEq state "PROCESSING"); [|cbn; contradiction].
    unfold bind, sleep, emit, fetch.
    match goal with |- context [fetchOracle w ?h' ?q] =>
      destruct (fetchOracle w h' q) as [e|r0] end.
    + cbn. intros [H|[H|[]]]; discriminate.
    + destruct (Response.json r0) as [e|d0] eqn:Hjson; cbn [settle throw ret].
      * cbn. intros [H|[H|[]]]; [discriminate|].
        injection H as _ <-. congruence.
      * destruct (JS.strictEq (Json.state d0) "FAILED") eqn:Hfailed.
        -- cbn. intros [H|[H|[]]]; [discriminate|].
           injection H as <- <-. intros _ _.
           exists [EvSleep 2000]. reflexivity.
        -- match goal with |- context [pollLoop w apiKey fileName fuel ?st ?h'] =>
             specialize (IH st h' req r d);
             pose proof (pollLoop_idle w apiKey fileName fuel st h') as Idle;
             destruct (pollLoop w apiKey fileName fuel st h') as [o n] end.
           cbn [fst snd app] in *. rewrite ?app_nil_r.
           intros [H|[H|H]]; [discriminate| |].
           ++ injection H as <- <-. intros Hd Hproc.
              assert (d0 = d) by congruence. subst d0.
              specialize (Idle Hproc). injection Idle as -> ->.
              exists [EvSleep 2000]. reflexivity.
           ++ intros Hd Hproc. destruct (IH H Hd Hproc) as [before ->].
              eexists (EvSleep 2000 :: EvFetch _ _ :: before). reflexivity.
Qed.

Lemma finishUpload_last_check (w : World) (apiKey : string) (pollFuel : nat)
    (r0 : Response.t) (h : Trace) (req : Request) (r : Response.t)
    (d : Json.t) :
  In (EvFetch req (inr r)) (snd (finishUpload w apiKey pollFuel r0 h)) ->
  Response.json r = inr d ->
  JS.strictEq (Json.state d) "PROCESSING" = false ->
  exists before,
    snd (finishUpload w apiKey pollFuel r0 h)
    = (before ++ [EvFetch req (inr r)])%list.
Proof.
  unfold finishUpload, bind, getFile.
  destruct (Response.json r0) as [e|d0]; cbn [settle throw ret]; [cbn; contradiction|].
  destruct (Json.file d0) as [f|]; cbn [throw ret]; [|cbn; contradiction].
  match goal with |- context [pollLoop w apiKey ?nm pollFuel ?st ?h'] =>
    pose proof (pollLoop_last_check w apiKey nm pollFuel st h' req r d) as P;
    destruct (pollLoop w apiKey nm pollFuel st h') as [[u|e|l] n] end;
    cbn [fst snd app] in *; rewrite ?app_nil_r; exact P.
Qed.

Section PollingFacts.

Variables (w : World) (chunkSize : Z) (file : File.t).
Variables (apiKey : string) (pollFuel : nat).
Variable requestAt : Z -> Request.
Variable verdict : Z -> Response.t -> Verdict.

Hypothesis chunkSize_pos : 0 < chunkSize.
Hypothesis requestAt_body :
  forall o, body (requestAt o)
            = BlobBody (File.slice file o (nextOffset chunkSize file o)).

Local Abbreviation Run := (LoopRun w chunkSize file apiKey pollFuel requestAt verdict).
Local Abbreviation next := (nextOffset chunkSize file).
Local Abbreviation size := (File.size file).

Lemma LoopRun_said fuel o out n :
  Run fuel o out n ->
  forall req r d,
    In (EvFetch req (inr r)) n -> body req = NoBody ->
    Response.json r = inr d ->
    JS.strictEq (Json.state d) "PROCESSING" = false ->
    if JS.strictEq (Json.state d) "FAILED"
    then out = Thrown (Error "File processing failed on Gemini servers.")
    else exists fileUri, out = Returned fileUri.
Proof.
  induction 1 as [fuel o Hge|o Hlt|fuel o e Hlt|fuel o r Hlt Hv
                 |fuel o r h out n Hlt Hv Hfin|fuel o r out n Hlt Hv Hrun IH];
    intros req r' d Hin Hb Hd Hp; cbn [In] in Hin.
  - contradiction.
  - contradiction.
  - destruct Hin as [E|[]]. discriminate.
  - destruct Hin as [E|[]]. injection E as <- _.
    rewrite requestAt_body in Hb. discriminate.
  - destruct Hin as [E|[E|Hin]]; [|discriminate|].
    + injection E as <- _. rewrite requestAt_body in Hb. discriminate.
    + pose proof (finishUpload_said w apiKey pollFuel r h req r' d) as P.
      rewrite Hfin in P. exact (P Hin Hd Hp).
  - destruct Hin as [E|[E|Hin]]; [|discriminate|].
    + injection E as <- _. rewrite requestAt_body in Hb. discriminate.
    + exact (IH req r' d Hin Hb Hd Hp).
Qed.

Lemma LoopRun_last_check fuel o out n :
  Run fuel o out n ->
  forall req r d,
    In (EvFetch req (inr r)) n -> body req = NoBody ->
    Response.json r = inr d ->
    JS.strictEq (Json.state d) "PROCESSING" = false ->
    exists before, n = (before ++ [EvFetch req (inr r)])%list.
Proof.
  induction 1 as [fuel o Hge|o Hlt|fuel o e Hlt|fuel o r Hlt Hv
                 |fuel o r h out n Hlt Hv Hfin|fuel o r out n Hlt Hv Hrun IH];
    intros req r' d Hin Hb Hd Hp; cbn [In] in Hin.
  - contradiction.
  - contradiction.
  - destruct Hin as [E|[]]. discriminate.
  - destruct Hin as [E|[]]. injection E as <- _.
    rewrite requestAt_body in Hb. discriminate.
  - destruct Hin as [E|[E|Hin]]; [|discriminate|].
    + injection E as <- _. rewrite requestAt_body in Hb. discriminate.
    + pose proof (finishUpload_last_check w apiKey pollFuel r h req r' d) as P.
      rewrite Hfin in P. destruct (P Hin Hd Hp) as [before B].
      cbn [snd] in B. subst n.
      eexists (EvFetch _ _ :: EvProgress _ :: before). reflexivity.
  - destruct Hin as [E|[E|Hin]]; [|discriminate|].
    + injection E as <- _. rewrite requestAt_body in Hb. discriminate.
    + destruct (IH req r' d Hin Hb Hd Hp) as [before ->].
      eexists (EvFetch _ _ :: EvProgress _ :: before). reflexivity.
Qed.

Lemma request_still (o : Z) (answer : Exn + Response.t) :
  stillProcessing (EvFetch (requestAt o) answer) = true
  /\ isCheck (EvFetch (requestAt o) answer) = false.
Proof. cbn. rewrite requestAt_body. split; reflexivity. Qed.

Lemma LoopRun_pending fuel o out n :
  Run fuel o out n ->
  (out = Pending PollLoop ->
     forallb stillProcessing n = true /\ countSleeps n = pollFuel)
  /\ (existsb isCheck n = true -> forallb stillProcessing n = true ->
      out = Pending PollLoop).
Proof.
  induction 1 as [fuel o Hge|o Hlt|fuel o e Hlt|fuel o r Hlt Hv
                 |fuel o r h out n Hlt Hv Hfin|fuel o r out n Hlt Hv Hrun IH];
    cbn [forallb existsb];
    try (destruct (request_still o (inl e)) as [-> ->]);
    try (destruct (request_still o (inr r)) as [-> ->]);
    cbn [andb orb stillProcessing isCheck].
  - split; discriminate.
  - split; discriminate.
  - split; discriminate.
  - split; discriminate.
  - pose proof (finishUpload_pending w apiKey pollFuel r h) as P.
    rewrite Hfin in P. cbn [fst snd] in P. destruct P as [P1 P2].
    split; [|exact P2].
    intros ->. destruct (P1 PollLoop eq_refl) as (_ & F & C).
    split; [exact F | exact C].
  - exact IH.
Qed.

(** Every request of the loop goes to the URL of a chunk request or to
    the URL of a readiness check. *)
Lemma LoopRun_urls fuel o out n :
  Run fuel o out n ->
  forall req answer,
    In (EvFetch req answer) n ->
    (exists o', req = requestAt o')
    \/ (exists fileName, req = mkRequest (checkUrl apiKey fileName) "GET" [] NoBody).
Proof.
  induction 1 as [fuel o Hge|o Hlt|fuel o e Hlt|fuel o r Hlt Hv
                 |fuel o r h out n Hlt Hv Hfin|fuel o r out n Hlt Hv Hrun IH];
    intros req answer Hin; cbn [In] in Hin.
  - contradiction.
  - contradiction.
  - destruct Hin as [E|[]]. injection E as <- _. left. eexists; reflexivity.
  - destruct Hin as [E|[]]. injection E as <- _. left. eexists; reflexivity.
  - destruct Hin as [E|[E|Hin]]; [|discriminate|].
    + injection E as <- _. left. eexists; reflexivity.
    + destruct (finishUpload_alternating w apiKey pollFuel r h) as [name A].
      rewrite Hfin in A. right. exists name.
      exact (alternating_check _ _ A req answer Hin).
  - destruct Hin as [E|[E|Hin]]; [|discriminate|].
    + injection E as <- _. left. eexists; reflexivity.
    + exact (IH req answer Hin).
Qed.

(** Chunks start at multiples of the chunk size. *)
Lemma LoopRun_aligned fuel o out n :
  Run fuel o out n -> 0 <= o -> (o mod chunkSize = 0 \/ size <= o) ->
  forall c, In c (chunksSent n) -> blobStart c mod chunkSize = 0.
Proof.
  induction 1 as [fuel o Hge|o Hlt|fuel o e Hlt|fuel o r Hlt Hv
                 |fuel o r h out n Hlt Hv Hfin|fuel o r out n Hlt Hv Hrun IH];
    intros H0 Hal c; unfold chunksSent; cbn [flat_map];
    rewrite ?(chunkOf_request chunkSize file requestAt chunkSize_pos requestAt_body)
      by assumption;
    cbn [chunkOf app In]; try contradiction.
  - intros [<-|[]]. cbn. destruct Hal; [assumption|lia].
  - intros [<-|[]]. cbn. destruct Hal; [assumption|lia].
  - destruct (finishUpload_run _ _ _ _ _ _ _ Hfin) as [P _].
    apply poll_events_silent in P as (Pc & _). unfold chunksSent in Pc.
    rewrite Pc. intros [<-|[]]. cbn. destruct Hal; [assumption|lia].
  - intros [<-|Hin]; [cbn; destruct Hal; [assumption|lia]|].
    pose proof (next_bounds chunkSize file chunkSize_pos o Hlt) as B.
    apply (IH ltac:(lia)); [|exact Hin].
    unfold nextOffset in *.
    destruct (Z.le_gt_cases (o + chunkSize) size) as [L|G].
    + left. rewrite Z.min_l by lia. destruct Hal as [A|A]; [|lia].
      rewrite <- Zplus_mod_idemp_l, A, Z.add_0_l. apply Z_mod_same_full.
    + right. rewrite Z.min_r by lia. lia.
Qed.

(** The chunk that ends the file is the last chunk sent. *)
Lemma LoopRun_final_last fuel o out n :
  Run fuel o out n -> 0 <= o ->
  forall c, In c (chunksSent n) -> blobEnd c = size ->
    exists before, chunksSent n = (before ++ [c])%list.
Proof.
  induction 1 as [fuel o Hge|o Hlt|fuel o e Hlt|fuel o r Hlt Hv
                 |fuel o r h out n Hlt Hv Hfin|fuel o r out n Hlt Hv Hrun IH];
    intros H0 c; unfold chunksSent; cbn [flat_map];
    rewrite ?(chunkOf_request chunkSize file requestAt chunkSize_pos requestAt_body)
      by assumption;
    cbn [chunkOf app In]; try contradiction.
  - intros [<-|[]] _. exists []. reflexivity.
  - intros [<-|[]] _. exists []. reflexivity.
  - destruct (finishUpload_run _ _ _ _ _ _ _ Hfin) as [P _].
    apply poll_events_silent in P as (Pc & _). unfold chunksSent in Pc.
    rewrite Pc. intros [<-|[]] _. exists []. reflexivity.
  - intros [<-|Hin] Hend.
    + cbn in Hend. exists [].
      inversion Hrun; subst; try lia. reflexivity.
    + pose proof (next_bounds chunkSize file chunkSize_pos o Hlt) as B.
      destruct (IH ltac:(lia) c Hin Hend) as [before E]. unfold chunksSent in E.
      exists (mkBlob o (next o) :: before). rewrite E. reflexivity.
Qed.

(** The exchange that completes the upload is the last chunk exchange,
    wherever its chunk lies in the file. *)
Lemma LoopRun_completed_last fuel o out n :
  Run fuel o out n -> 0 <= o ->
  forall req r c,
    In (EvFetch req (inr r)) n -> body req = BlobBody c ->
    verdict (blobStart c) r = Complete ->
    (exists before, chunksSent n = (before ++ [c])%list)
    /\ contiguous o (chunksSent n) (blobEnd c).
Proof.
  induction 1 as [fuel o Hge|o Hlt|fuel o e Hlt|fuel o r Hlt Hv
                 |fuel o r h out n Hlt Hv Hfin|fuel o r out n Hlt Hv Hrun IH];
    intros H0 req r' c Hin Hb Hc; cbn [In] in Hin; try contradiction.
  - destruct Hin as [E|[]]. discriminate.
  - destruct Hin as [E|[]]. injection E as <- <-.
    rewrite requestAt_body, (slice_exact chunkSize file chunkSize_pos) in Hb
      by assumption.
    injection Hb as <-. cbn in Hc. congruence.
  - pose proof (next_bounds chunkSize file chunkSize_pos o Hlt) as B.
    destruct (finishUpload_run _ _ _ _ _ _ _ Hfin) as [P _].
    pose proof (poll_events_silent _ P) as (Pc & _).
    unfold chunksSent in *. cbn [flat_map].
    rewrite (chunkOf_request chunkSize file requestAt chunkSize_pos requestAt_body)
      by assumption.
    cbn [chunkOf app]. rewrite Pc.
    destruct Hin as [E|[E|Hin]]; [|discriminate|].
    + injection E as <- <-.
      rewrite requestAt_body, (slice_exact chunkSize file chunkSize_pos) in Hb
        by assumption.
      injection Hb as <-. split; [exists []; reflexivity|].
      cbn. repeat split; lia.
    + exfalso. exact (poll_event_no_chunk _ _ _ _ P Hin Hb).
  - pose proof (next_bounds chunkSize file chunkSize_pos o Hlt) as B.
    unfold chunksSent in *. cbn [flat_map].
    rewrite (chunkOf_request chunkSize file requestAt chunkSize_pos requestAt_body)
      by assumption.
    cbn [chunkOf app].
    destruct Hin as [E|[E|Hin]]; [|discriminate|].
    + injection E as <- <-.
      rewrite requestAt_body, (slice_exact chunkSize file chunkSize_pos) in Hb
        by assumption.
      injection Hb as <-. cbn in Hc. congruence.
    + destruct (IH ltac:(lia) req r' c Hin Hb Hc) as [[before E] Hcont].
      split.
      * exists (mkBlob o (next o) :: before). rewrite E. reflexivity.
      * cbn. repeat split; try lia. exact Hcont.
Qed.

(** When every chunk, the last one included, is answered "resume", the
    loop runs out of file. *)
Lemma LoopRun_all_resumed fuel o out n :
  Run fuel o out n ->
  (forall o r, (Response.status r =? 308) = true -> verdict o r = Continue) ->
  0 <= o -> (remaining chunkSize file o <= fuel)%nat ->
  forallb (fun ev => match answerOf ev with
                     | Some (_, inr r) => Response.status r =? 308
                     | Some (_, inl _) => false
                     | None => true
                     end) n = true ->
  out = Thrown (Error "Upload loop finished without returning URI").
Proof.
  intros L Hres. revert L.
  induction 1 as [fuel o Hge|o Hlt|fuel o e Hlt|fuel o r Hlt Hv
                 |fuel o r h out n Hlt Hv Hfin|fuel o r out n Hlt Hv Hrun IH];
    intros H0 Hfuel; cbn [forallb];
    rewrite ?(answerOf_request chunkSize file requestAt chunkSize_pos requestAt_body)
      by assumption;
    try discriminate.
  - reflexivity.
  - rewrite (left_step chunkSize file chunkSize_pos o Hlt) in Hfuel. lia.
  - rewrite andb_true_r. intros H. rewrite (Hres _ _ H) in Hv. discriminate.
  - intros H. apply andb_prop in H as [H _].
    rewrite (Hres _ _ H) in Hv. discriminate.
  - intros H. apply andb_prop in H as [_ H]. cbn in H.
    pose proof (next_bounds chunkSize file chunkSize_pos o Hlt) as B.
    apply IH; [lia| |exact H].
    rewrite (left_step chunkSize file chunkSize_pos o Hlt) in Hfuel. lia.
Qed.

End PollingFacts.

(** ** A rejected request *)

Lemma pollLoop_rejected (w : World) (apiKey fileName : string) :
  forall (fuel : nat) (state : option string) (h : Trace)
         (req : Request) (e : Exn),
    In (EvFetch req (inl e)) (snd (pollLoop w apiKey fileName fuel state h)) ->
    fst (pollLoop w apiKey fileName fuel state h) = Thrown e
    /\ exists before,
         snd (pollLoop w apiKey fileName fuel state h)
         = (before ++ [EvFetch req (inl e)])%list.
Proof.
  induction fuel as [|fuel IH]; intros state h req e; cbn [pollLoop].
  - destruct (JS.strictEq state "PROCESSING"); cbn; contradiction.
  - destruct (JS.strictEq state "PROCESSING"); [|cbn; contradiction].
    unfold bind, sleep, emit, fetch.
    match goal with |- context [fetchOracle w ?h' ?q] =>
      destruct (fetchOracle w h' q) as [e0|r0] end.
    + cbn. intros [H|[H|[]]]; [discriminate|].
      injection H as <- <-. split; [reflexivity|].
      exists [EvSleep 2000]. reflexivity.
    + destruct (Response.json r0) as [e0|d0]; cbn [settle throw ret].
      * cbn. intros [H|[H|[]]]; discriminate.
      * destruct (JS.strictEq (Json.state d0) "FAILED").
        -- cbn. intros [H|[H|[]]]; discriminate.
        -- match goal with |- context [pollLoop w apiKey fileName fuel ?st ?h'] =>
             specialize (IH st h' req e);
             destruct (pollLoop w apiKey fileName fuel st h') as [o n] end.
           cbn [fst snd app] in *. rewrite ?app_nil_r.
           intros [H|[H|H]]; [discriminate|discriminate|].
           destruct (IH H) as [-> [before ->]]. split; [reflexivity|].
           eexists (EvSleep 2000 :: EvFetch _ _ :: before). reflexivity.
Qed.

Lemma finishUpload_rejected (w : World) (apiKey : string) (pollFuel : nat)
    (r0 : Response.t) (h : Trace) (req : Request) (e : Exn) :
  In (EvFetch req (inl e)) (snd (finishUpload w apiKey pollFuel r0 h)) ->
  fst (finishUpload w apiKey pollFuel r0 h) = Thrown e
  /\ exists before,
       snd (finishUpload w apiKey pollFuel r0 h)
       = (before ++ [EvFetch req (inl e)])%list.
Proof.
  unfold finishUpload, bind, getFile.
  destruct (Response.json r0) as [e0|d0]; cbn [settle throw ret]; [cbn; contradiction|].
  destruct (Json.file d0) as [f|]; cbn [throw ret]; [|cbn; contradiction].
  match goal with |- context [pollLoop w apiKey ?nm pollFuel ?st ?h'] =>
    pose proof (pollLoop_rejected w apiKey nm pollFuel st h' req e) as P;
    destruct (pollLoop w apiKey nm pollFuel st h') as [[u|e0|l] n] end;
    cbn [fst snd app] in *; rewrite ?app_nil_r; intros Hin;
    destruct (P Hin) as [E B]; try discriminate.
  split; [injection E as ->; reflexivity | exact B].
Qed.

Section RejectedFacts.

Variables (w : World) (chunkSize : Z) (file : File.t).
Variables (apiKey : string) (pollFuel : nat).
Variable requestAt : Z -> Request.
Variable verdict : Z -> Response.t -> Verdict.

Lemma LoopRun_rejected fuel o out n :
  LoopRun w chunkSize file apiKey pollFuel requestAt verdict fuel o out n ->
  forall req e,
    In (EvFetch req (inl e)) n ->
    out = Thrown e /\ exists before, n = (before ++ [EvFetch req (inl e)])%list.
Proof.
  induction 1 as [fuel o Hge|o Hlt|fuel o e Hlt|fuel o r Hlt Hv
                 |fuel o r h out n Hlt Hv Hfin|fuel o r out n Hlt Hv Hrun IH];
    intros req e' Hin; cbn [In] in Hin.
  - contradiction.
  - contradiction.
  - destruct Hin as [E|[]]. injection E as <- <-.
    split; [reflexivity | exists []; reflexivity].
  - destruct Hin as [E|[]]. discriminate.
  - destruct Hin as [E|[E|Hin]]; [discriminate|discriminate|].
    pose proof (finishUpload_rejected w apiKey pollFuel r h req e') as P.
    rewrite Hfin in P. destruct (P Hin) as [E [before B]]. cbn [fst snd] in *.
    split; [exact E|]. subst n.
    eexists (EvFetch _ _ :: EvProgress _ :: before). reflexivity.
  - destruct Hin as [E|[E|Hin]]; [discriminate|discriminate|].
    destruct (IH req e' Hin) as [E [before B]].
    split; [exact E|]. subst n.
    eexists (EvFetch _ _ :: EvProgress _ :: before). reflexivity.
Qed.

End RejectedFacts.

(** ** A run of [uploadToGemini], case by case *)

Lemma upload_cases (rev : Revision) (w : World) (chunkSize : Z)
    (pollFuel fuel : nat) (file : File.t) (apiKey : string) (h : Trace) :
  let answer := fetchOracle w h (startRequest file apiKey) in
  let run := uploadToGemini rev w chunkSize pollFuel fuel file apiKey h in
  (sessionOpened answer = true
   /\ exists out n,
        LoopRun w chunkSize file apiKey pollFuel
          (requestAt rev chunkSize file
             (targetUrl rev apiKey (announcedUrl answer))
             (JS.or_else (File.type file) "application/octet-stream"))
          (verdict rev chunkSize file) fuel 0 out n
        /\ run = (out, EvFetch (startRequest file apiKey) answer :: n))
  \/ (sessionOpened answer = false
      /\ run = (Thrown (startFailure answer),
                [EvFetch (startRequest file apiKey) answer])).
Proof.
  intros answer run.
  pose proof (upload_shape rev w chunkSize pollFuel fuel file apiKey h) as S.
  unfold UploadShape in S. fold answer run in S.
  destruct (sessionOpened answer).
  - left. split; [reflexivity | exact S].
  - right. split; [reflexivity | exact S].
Qed.

Lemma in_chunksSent (n : list Event) (c : Blob) :
  In c (chunksSent n)
  <-> exists req answer, In (EvFetch req answer) n /\ body req = BlobBody c.
Proof.
  unfold chunksSent. rewrite in_flat_map. split.
  - intros (ev & Hin & Hc). destruct ev as [req answer| | | |]; cbn in Hc;
      try contradiction.
    destruct (body req) as [| |c'] eqn:Hb; cbn in Hc; try contradiction.
    destruct Hc as [<-|[]]. exists req, answer. split; assumption.
  - intros (req & answer & Hin & Hb). exists (EvFetch req answer).
    split; [exact Hin|]. cbn. rewrite Hb. left. reflexivity.
Qed.

(** * Further properties of the service *)

(** X1.  Whatever the server answers, every chunk sent is a block of the
    file: it starts inside the file at a multiple of the chunk size and
    reaches to the next multiple or to the end of the file; and nothing is
    sent after the block that ends the file. *)
Theorem chunks_are_blocks :
  forall (rev : Revision) (w : World) (chunkSize : Z) (pollFuel fuel : nat)
         (file : File.t) (apiKey : string) (h : Trace),
    let run := uploadToGemini rev w chunkSize pollFuel fuel file apiKey h in
    0 < chunkSize ->
    Forall (isBlock chunkSize (File.size file)) (chunksSent (snd run))
    /\ (forall c, In c (chunksSent (snd run)) -> blobEnd c = File.size file ->
        exists before, chunksSent (snd run) = (before ++ [c])%list).
Proof.
  intros rev w chunkSize pollFuel fuel file apiKey h run Hchunk.
  destruct (upload_cases rev w chunkSize pollFuel fuel file apiKey h)
    as [(_ & out & n & L & E)|(_ & E)]; fold run in E; rewrite E; cbn [snd].
  - change (chunksSent (EvFetch (startRequest file apiKey)
                          (fetchOracle w h (startRequest file apiKey)) :: n))
      with (chunksSent n).
    split.
    + apply Forall_forall. intros c Hin.
      pose proof (LoopRun_aligned _ _ _ _ _ _ _ Hchunk
                    (requestAt_body rev chunkSize file _ _) _ _ _ _ L
                    ltac:(lia) (or_introl (Zmod_0_l chunkSize)) c Hin) as Hal.
      apply in_chunksSent in Hin as (req & answer & Hin & Hb).
      destruct (LoopRun_requests_bounded _ _ _ _ _ _ _ Hchunk
                  (requestAt_body rev chunkSize file _ _) _ _ _ _ L
                  ltac:(lia) req answer c Hin Hb) as (o & Ho & _ & ->).
      unfold isBlock. cbn in *. repeat split; try lia; exact Hal.
    + exact (LoopRun_final_last _ _ _ _ _ _ _ Hchunk
               (requestAt_body rev chunkSize file _ _) _ _ _ _ L ltac:(lia)).
  - split; [constructor | intros c []].
Qed.

Lemma chunks_are_blocks_witness :
  Forall (isBlock UPLOAD_CHUNK_SIZE (File.size lecture))
    (chunksSent
       (snd (uploadToGemini UnifiedRevision brokenMidway UPLOAD_CHUNK_SIZE
               5 3 lecture "K" [])))
  /\ (forall c,
        In c (chunksSent
                (snd (uploadToGemini UnifiedRevision brokenMidway
                        UPLOAD_CHUNK_SIZE 5 3 lecture "K" []))) ->
        blobEnd c = File.size lecture ->
        exists before,
          chunksSent
            (snd (uploadToGemini UnifiedRevision brokenMidway UPLOAD_CHUNK_SIZE
                    5 3 lecture "K" []))
          = (before ++ [c])%list).
Proof.
  apply (chunks_are_blocks UnifiedRevision brokenMidway UPLOAD_CHUNK_SIZE
           5%nat 3%nat lecture "K" []).
  reflexivity.
Defined.

(** X2.  In the revision with [Content-Range], every chunk request is a
    [PUT] to the upload target whose [Content-Range] header names exactly
    the bytes of its body, with an inclusive end, and the size of the
    file. *)
Theorem content_range_names_the_body :
  forall (w : World) (chunkSize : Z) (pollFuel fuel : nat)
         (file : File.t) (apiKey : string) (h : Trace)
         (req : Request) (answer : Exn + Response.t) (c : Blob),
    let run := uploadToGemini ContentRangeRevision w chunkSize pollFuel fuel
                 file apiKey h in
    0 < chunkSize ->
    In (EvFetch req answer) (snd run) -> body req = BlobBody c ->
    method req = "PUT"
    /\ headers req
       = [ ("Content-Range",
            "bytes " ++ JS.toString (blobStart c) ++ "-"
            ++ JS.toString (blobEnd c - 1) ++ "/"
            ++ JS.toString (File.size file));
           ("Content-Type",
            JS.or_else (File.type file) "application/octet-stream") ]
    /\ url req
       = ContentRange.targetUrl apiKey
           (announcedUrl (fetchOracle w h (startRequest file apiKey))).
Proof.
  intros w chunkSize pollFuel fuel file apiKey h req answer c run Hchunk.
  destruct (upload_cases ContentRangeRevision w chunkSize pollFuel fuel file
              apiKey h) as [(_ & out & n & L & E)|(_ & E)];
    fold run in E; rewrite E; cbn [snd In]; intros [Hin|Hin] Hb;
    try (injection Hin as <- _; cbn in Hb; discriminate Hb);
    try contradiction.
  destruct (LoopRun_requests_bounded _ _ _ _ _ _ _ Hchunk
              (requestAt_body ContentRangeRevision chunkSize file _ _)
              _ _ _ _ L ltac:(lia) req answer c Hin Hb) as (o & Ho & -> & ->).
  cbn. repeat split.
Qed.

Lemma content_range_names_the_body_witness :
  method (RangeShape.requestAt UPLOAD_CHUNK_SIZE lecture
            (absoluteUploadUrl ++ "&key=K") "video/mp4" 16777216) = "PUT"
  /\ headers (RangeShape.requestAt UPLOAD_CHUNK_SIZE lecture
                (absoluteUploadUrl ++ "&key=K") "video/mp4" 16777216)
     = [ ("Content-Range", "bytes 16777216-20971519/20971520");
         ("Content-Type", "video/mp4") ]
  /\ url (RangeShape.requestAt UPLOAD_CHUNK_SIZE lecture
            (absoluteUploadUrl ++ "&key=K") "video/mp4" 16777216)
     = absoluteUploadUrl ++ "&key=K".
Proof.
  apply (content_range_names_the_body healthy UPLOAD_CHUNK_SIZE 5%nat 3%nat
           lecture "K" []
           (RangeShape.requestAt UPLOAD_CHUNK_SIZE lecture
              (absoluteUploadUrl ++ "&key=K") "video/mp4" 16777216)
           (inr (createdResponse "PROCESSING"))
           (mkBlob 16777216 20971520)).
  - reflexivity.
  - vm_compute. do 5 right. left. reflexivity.
  - reflexivity.
Defined.

(** X3.  In the revision with [X-Goog-Upload-Command], every chunk request
    is a [POST] to the upload target that announces the offset of its
    body, and asks to finalize exactly when its body ends the file. *)
Theorem finalize_marks_the_last_block :
  forall (w : World) (chunkSize : Z) (pollFuel fuel : nat)
         (file : File.t) (apiKey : string) (h : Trace)
         (req : Request) (answer : Exn + Response.t) (c : Blob),
    let run := uploadToGemini UnifiedRevision w chunkSize pollFuel fuel
                 file apiKey h in
    0 < chunkSize ->
    In (EvFetch req answer) (snd run) -> body req = BlobBody c ->
    method req = "POST"
    /\ headers req
       = [ ("Content-Type",
            JS.or_else (File.type file) "application/octet-stream");
           ("X-Goog-Upload-Offset", JS.toString (blobStart c));
           ("X-Goog-Upload-Command",
            if blobEnd c =? File.size file then "upload, finalize" else "upload") ]
    /\ url req
       = Unified.targetUrl apiKey
           (announcedUrl (fetchOracle w h (startRequest file apiKey))).
Proof.
  intros w chunkSize pollFuel fuel file apiKey h req answer c run Hchunk.
  destruct (upload_cases UnifiedRevision w chunkSize pollFuel fuel file
              apiKey h) as [(_ & out & n & L & E)|(_ & E)];
    fold run in E; rewrite E; cbn [snd In]; intros [Hin|Hin] Hb;
    try (injection Hin as <- _; cbn in Hb; discriminate Hb);
    try contradiction.
  destruct (LoopRun_requests_bounded _ _ _ _ _ _ _ Hchunk
              (requestAt_body UnifiedRevision chunkSize file _ _)
              _ _ _ _ L ltac:(lia) req answer c Hin Hb) as (o & Ho & -> & ->).
  cbn. repeat split.
Qed.

Lemma finalize_marks_the_last_block_witness :
  method (UnifiedShape.requestAt UPLOAD_CHUNK_SIZE lecture
            (absoluteUploadUrl ++ "&key=K") "video/mp4" 16777216) = "POST"
  /\ headers (UnifiedShape.requestAt UPLOAD_CHUNK_SIZE lecture
                (absoluteUploadUrl ++ "&key=K") "video/mp4" 16777216)
     = [ ("Content-Type", "video/mp4");
         ("X-Goog-Upload-Offset", "16777216");
         ("X-Goog-Upload-Command", "upload, finalize") ]
  /\ url (UnifiedShape.requestAt UPLOAD_CHUNK_SIZE lecture
            (absoluteUploadUrl ++ "&key=K") "video/mp4" 16777216)
     = absoluteUploadUrl ++ "&key=K".
Proof.
  apply (finalize_marks_the_last_block healthy UPLOAD_CHUNK_SIZE 5%nat 3%nat
           lecture "K" []
           (UnifiedShape.requestAt UPLOAD_CHUNK_SIZE lecture
              (absoluteUploadUrl ++ "&key=K") "video/mp4" 16777216)
           (inr (createdResponse "PROCESSING"))
           (mkBlob 16777216 20971520)).
  - reflexivity.
  - vm_compute. do 5 right. left. reflexivity.
  - reflexivity.
Defined.

Lemma startUrl_has_key (file : File.t) (apiKey : string) :
  JS.includes (url (startRequest file apiKey)) "key=" = true.
Proof.
  change (url (startRequest file apiKey))
    with ((API_HOST ++ "/upload/v1beta/files?") ++ "key=" ++ apiKey).
  apply includes_inserted.
Qed.

Lemma checkUrl_has_key (apiKey fileName : string) :
  JS.includes (checkUrl apiKey fileName) "key=" = true.
Proof.
  unfold checkUrl.
  replace (API_HOST ++ "/v1beta/" ++ fileName ++ "?key=" ++ apiKey)
    with ((API_HOST ++ "/v1beta/" ++ fileName ++ "?") ++ "key=" ++ apiKey).
  - apply includes_inserted.
  - rewrite !append_assoc. reflexivity.
Qed.

(** X4.  Every request of an upload carries a [key=] in its URL: the
    start request and the readiness checks by construction, the chunk
    requests because the key is appended to the upload URL when the server
    did not put one. *)
Theorem every_request_carries_key :
  forall (rev : Revision) (w : World) (chunkSize : Z) (pollFuel fuel : nat)
         (file : File.t) (apiKey : string) (h : Trace),
    forallb carriesKey
      (snd (uploadToGemini rev w chunkSize pollFuel fuel file apiKey h)) = true.
Proof.
  intros rev w chunkSize pollFuel fuel file apiKey h.
  destruct (upload_cases rev w chunkSize pollFuel fuel file apiKey h)
    as [(_ & out & n & L & E)|(_ & E)]; rewrite E; cbn [snd forallb carriesKey];
    rewrite startUrl_has_key; [|reflexivity].
  cbn [andb]. apply forallb_forall. intros [req answer| | | |] Hin;
    try reflexivity.
  cbn [carriesKey].
  destruct (LoopRun_urls _ _ _ _ _ _ _ _ _ _ _ L req answer Hin)
    as [[o ->]|[name ->]].
  - rewrite requestAt_url. apply target_has_key.
  - apply checkUrl_has_key.
Qed.

Lemma waits_match_checks (rev : Revision) (w : World)
    (chunkSize : Z) (pollFuel fuel : nat) (file : File.t) (apiKey : string)
    (h : Trace) :
  countSleeps (snd (uploadToGemini rev w chunkSize pollFuel fuel file apiKey h))
  = List.length
      (checksMade (snd (uploadToGemini rev w chunkSize pollFuel fuel file apiKey h))).
Proof.
  destruct (upload_cases rev w chunkSize pollFuel fuel file apiKey h)
    as [(_ & out & n & L & E)|(_ & E)]; rewrite E; cbn [snd]; [|reflexivity].
  destruct (LoopRun_phases _ _ _ _ _ _ _
              (requestAt_body rev chunkSize file _ _) _ _ _ _ L)
    as (up & poll & name & -> & Hup & Hpoll).
  destruct (alternating_counts _ _ Hpoll) as [Hcount _].
  unfold countSleeps, checksMade in *. cbn [filter isCheck body startRequest].
  rewrite !filter_app, !length_app, Hcount.
  assert (Hnone : forall P : Event -> bool,
             (forall ev, isUploadEvent ev = true -> P ev = false) ->
             filter P up = []).
  { intros P HP. clear - Hup HP. induction up as [|ev up IH]; [reflexivity|].
    cbn in *. apply andb_prop in Hup as [H1 H2].
    rewrite (HP ev H1). exact (IH H2). }
  rewrite !Hnone; [reflexivity| |].
  - intros [q a| | | |]; cbn; try discriminate; try reflexivity.
    destruct (body q); try discriminate; reflexivity.
  - intros [q a| | | |]; cbn; try discriminate; reflexivity.
Qed.

(** X5.  The events of an upload come in three phases: the start
    exchange; then chunk exchanges and progress reports only; then waits of
    two seconds, each followed by one [GET] of the same resource URL.  No
    chunk is sent once the polling has begun, and there are as many waits
    as readiness checks. *)
Theorem upload_runs_in_phases :
  forall (rev : Revision) (w : World) (chunkSize : Z) (pollFuel fuel : nat)
         (file : File.t) (apiKey : string) (h : Trace),
    let run := uploadToGemini rev w chunkSize pollFuel fuel file apiKey h in
    exists chunkPhase pollPhase fileName,
      snd run
      = (EvFetch (startRequest file apiKey)
           (fetchOracle w h (startRequest file apiKey))
           :: chunkPhase ++ pollPhase)%list
      /\ forallb isUploadEvent chunkPhase = true
      /\ alternating (checkUrl apiKey fileName) pollPhase
      /\ countSleeps (snd run) = List.length (checksMade (snd run)).
Proof.
  intros rev w chunkSize pollFuel fuel file apiKey h run.
  destruct (upload_cases rev w chunkSize pollFuel fuel file apiKey h)
    as [(_ & out & n & L & E)|(_ & E)]; fold run in E; rewrite E; cbn [snd].
  - destruct (LoopRun_phases _ _ _ _ _ _ _
                (requestAt_body rev chunkSize file _ _) _ _ _ _ L)
      as (up & poll & name & -> & Hup & Hpoll).
    exists up, poll, name. repeat split; try assumption.
    pose proof (waits_match_checks rev w chunkSize pollFuel fuel file
                  apiKey h) as Hcount.
    fold run in Hcount. rewrite E in Hcount. exact Hcount.
  - exists [], [], "". repeat split.
Qed.

(** X6.  The polling has no limit of its own: when readiness checks were
    made and every one of them said PROCESSING, the loop is still running
    after as many waits as it was given steps, whatever that number. *)
Theorem polling_has_no_limit :
  forall (rev : Revision) (w : World) (chunkSize : Z) (pollFuel fuel : nat)
         (file : File.t) (apiKey : string) (h : Trace),
    let run := uploadToGemini rev w chunkSize pollFuel fuel file apiKey h in
    existsb isCheck (snd run) = true ->
    forallb stillProcessing (snd run) = true ->
    fst run = Pending PollLoop
    /\ countSleeps (snd run) = pollFuel
    /\ List.length (checksMade (snd run)) = pollFuel.
Proof.
  intros rev w chunkSize pollFuel fuel file apiKey h run.
  pose proof (waits_match_checks rev w chunkSize pollFuel fuel file
                apiKey h) as Hcount.
  fold run in Hcount.
  destruct (upload_cases rev w chunkSize pollFuel fuel file apiKey h)
    as [(_ & out & n & L & E)|(_ & E)]; fold run in E; rewrite E in *;
    cbn [fst snd existsb forallb isCheck stillProcessing body startRequest orb andb]
      in *;
    [|discriminate].
  intros Hex Hall.
  destruct (LoopRun_pending _ _ _ _ _ _ _
              (requestAt_body rev chunkSize file _ _) _ _ _ _ L) as [P1 P2].
  specialize (P2 Hex Hall). subst out.
  destruct (P1 eq_refl) as [_ C].
  split; [reflexivity|]. rewrite <- Hcount. 
  change (countSleeps (EvFetch (startRequest file apiKey)
                         (fetchOracle w h (startRequest file apiKey)) :: n))
    with (countSleeps n).
  split; exact C.
Qed.

Lemma polling_has_no_limit_witness :
  fst (uploadToGemini UnifiedRevision stuck UPLOAD_CHUNK_SIZE 7 3 lecture "K" [])
  = Pending PollLoop
  /\ countSleeps
       (snd (uploadToGemini UnifiedRevision stuck UPLOAD_CHUNK_SIZE 7 3 lecture
               "K" [])) = 7%nat
  /\ List.length
       (checksMade
          (snd (uploadToGemini UnifiedRevision stuck UPLOAD_CHUNK_SIZE 7 3
                  lecture "K" []))) = 7%nat.
Proof.
  apply (polling_has_no_limit UnifiedRevision stuck UPLOAD_CHUNK_SIZE
           7%nat 3%nat lecture "K" []);
    vm_compute; reflexivity.
Defined.

(** X7.  The status of a readiness check is never looked at, only the
    [state] of its body: a check answered with a body that says neither
    PROCESSING nor FAILED, be it an error response whose body has no
    [state] at all, ends the polling and the upload returns the URI. *)
Theorem check_without_state_ends_polling :
  forall (rev : Revision) (w : World) (chunkSize : Z) (pollFuel fuel : nat)
         (file : File.t) (apiKey : string) (h : Trace)
         (req : Request) (r : Response.t) (d : Json.t),
    let run := uploadToGemini rev w chunkSize pollFuel fuel file apiKey h in
    In (EvFetch req (inr r)) (snd run) -> body req = NoBody ->
    Response.json r = inr d ->
    JS.strictEq (Json.state d) "PROCESSING" = false ->
    JS.strictEq (Json.state d) "FAILED" = false ->
    (exists fileUri, fst run = Returned fileUri)
    /\ exists before, snd run = (before ++ [EvFetch req (inr r)])%list.
Proof.
  intros rev w chunkSize pollFuel fuel file apiKey h req r d run.
  destruct (upload_cases rev w chunkSize pollFuel fuel file apiKey h)
    as [(_ & out & n & L & E)|(_ & E)]; fold run in E; rewrite E;
    cbn [fst snd In]; intros [Hin|Hin] Hb Hd Hp Hf;
    try (injection Hin as <- _; cbn in Hb; discriminate Hb);
    try contradiction.
  pose proof (LoopRun_said _ _ _ _ _ _ _
                (requestAt_body rev chunkSize file _ _) _ _ _ _ L
                req r d Hin Hb Hd Hp) as S.
  rewrite Hf in S. split; [exact S|].
  destruct (LoopRun_last_check _ _ _ _ _ _ _
              (requestAt_body rev chunkSize file _ _) _ _ _ _ L
              req r d Hin Hb Hd Hp) as [before ->].
  eexists (EvFetch _ _ :: before). reflexivity.
Qed.

Lemma check_without_state_ends_polling_witness :
  (exists fileUri,
      fst (uploadToGemini UnifiedRevision forgotten UPLOAD_CHUNK_SIZE 5 3
             lecture "K" []) = Returned fileUri)
  /\ exists before,
       snd (uploadToGemini UnifiedRevision forgotten UPLOAD_CHUNK_SIZE 5 3
              lecture "K" [])
       = (before
            ++ [EvFetch (mkRequest (checkUrl "K" "files/abc") "GET" [] NoBody)
                  (inr (Response.make 404 "Not Found" None ""
                          (inr (Json.make None None))))])%list.
Proof.
  apply (check_without_state_ends_polling UnifiedRevision forgotten
           UPLOAD_CHUNK_SIZE 5%nat 3%nat lecture "K" []
           (mkRequest (checkUrl "K" "files/abc") "GET" [] NoBody)
           (Response.make 404 "Not Found" None "" (inr (Json.make None None)))
           (Json.make None None)).
  - vm_compute. do 8 right. left. reflexivity.
  - reflexivity.
  - reflexivity.
  - reflexivity.
  - reflexivity.
Defined.

(** X8.  In the revision with [X-Goog-Upload-Command], an upload that
    returns has sent the whole file, block after block without gap; the
    last percentage it reported is 99, and the URI it returns is the one of
    the resource named in the response to the finalizing chunk. *)
Theorem unified_return_means_whole_file :
  forall (w : World) (chunkSize : Z) (pollFuel fuel : nat)
         (file : File.t) (apiKey : string) (h : Trace) (fileUri : string),
    let run := uploadToGemini UnifiedRevision w chunkSize pollFuel fuel
                 file apiKey h in
    0 < chunkSize ->
    fst run = Returned fileUri ->
    contiguous 0 (chunksSent (snd run)) (File.size file)
    /\ sumSizes (chunksSent (snd run)) = File.size file
    /\ (exists reports, progressValues (snd run) = (reports ++ [99])%list)
    /\ exists req c r d f,
         In (EvFetch req (inr r)) (snd run)
         /\ body req = BlobBody c /\ blobEnd c = File.size file
         /\ Response.ok r = true
         /\ Response.json r = inr d /\ Json.file d = Some f
         /\ fileUri = FileResource.uri f.
Proof.
  intros w chunkSize pollFuel fuel file apiKey h fileUri run Hchunk.
  destruct (upload_cases UnifiedRevision w chunkSize pollFuel fuel file
              apiKey h) as [(_ & out & n & L & E)|(_ & E)];
    fold run in E; rewrite E; cbn [fst snd]; [|discriminate].
  intros ->.
  change (chunksSent (EvFetch (startRequest file apiKey)
                        (fetchOracle w h (startRequest file apiKey)) :: n))
    with (chunksSent n).
  change (progressValues (EvFetch (startRequest file apiKey)
                            (fetchOracle w h (startRequest file apiKey)) :: n))
    with (progressValues n).
  destruct (LoopRun_returned _ _ _ _ _ _ _ Hchunk
              (requestAt_body UnifiedRevision chunkSize file _ _)
              _ _ _ _ L ltac:(lia) fileUri eq_refl)
    as (before & last & r & d & f & reports
        & Hc & Hcont & Hlast & Hle & Hnext & Hv & Hin & Hd & Hf & Hu & Hp).
  cbn [verdict] in Hv. unfold UnifiedShape.verdict in Hv.
  destruct (Response.ok r) eqn:Hok; cbn [negb] in Hv; [|discriminate].
  destruct (Z.eqb_spec (nextOffset chunkSize file (blobStart last))
              (File.size file)) as [Hend|Hend]; [|discriminate].
  rewrite Hend in Hnext. rewrite Hnext in *.
  repeat split.
  - exact Hcont.
  - rewrite (contiguous_sum _ _ _ Hcont). lia.
  - exists reports. rewrite Hp, progressOf_full by lia. reflexivity.
  - exists (requestAt UnifiedRevision chunkSize file
              (targetUrl UnifiedRevision apiKey
                 (announcedUrl (fetchOracle w h (startRequest file apiKey))))
              (JS.or_else (File.type file) "application/octet-stream")
              (blobStart last)),
           last, r, d, f.
    repeat split; try assumption.
    + right. exact Hin.
    + rewrite requestAt_body, (slice_exact chunkSize file Hchunk) by lia.
      rewrite Hend, <- Hnext. destruct last; reflexivity.
Qed.

Lemma unified_return_means_whole_file_witness :
  contiguous 0
    (chunksSent
       (snd (uploadToGemini UnifiedRevision healthy UPLOAD_CHUNK_SIZE 5 3
               lecture "K" [])))
    (File.size lecture)
  /\ sumSizes
       (chunksSent
          (snd (uploadToGemini UnifiedRevision healthy UPLOAD_CHUNK_SIZE 5 3
                  lecture "K" []))) = File.size lecture
  /\ (exists reports,
         progressValues
           (snd (uploadToGemini UnifiedRevision healthy UPLOAD_CHUNK_SIZE 5 3
                   lecture "K" [])) = (reports ++ [99])%list)
  /\ exists req c r d f,
       In (EvFetch req (inr r))
          (snd (uploadToGemini UnifiedRevision healthy UPLOAD_CHUNK_SIZE 5 3
                  lecture "K" []))
       /\ body req = BlobBody c /\ blobEnd c = File.size lecture
       /\ Response.ok r = true
       /\ Response.json r = inr d /\ Json.file d = Some f
       /\ "https://generativelanguage.googleapis.com/v1beta/files/abc"
          = FileResource.uri f.
Proof.
  apply (unified_return_means_whole_file healthy UPLOAD_CHUNK_SIZE 5%nat 3%nat
           lecture "K" []
           "https://generativelanguage.googleapis.com/v1beta/files/abc");
    reflexivity.
Defined.

Lemma ok_completes (chunkSize : Z) (file : File.t) (o : Z) (r : Response.t) :
  Response.ok r = true ->
  verdict ContentRangeRevision chunkSize file o r = Complete.
Proof.
  intros Hok. cbn. unfold RangeShape.verdict. rewrite Hok.
  destruct (Response.status r =? 308) eqn:E.
  - rewrite (status_308_not_ok r E) in Hok. discriminate.
  - reflexivity.
Qed.

(** X9.  In the revision with [Content-Range], a chunk answered with an
    [ok] status ends the upload of chunks wherever that chunk lies in the
    file: it is the last chunk sent, and what was sent is the file up to
    the end of that chunk. *)
Theorem content_range_ok_ends_the_upload :
  forall (w : World) (chunkSize : Z) (pollFuel fuel : nat)
         (file : File.t) (apiKey : string) (h : Trace)
         (req : Request) (r : Response.t) (c : Blob),
    let run := uploadToGemini ContentRangeRevision w chunkSize pollFuel fuel
                 file apiKey h in
    0 < chunkSize ->
    In (EvFetch req (inr r)) (snd run) -> body req = BlobBody c ->
    Response.ok r = true ->
    (exists before, chunksSent (snd run) = (before ++ [c])%list)
    /\ contiguous 0 (chunksSent (snd run)) (blobEnd c)
    /\ sumSizes (chunksSent (snd run)) = blobEnd c.
Proof.
  intros w chunkSize pollFuel fuel file apiKey h req r c run Hchunk.
  destruct (upload_cases ContentRangeRevision w chunkSize pollFuel fuel file
              apiKey h) as [(_ & out & n & L & E)|(_ & E)];
    fold run in E; rewrite E; cbn [snd In]; intros [Hin|Hin] Hb Hok;
    try (injection Hin as <- _; cbn in Hb; discriminate Hb);
    try contradiction.
  change (chunksSent (EvFetch (startRequest file apiKey)
                        (fetchOracle w h (startRequest file apiKey)) :: n))
    with (chunksSent n).
  destruct (LoopRun_completed_last _ _ _ _ _ _ _ Hchunk
              (requestAt_body ContentRangeRevision chunkSize file _ _)
              _ _ _ _ L ltac:(lia) req r c Hin Hb
              (ok_completes chunkSize file _ r Hok)) as [Hlast Hcont].
  repeat split; try assumption.
  rewrite (contiguous_sum _ _ _ Hcont). lia.
Qed.

Lemma content_range_ok_ends_the_upload_witness :
  (exists before,
      chunksSent
        (snd (uploadToGemini ContentRangeRevision eager UPLOAD_CHUNK_SIZE 5 3
                lecture "K" []))
      = (before ++ [mkBlob 0 8388608])%list)
  /\ contiguous 0
       (chunksSent
          (snd (uploadToGemini ContentRangeRevision eager UPLOAD_CHUNK_SIZE 5 3
                  lecture "K" [])))
       8388608
  /\ sumSizes
       (chunksSent
          (snd (uploadToGemini ContentRangeRevision eager UPLOAD_CHUNK_SIZE 5 3
                  lecture "K" []))) = 8388608.
Proof.
  apply (content_range_ok_ends_the_upload eager UPLOAD_CHUNK_SIZE 5%nat 3%nat
           lecture "K" []
           (RangeShape.requestAt UPLOAD_CHUNK_SIZE lecture
              (absoluteUploadUrl ++ "&key=K") "video/mp4" 0)
           (createdResponse "ACTIVE") (mkBlob 0 8388608)).
  - reflexivity.
  - vm_compute. right. left. reflexivity.
  - reflexivity.
  - reflexivity.
Defined.

Lemma refused_unexpected (rev : Revision) (chunkSize : Z) (file : File.t)
    (o : Z) (r : Response.t) :
  verdict rev chunkSize file o r = Refuse <-> unexpected rev r = true.
Proof.
  split; [|apply unexpected_refused].
  destruct rev; cbn [unexpected verdict];
    unfold UnifiedProtocol.unexpected, RangeProtocol.unexpected,
           UnifiedShape.verdict, RangeShape.verdict.
  - destruct (negb (Response.ok r)); [reflexivity|].
    destruct (nextOffset chunkSize file o =? File.size file); discriminate.
  - destruct (negb (Response.status r =? 308) && negb (Response.ok r));
      [reflexivity|].
    destruct (Response.ok r && negb (Response.status r =? 308)); discriminate.
Qed.

Section TakenFacts.

Variables (w : World) (chunkSize : Z) (file : File.t).
Variables (apiKey : string) (pollFuel : nat).
Variable requestAt : Z -> Request.
Variable verdict : Z -> Response.t -> Verdict.
Variable unexpected : Response.t -> bool.

Hypothesis chunkSize_pos : 0 < chunkSize.
Hypothesis requestAt_body :
  forall o, body (requestAt o)
            = BlobBody (File.slice file o (nextOffset chunkSize file o)).
Hypothesis refused :
  forall o r, verdict o r = Refuse <-> unexpected r = true.

Local Abbreviation Run := (LoopRun w chunkSize file apiKey pollFuel requestAt verdict).
Local Abbreviation next := (nextOffset chunkSize file).
Local Abbreviation size := (File.size file).
Local Abbreviation taken := (flat_map (takenBy unexpected)).

Lemma poll_events_take_nothing (n : list Event) :
  forallb isPollEvent n = true -> taken n = [].
Proof.
  induction n as [|ev n IH]; cbn [forallb flat_map]; [reflexivity|].
  intros H. apply andb_prop in H as [Hev Hn]. rewrite (IH Hn), app_nil_r.
  destruct ev as [req ans| | | |]; cbn in Hev; try discriminate;
    try reflexivity.
  unfold takenBy. cbn. destruct (body req); try discriminate; reflexivity.
Qed.

Lemma not_refused (o : Z) (r : Response.t) :
  verdict o r <> Refuse -> unexpected r = false.
Proof.
  intros H. destruct (unexpected r) eqn:E; [|reflexivity].
  exfalso. apply H. apply refused. exact E.
Qed.

Lemma taken_request (o : Z) (ans : Exn + Response.t) :
  0 <= o -> o < size ->
  takenBy unexpected (EvFetch (requestAt o) ans)
  = match ans with
    | inr r => if unexpected r then [] else [mkBlob o (next o)]
    | inl _ => []
    end.
Proof.
  intros H0 H1. unfold takenBy.
  rewrite (answerOf_request chunkSize file requestAt chunkSize_pos
             requestAt_body) by assumption.
  reflexivity.
Qed.

(** The reports are the percentages after the chunks taken; of the chunks
    sent only a last one, rejected or refused, is not among them. *)
Lemma LoopRun_taken fuel o out n :
  Run fuel o out n -> 0 <= o ->
  progressValues n = map (percentAfter size) (taken n)
  /\ exists rest,
       chunksSent n = (taken n ++ rest)%list /\ (List.length rest <= 1)%nat
       /\ (forall fileUri, out = Returned fileUri -> rest = []).
Proof.
  induction 1 as [fuel o Hge|o Hlt|fuel o e Hlt|fuel o r Hlt Hv
                 |fuel o r h out n Hlt Hv Hfin|fuel o r out n Hlt Hv Hrun IH];
    intros H0; unfold chunksSent, progressValues; cbn [flat_map];
    rewrite ?(chunkOf_request chunkSize file requestAt chunkSize_pos
                requestAt_body) by assumption;
    rewrite ?taken_request by assumption;
    cbn [progressOfEvent takenBy answerOf app].
  - split; [reflexivity|]. exists [].
    split; [reflexivity|]. split; [cbn; lia | reflexivity].
  - split; [reflexivity|]. exists [].
    split; [reflexivity|]. split; [cbn; lia | reflexivity].
  - split; [reflexivity|]. eexists. split; [reflexivity|].
    split; [cbn; lia | discriminate].
  - rewrite (proj1 (refused o r) Hv).
    split; [reflexivity|]. eexists. split; [reflexivity|].
    split; [cbn; lia | discriminate].
  - rewrite (not_refused o r) by congruence.
    destruct (finishUpload_run _ _ _ _ _ _ _ Hfin) as [P _].
    pose proof (poll_events_silent _ P) as (Pc & Pp & _).
    unfold chunksSent, progressValues in Pc, Pp.
    rewrite Pc, Pp, (poll_events_take_nothing _ P).
    split; [reflexivity|]. exists [].
    split; [reflexivity|]. split; [cbn; lia | reflexivity].
  - rewrite (not_refused o r) by congruence.
    pose proof (next_bounds chunkSize file chunkSize_pos o Hlt) as B.
    destruct (IH ltac:(lia)) as (Hp & rest & Hc & Hl & Hr).
    unfold chunksSent, progressValues in Hp, Hc.
    rewrite Hp, Hc. split; [reflexivity|].
    exists rest. repeat split; assumption.
Qed.

End TakenFacts.

(** X10.  One progress report per chunk that was taken, that is, whose
    request was answered and not with an unexpected status: the
    percentages reported are those after the chunks taken, in order; of
    the chunks sent only a last one, whose request was rejected or refused,
    is not taken, and none on an upload that returns. *)
Theorem progress_once_per_chunk :
  forall (rev : Revision) (w : World) (chunkSize : Z) (pollFuel fuel : nat)
         (file : File.t) (apiKey : string) (h : Trace),
    let run := uploadToGemini rev w chunkSize pollFuel fuel file apiKey h in
    0 < chunkSize ->
    progressValues (snd run)
    = map (percentAfter (File.size file)) (chunksTaken rev (snd run))
    /\ exists rest,
         chunksSent (snd run) = (chunksTaken rev (snd run) ++ rest)%list
         /\ (List.length rest <= 1)%nat
         /\ (forall fileUri, fst run = Returned fileUri -> rest = []).
Proof.
  intros rev w chunkSize pollFuel fuel file apiKey h run Hchunk.
  destruct (upload_cases rev w chunkSize pollFuel fuel file apiKey h)
    as [(_ & out & n & L & E)|(_ & E)]; fold run in E; rewrite E; cbn [fst snd].
  - exact (LoopRun_taken _ _ _ _ _ _ _ (unexpected rev) Hchunk
             (requestAt_body rev chunkSize file _ _)
             (refused_unexpected rev chunkSize file) _ _ _ _ L ltac:(lia)).
  - split; [reflexivity|]. exists []. repeat split. cbn; lia.
Qed.

Lemma progress_once_per_chunk_witness :
  progressValues
    (snd (uploadToGemini UnifiedRevision brokenMidway UPLOAD_CHUNK_SIZE 5 3
            lecture "K" []))
  = map (percentAfter (File.size lecture))
      (chunksTaken UnifiedRevision
         (snd (uploadToGemini UnifiedRevision brokenMidway UPLOAD_CHUNK_SIZE 5 3
                 lecture "K" [])))
  /\ exists rest,
       chunksSent
         (snd (uploadToGemini UnifiedRevision brokenMidway UPLOAD_CHUNK_SIZE 5 3
                 lecture "K" []))
       = (chunksTaken UnifiedRevision
            (snd (uploadToGemini UnifiedRevision brokenMidway UPLOAD_CHUNK_SIZE
                    5 3 lecture "K" [])) ++ rest)%list
       /\ (List.length rest <= 1)%nat
       /\ (forall fileUri,
             fst (uploadToGemini UnifiedRevision brokenMidway UPLOAD_CHUNK_SIZE
                    5 3 lecture "K" []) = Returned fileUri -> rest = []).
Proof.
  apply (progress_once_per_chunk UnifiedRevision brokenMidway UPLOAD_CHUNK_SIZE
           5%nat 3%nat lecture "K" []).
  reflexivity.
Defined.

Lemma resumed_accepted (size : Z) (ev : Event) :
  resumed ev = true -> accepted ContentRangeRevision size ev = true.
Proof.
  unfold resumed. cbn. unfold RangeProtocol.accepted.
  destruct (answerOf ev) as [[c [e|r]]|]; try discriminate; try reflexivity.
  intros ->. reflexivity.
Qed.

(** X11.  In the revision with [Content-Range], when every chunk, the one
    that ends the file included, is answered 308, the whole file is sent
    and the upload then fails with the error of the exhausted loop. *)
Theorem content_range_never_completed :
  forall (w : World) (chunkSize : Z) (pollFuel fuel : nat)
         (file : File.t) (apiKey : string) (h : Trace),
    let size := File.size file in
    let run := uploadToGemini ContentRangeRevision w chunkSize pollFuel fuel
                 file apiKey h in
    0 <= size -> 0 < chunkSize ->
    (Z.to_nat (ceilDiv size chunkSize) <= fuel)%nat ->
    sessionOpened (fetchOracle w h (startRequest file apiKey)) = true ->
    forallb resumed (snd run) = true ->
    fst run = Thrown (Error "Upload loop finished without returning URI")
    /\ chunkPartition chunkSize size (chunksSent (snd run)).
Proof.
  intros w chunkSize pollFuel fuel file apiKey h size run Hsize Hchunk Hfuel
         Hopen.
  assert (Htotal : remaining chunkSize file 0 = Z.to_nat (ceilDiv size chunkSize)).
  { unfold remaining. rewrite Z.sub_0_r. reflexivity. }
  pose proof (upload_shape ContentRangeRevision w chunkSize pollFuel fuel file
                apiKey h) as Hshape.
  fold run in Hshape.
  destruct (upload_cases ContentRangeRevision w chunkSize pollFuel fuel file
              apiKey h) as [(_ & out & n & L & E)|(Hno & _)];
    [|rewrite Hno in Hopen; discriminate].
  fold run in E. intros Hall. split.
  - rewrite E in *. cbn [fst snd forallb] in *.
    apply andb_prop in Hall as [_ Hall].
    apply (LoopRun_all_resumed _ _ _ _ _ _ _ Hchunk
             (requestAt_body ContentRangeRevision chunkSize file _ _)
             _ _ _ _ L); try assumption; try lia.
    intros o r H. cbn. unfold RangeShape.verdict.
    rewrite H, (status_308_not_ok r H). reflexivity.
  - rewrite (upload_chunks_exact _ _ _ _ _ _ _ Hchunk
               (requestAt_body ContentRangeRevision chunkSize file _ _)
               _ _ _ Hshape Hopen).
    + apply plan_partition; assumption.
    + rewrite Htotal. exact Hfuel.
    + apply Forall_forall. intros ev Hin.
      apply accepted_expected. apply resumed_accepted.
      rewrite forallb_forall in Hall. exact (Hall ev Hin).
Qed.

Lemma content_range_never_completed_witness :
  fst (uploadToGemini ContentRangeRevision alwaysResuming UPLOAD_CHUNK_SIZE 5 3
         lecture "K" [])
  = Thrown (Error "Upload loop finished without returning URI")
  /\ chunkPartition UPLOAD_CHUNK_SIZE (File.size lecture)
       (chunksSent
          (snd (uploadToGemini ContentRangeRevision alwaysResuming
                  UPLOAD_CHUNK_SIZE 5 3 lecture "K" []))).
Proof.
  apply (content_range_never_completed alwaysResuming UPLOAD_CHUNK_SIZE
           5%nat 3%nat lecture "K" []);
    first [ reflexivity | vm_compute; lia | vm_compute; discriminate ].
Defined.

(** ** The whole call *)

Lemma upload_returned (rev : Revision) (w : World) (chunkSize : Z)
    (pollFuel fuel : nat) (file : File.t) (apiKey : string) (h : Trace)
    (fileUri : string) :
  let run := uploadToGemini rev w chunkSize pollFuel fuel file apiKey h in
  0 < chunkSize ->
  fst run = Returned fileUri ->
  exists req c r d f,
    In (EvFetch req (inr r)) (snd run) /\ body req = BlobBody c
    /\ verdict rev chunkSize file (blobStart c) r = Complete
    /\ Response.json r = inr d /\ Json.file d = Some f
    /\ fileUri = FileResource.uri f.
Proof.
  intros run Hchunk.
  destruct (upload_cases rev w chunkSize pollFuel fuel file apiKey h)
    as [(_ & out & n & L & E)|(_ & E)];
    fold run in E; rewrite E; cbn [fst snd]; [|discriminate].
  intros ->.
  destruct (LoopRun_returned _ _ _ _ _ _ _ Hchunk
              (requestAt_body rev chunkSize file _ _)
              _ _ _ _ L ltac:(lia) fileUri eq_refl)
    as (before & last & r & d & f & reports
        & Hc & Hcont & Hlast & Hle & Hnext & Hv & Hin & Hd & Hf & Hu & Hp).
  exists (requestAt rev chunkSize file
            (targetUrl rev apiKey
               (announcedUrl (fetchOracle w h (startRequest file apiKey))))
            (JS.or_else (File.type file) "application/octet-stream")
            (blobStart last)),
         last, r, d, f.
  repeat split; try assumption.
  - right. exact Hin.
  - rewrite requestAt_body, (slice_exact chunkSize file Hchunk) by lia.
    rewrite <- Hnext. destruct last; reflexivity.
Qed.

Lemma upload_rejected (rev : Revision) (w : World) (chunkSize : Z)
    (pollFuel fuel : nat) (file : File.t) (apiKey : string) (h : Trace)
    (req : Request) (e : Exn) :
  let run := uploadToGemini rev w chunkSize pollFuel fuel file apiKey h in
  In (EvFetch req (inl e)) (snd run) ->
  fst run = Thrown e
  /\ exists before, snd run = (before ++ [EvFetch req (inl e)])%list.
Proof.
  intros run.
  destruct (upload_cases rev w chunkSize pollFuel fuel file apiKey h)
    as [(Hopen & out & n & L & E)|(Hno & E)];
    fold run in E; rewrite E; cbn [fst snd In].
  - intros [Hin|Hin].
    + injection Hin as _ Ha. rewrite Ha in Hopen. discriminate.
    + destruct (LoopRun_rejected _ _ _ _ _ _ _ _ _ _ _ L req e Hin)
        as [-> [before ->]].
      split; [reflexivity|]. eexists (EvFetch _ _ :: before). reflexivity.
  - intros [Hin|[]]. injection Hin as <- Ha. rewrite Ha.
    split; [reflexivity | exists []; reflexivity].
Qed.

Lemma generationOutcome_truthy (answer : Exn + GenResponse) (text : string) :
  generationOutcome answer = Returned text ->
  JS.truthy text = true
  /\ exists generated,
       answer = inr (mkGenResponse generated)
       /\ text = match generated with
                 | Some t => JS.or_else t "No transcription generated."
                 | None => "No transcription generated."
                 end.
Proof.
  destruct answer as [e|[generated]]; cbn; [discriminate|].
  intros E. injection E as <-. split.
  - destruct generated as [t|]; [|reflexivity].
    unfold JS.or_else. destruct (JS.truthy t) eqn:T; [exact T | reflexivity].
  - exists generated. split; reflexivity.
Qed.

Lemma generationEvents_has (req : GenRequest) (answer : Exn + GenResponse) :
  In (EvGenerate req answer) (generationEvents req answer).
Proof. destruct answer; cbn; right; left; reflexivity. Qed.

(** An upload fetches, waits and reports progress, and does nothing else. *)
Lemma upload_runs_events (rev : Revision) (w : World) (chunkSize : Z)
    (pollFuel fuel : nat) (file : File.t) (apiKey : string) (h : Trace) :
  Forall (fun ev => match ev with
                    | EvFetch _ _ | EvSleep _ | EvProgress _ => true
                    | _ => false
                    end = true)
    (snd (uploadToGemini rev w chunkSize pollFuel fuel file apiKey h)).
Proof.
  destruct (upload_cases rev w chunkSize pollFuel fuel file apiKey h)
    as [(_ & out & n & L & E)|(_ & E)]; rewrite E; cbn [snd];
    constructor; try reflexivity; [|constructor].
  destruct (LoopRun_phases _ _ _ _ _ _ _
              (requestAt_body rev chunkSize file _ _) _ _ _ _ L)
    as (up & poll & name & -> & Hup & Hpoll).
  destruct (alternating_counts _ _ Hpoll) as [_ Hp].
  apply Forall_app. split; apply Forall_forall; intros ev Hin.
  - rewrite forallb_forall in Hup. specialize (Hup ev Hin).
    destruct ev as [q a| | | |]; cbn in Hup; try discriminate; reflexivity.
  - rewrite forallb_forall in Hp. specialize (Hp ev Hin).
    destruct ev as [q a| | | |]; cbn in Hp; try discriminate; reflexivity.
Qed.

Lemma upload_no_console (rev : Revision) (w : World) (chunkSize : Z)
    (pollFuel fuel : nat) (file : File.t) (apiKey : string) (h : Trace) :
  let n := snd (uploadToGemini rev w chunkSize pollFuel fuel file apiKey h) in
  consoleErrors n = [] /\ flat_map loggedRejection n = [].
Proof.
  intros n. subst n.
  pose proof (upload_runs_events rev w chunkSize pollFuel fuel file apiKey h)
    as H.
  induction H as [|ev n Hev Hn IH]; [split; reflexivity|].
  destruct IH as [IH1 IH2]. unfold consoleErrors in *. cbn [flat_map].
  rewrite IH1, IH2.
  destruct ev as [q a| | | |]; cbn in Hev; try discriminate; split; reflexivity.
Qed.

(** X12.  [transcribeMedia] never returns an empty text: what it returns
    is the text of the answer to its one generation request, or the literal
    fallback when that text is empty or missing. *)
Theorem transcription_is_never_empty :
  forall (rev : Revision) (w : World) (pollFuel fuel : nat) (file : File.t)
         (mimeType : string) (isComplexArg : option bool) (h : Trace)
         (text : string),
    let run := transcribeMedia rev w pollFuel fuel file mimeType isComplexArg h in
    fst run = Returned text ->
    JS.truthy text = true
    /\ exists req generated,
         generations (snd run) = [req]
         /\ In (EvGenerate req (inr (mkGenResponse generated))) (snd run)
         /\ text = match generated with
                   | Some t => JS.or_else t "No transcription generated."
                   | None => "No transcription generated."
                   end.
Proof.
  intros rev w pollFuel fuel file mimeType isComplexArg h text run. subst run.
  rewrite transcribeMedia_eq.
  destruct (JS.truthy_opt (API_KEY w)) eqn:Hkey;
    [|rewrite transcribeWith_no_key by exact Hkey; discriminate].
  destruct (truthy_key w Hkey) as (apiKey & Hsome & Htruthy).
  rewrite (transcribeWith_run _ _ _ _ _ _ _ apiKey Hsome Htruthy).
  pose proof (upload_shape rev w UPLOAD_CHUNK_SIZE pollFuel fuel file apiKey h)
    as Hshape.
  pose proof (upload_no_generation _ _ _ _ _ _ _ _ _ _ Hshape) as Hgen.
  destruct (uploadToGemini rev w UPLOAD_CHUNK_SIZE pollFuel fuel file apiKey h)
    as [[fileUri|e|l] n]; cbn [fst snd] in *; try discriminate.
  intros Hout.
  destruct (generationOutcome_truthy _ _ Hout) as [Ht (generated & Ha & Htext)].
  split; [exact Ht|].
  exists (generationRequest apiKey file mimeType isComplexArg fileUri), generated.
  rewrite generations_app, Hgen.
  destruct (generationEvents_progress
              (generationRequest apiKey file mimeType isComplexArg fileUri)
              (generateOracle w ((h ++ n) ++ [EvProgress 100])%list
                 (generationRequest apiKey file mimeType isComplexArg fileUri)))
    as [_ ->].
  repeat split; [|exact Htext].
  apply in_or_app. right. rewrite <- Ha. apply generationEvents_has.
Qed.

Lemma transcription_is_never_empty_witness :
  JS.truthy "No transcription generated." = true
  /\ exists req generated,
       generations
         (snd (transcribeMedia UnifiedRevision silent 5 3 lecture "video/mp4"
                 None [])) = [req]
       /\ In (EvGenerate req (inr (mkGenResponse generated)))
             (snd (transcribeMedia UnifiedRevision silent 5 3 lecture
                     "video/mp4" None []))
       /\ "No transcription generated."
          = match generated with
            | Some t => JS.or_else t "No transcription generated."
            | None => "No transcription generated."
            end.
Proof.
  apply (transcription_is_never_empty UnifiedRevision silent 5%nat 3%nat
           lecture "video/mp4" None [] "No transcription generated.").
  reflexivity.
Defined.

(** X13.  A rejected generation call is written to the console once, under
    the label of the service, and reaches the caller as a plain [Error]
    with the message of the rejection, or with the fallback message when
    that message is empty; nothing happens after it. *)
Theorem generation_failure_is_logged_and_rewrapped :
  forall (rev : Revision) (w : World) (pollFuel fuel : nat) (file : File.t)
         (mimeType : string) (isComplexArg : option bool) (h : Trace)
         (req : GenRequest) (e : Exn),
    let run := transcribeMedia rev w pollFuel fuel file mimeType isComplexArg h in
    In (EvGenerate req (inl e)) (snd run) ->
    fst run
    = Thrown (Error (JS.or_else (message e) "Failed to transcribe media."))
    /\ consoleErrors (snd run) = [("Gemini API Error:", e)]
    /\ exists before,
         snd run
         = (before ++ [EvGenerate req (inl e);
                       EvConsoleError "Gemini API Error:" e])%list.
Proof.
  intros rev w pollFuel fuel file mimeType isComplexArg h req e run. subst run.
  rewrite transcribeMedia_eq.
  destruct (JS.truthy_opt (API_KEY w)) eqn:Hkey;
    [|rewrite transcribeWith_no_key by exact Hkey; intros []].
  destruct (truthy_key w Hkey) as (apiKey & Hsome & Htruthy).
  rewrite (transcribeWith_run _ _ _ _ _ _ _ apiKey Hsome Htruthy).
  pose proof (upload_runs_events rev w UPLOAD_CHUNK_SIZE pollFuel fuel file
                apiKey h) as Hev.
  pose proof (upload_no_console rev w UPLOAD_CHUNK_SIZE pollFuel fuel file
                apiKey h) as [Hcon _].
  assert (Hnot : ~ In (EvGenerate req (inl e))
                     (snd (uploadToGemini rev w UPLOAD_CHUNK_SIZE pollFuel fuel
                             file apiKey h))).
  { intros Hin. rewrite Forall_forall in Hev. specialize (Hev _ Hin).
    discriminate. }
  destruct (uploadToGemini rev w UPLOAD_CHUNK_SIZE pollFuel fuel file apiKey h)
    as [[fileUri|e0|l] n]; cbn [fst snd] in *; try contradiction.
  intros Hin. apply in_app_or in Hin as [Hin|Hin]; [contradiction|].
  destruct (generationEvents_in _ _ _ _ Hin) as [-> Ha].
  rewrite <- Ha. cbn [generationOutcome generationEvents].
  repeat split.
  - unfold consoleErrors in *. rewrite flat_map_app, Hcon. reflexivity.
  - exists (n ++ [EvProgress 100])%list. rewrite <- app_assoc. reflexivity.
Qed.

Lemma generation_failure_is_logged_and_rewrapped_witness :
  fst (transcribeMedia UnifiedRevision (overloaded "") 5 3 lecture "video/mp4"
         None [])
  = Thrown (Error "Failed to transcribe media.")
  /\ consoleErrors
       (snd (transcribeMedia UnifiedRevision (overloaded "") 5 3 lecture
               "video/mp4" None []))
     = [("Gemini API Error:", mkExn "ApiError" "")]
  /\ exists before,
       snd (transcribeMedia UnifiedRevision (overloaded "") 5 3 lecture
              "video/mp4" None [])
       = (before
            ++ [EvGenerate
                  (generationRequest "K" lecture "video/mp4" None
                     "https://generativelanguage.googleapis.com/v1beta/files/abc")
                  (inl (mkExn "ApiError" ""));
                EvConsoleError "Gemini API Error:" (mkExn "ApiError" "")])%list.
Proof.
  apply (generation_failure_is_logged_and_rewrapped UnifiedRevision
           (overloaded "") 5%nat 3%nat lecture "video/mp4" None []
           (generationRequest "K" lecture "video/mp4" None
              "https://generativelanguage.googleapis.com/v1beta/files/abc")
           (mkExn "ApiError" "")).
  vm_compute. do 8 right. left. reflexivity.
Defined.

(** X14.  The service writes nothing else to the console: the errors
    logged during a call are the rejections of its generation request,
    so the errors of the upload reach the caller without a log entry. *)
Theorem console_shows_only_generation_failures :
  forall (rev : Revision) (w : World) (pollFuel fuel : nat) (file : File.t)
         (mimeType : string) (isComplexArg : option bool) (h : Trace),
    let run := transcribeMedia rev w pollFuel fuel file mimeType isComplexArg h in
    consoleErrors (snd run) = flat_map loggedRejection (snd run).
Proof.
  intros rev w pollFuel fuel file mimeType isComplexArg h run. subst run.
  rewrite transcribeMedia_eq.
  destruct (JS.truthy_opt (API_KEY w)) eqn:Hkey;
    [|rewrite transcribeWith_no_key by exact Hkey; reflexivity].
  destruct (truthy_key w Hkey) as (apiKey & Hsome & Htruthy).
  rewrite (transcribeWith_run _ _ _ _ _ _ _ apiKey Hsome Htruthy).
  pose proof (upload_no_console rev w UPLOAD_CHUNK_SIZE pollFuel fuel file
                apiKey h) as [Hcon Hrej].
  destruct (uploadToGemini rev w UPLOAD_CHUNK_SIZE pollFuel fuel file apiKey h)
    as [[fileUri|e0|l] n]; cbn [fst snd] in *;
    try (rewrite Hcon, Hrej; reflexivity).
  unfold consoleErrors in *. rewrite !flat_map_app, Hcon, Hrej.
  destruct (generateOracle w _ _); reflexivity.
Qed.

(** X15.  The request sent to the model is made for the file just
    uploaded: it carries the key of the environment, the transcription
    prompt, a MIME type that is never empty, and the URI that the response
    to the completing chunk gave for the created resource. *)
Theorem generation_request_names_the_upload :
  forall (rev : Revision) (w : World) (pollFuel fuel : nat) (file : File.t)
         (mimeType : string) (isComplexArg : option bool) (h : Trace)
         (req : GenRequest) (answer : Exn + GenResponse),
    let run := transcribeMedia rev w pollFuel fuel file mimeType isComplexArg h in
    In (EvGenerate req answer) (snd run) ->
    API_KEY w = Some (clientApiKey req)
    /\ promptText req = TRANSCRIPTION_PROMPT
    /\ fileData_mimeType req
       = JS.or_else mimeType
           (JS.or_else (File.type file) "application/octet-stream")
    /\ JS.truthy (fileData_mimeType req) = true
    /\ exists chunkReq c r d f,
         In (EvFetch chunkReq (inr r)) (snd run)
         /\ body chunkReq = BlobBody c
         /\ verdict rev UPLOAD_CHUNK_SIZE file (blobStart c) r = Complete
         /\ Response.json r = inr d /\ Json.file d = Some f
         /\ fileData_fileUri req = FileResource.uri f.
Proof.
  intros rev w pollFuel fuel file mimeType isComplexArg h req answer run.
  subst run. rewrite transcribeMedia_eq.
  destruct (JS.truthy_opt (API_KEY w)) eqn:Hkey;
    [|rewrite transcribeWith_no_key by exact Hkey; intros []].
  destruct (truthy_key w Hkey) as (apiKey & Hsome & Htruthy).
  rewrite (transcribeWith_run _ _ _ _ _ _ _ apiKey Hsome Htruthy).
  pose proof (upload_runs_events rev w UPLOAD_CHUNK_SIZE pollFuel fuel file
                apiKey h) as Hev.
  pose proof (upload_returned rev w UPLOAD_CHUNK_SIZE pollFuel fuel file
                apiKey h) as Hret.
  assert (Hnot : ~ In (EvGenerate req answer)
                     (snd (uploadToGemini rev w UPLOAD_CHUNK_SIZE pollFuel fuel
                             file apiKey h))).
  { intros Hin. rewrite Forall_forall in Hev. specialize (Hev _ Hin).
    discriminate. }
  destruct (uploadToGemini rev w UPLOAD_CHUNK_SIZE pollFuel fuel file apiKey h)
    as [[fileUri|e0|l] n]; cbn [fst snd] in *; try contradiction.
  intros Hin. apply in_app_or in Hin as [Hin|Hin]; [contradiction|].
  destruct (generationEvents_in _ _ _ _ Hin) as [-> _].
  cbn [clientApiKey promptText fileData_mimeType fileData_fileUri
       generationRequest].
  repeat split; try assumption.
  - unfold JS.or_else.
    destruct (JS.truthy mimeType) eqn:T1; [exact T1|].
    destruct (JS.truthy (File.type file)) eqn:T2; [exact T2 | reflexivity].
  - destruct (Hret fileUri chunk_size_positive eq_refl)
      as (q & c & r & d & f & Hq & Hb & Hv & Hd & Hf & Hu).
    exists q, c, r, d, f. repeat split; try assumption.
    apply in_or_app. left. exact Hq.
Qed.

Lemma generation_request_names_the_upload_witness :
  API_KEY healthy
  = Some (clientApiKey
            (generationRequest "K" lecture "" None
               "https://generativelanguage.googleapis.com/v1beta/files/abc"))
  /\ promptText
       (generationRequest "K" lecture "" None
          "https://generativelanguage.googleapis.com/v1beta/files/abc")
     = TRANSCRIPTION_PROMPT
  /\ fileData_mimeType
       (generationRequest "K" lecture "" None
          "https://generativelanguage.googleapis.com/v1beta/files/abc")
     = JS.or_else ""
         (JS.or_else (File.type lecture) "application/octet-stream")
  /\ JS.truthy
       (fileData_mimeType
          (generationRequest "K" lecture "" None
             "https://generativelanguage.googleapis.com/v1beta/files/abc"))
     = true
  /\ exists chunkReq c r d f,
       In (EvFetch chunkReq (inr r))
          (snd (transcribeMedia ContentRangeRevision healthy 5 3 lecture ""
                  None []))
       /\ body chunkReq = BlobBody c
       /\ verdict ContentRangeRevision UPLOAD_CHUNK_SIZE lecture (blobStart c) r
          = Complete
       /\ Response.json r = inr d /\ Json.file d = Some f
       /\ fileData_fileUri
            (generationRequest "K" lecture "" None
               "https://generativelanguage.googleapis.com/v1beta/files/abc")
          = FileResource.uri f.
Proof.
  apply (generation_request_names_the_upload ContentRangeRevision healthy
           5%nat 3%nat lecture "" None []
           (generationRequest "K" lecture "" None
              "https://generativelanguage.googleapis.com/v1beta/files/abc")
           (inr (mkGenResponse (Some "Hello $E=mc^2$")))).
  vm_compute. do 12 right. left. reflexivity.
Defined.

(** X16.  No request is ever retried: a [fetch] that is rejected, be it
    the start request, a chunk or a readiness check, is the last event of
    the call, and the caller receives that very rejection. *)
Theorem rejected_fetch_ends_the_call :
  forall (rev : Revision) (w : World) (pollFuel fuel : nat) (file : File.t)
         (mimeType : string) (isComplexArg : option bool) (h : Trace)
         (req : Request) (e : Exn),
    let run := transcribeMedia rev w pollFuel fuel file mimeType isComplexArg h in
    In (EvFetch req (inl e)) (snd run) ->
    fst run = Thrown e
    /\ exists before, snd run = (before ++ [EvFetch req (inl e)])%list.
Proof.
  intros rev w pollFuel fuel file mimeType isComplexArg h req e run. subst run.
  rewrite transcribeMedia_eq.
  destruct (JS.truthy_opt (API_KEY w)) eqn:Hkey;
    [|rewrite transcribeWith_no_key by exact Hkey; intros []].
  destruct (truthy_key w Hkey) as (apiKey & Hsome & Htruthy).
  rewrite (transcribeWith_run _ _ _ _ _ _ _ apiKey Hsome Htruthy).
  pose proof (upload_rejected rev w UPLOAD_CHUNK_SIZE pollFuel fuel file
                apiKey h req e) as Hrej.
  destruct (uploadToGemini rev w UPLOAD_CHUNK_SIZE pollFuel fuel file apiKey h)
    as [[fileUri|e0|l] n]; cbn [fst snd] in *; try exact Hrej.
  intros Hin. apply in_app_or in Hin as [Hin|Hin].
  - destruct (Hrej Hin) as [E _]. discriminate.
  - destruct (generateOracle w _ _); cbn in Hin;
      repeat (destruct Hin as [Hin|Hin]; try discriminate; try contradiction).
Qed.

Lemma rejected_fetch_ends_the_call_witness :
  fst (transcribeMedia UnifiedRevision offlineMidway 5 3 lecture "video/mp4"
         None [])
  = Thrown (TypeError "Failed to fetch")
  /\ exists before,
       snd (transcribeMedia UnifiedRevision offlineMidway 5 3 lecture
              "video/mp4" None [])
       = (before
            ++ [EvFetch
                  (UnifiedShape.requestAt UPLOAD_CHUNK_SIZE lecture
                     (absoluteUploadUrl ++ "&key=K") "video/mp4" 8388608)
                  (inl (TypeError "Failed to fetch"))])%list.
Proof.
  apply (rejected_fetch_ends_the_call UnifiedRevision offlineMidway
           5%nat 3%nat lecture "video/mp4" None []
           (UnifiedShape.requestAt UPLOAD_CHUNK_SIZE lecture
              (absoluteUploadUrl ++ "&key=K") "video/mp4" 8388608)
           (TypeError "Failed to fetch")).
  vm_compute. do 3 right. left. reflexivity.
Defined.

(** * The components *)

(** ** What a call hands to its caller, from any history *)


Lemma transcribe_progress (rev : Revision) (w : World) (pollFuel fuel : nat)
    (file : File.t) (mimeType : string) (isComplexArg : option bool)
    (h : Trace) :
  let run := transcribeMedia rev w pollFuel fuel file mimeType isComplexArg h in
  exists before,
    StronglySorted Z.le before
    /\ Forall (fun p => 0 <= p <= 99) before
    /\ ((progressValues (snd run) = before
         /\ generations (snd run) = []
         /\ forall t, fst run <> Returned t)
        \/ (progressValues (snd run) = (before ++ [100])%list
            /\ exists req, generations (snd run) = [req])).
Proof.
  intros run. subst run. rewrite transcribeMedia_eq.
  destruct (JS.truthy_opt (API_KEY w)) eqn:Hkey.
  - destruct (truthy_key w Hkey) as (apiKey & Hsome & Htruthy).
    rewrite (transcribeWith_run _ _ _ _ _ _ _ apiKey Hsome Htruthy).
    pose proof (upload_shape rev w UPLOAD_CHUNK_SIZE pollFuel fuel file apiKey h)
      as Hshape.
    pose proof (upload_progress _ _ _ _ _ _ _ chunk_size_positive _ _ _ Hshape)
      as [Hsorted Hrange].
    pose proof (upload_no_generation _ _ _ _ _ _ _ _ _ _ Hshape) as Hgen.
    destruct (uploadToGemini rev w UPLOAD_CHUNK_SIZE pollFuel fuel file apiKey h)
      as [[fileUri|e|l] n]; cbn [fst snd] in *;
      exists (progressValues n); (split; [exact Hsorted|]);
      (split; [exact Hrange|]).
    + right. rewrite progressValues_app, generations_app, Hgen.
      destruct (generationEvents_progress
                  (generationRequest apiKey file mimeType isComplexArg fileUri)
                  (generateOracle w ((h ++ n) ++ [EvProgress 100])%list
                     (generationRequest apiKey file mimeType isComplexArg fileUri)))
        as [-> ->].
      split; [reflexivity | eexists; reflexivity].
    + left. repeat split; [exact Hgen | discriminate].
    + left. repeat split; [exact Hgen | discriminate].
  - rewrite transcribeWith_no_key by exact Hkey.
    exists []. split; [constructor|]. split; [constructor|].
    left. repeat split. discriminate.
Qed.

(** ** The file picker *)

Lemma startsWith_truthy (s p : string) :
  JS.truthy p = true -> JS.startsWith s p = true -> JS.truthy s = true.
Proof. destruct p, s; cbn; try discriminate; reflexivity. Qed.

Lemma processFile_accepts (f : File.t) (st st' : FileUpload.State)
    (urls urls' : URL.Store) (u : UploadedFile.t) :
  FileUpload.processFile f st urls = (st', urls', Some u) ->
  JS.truthy (File.type f) = true
  /\ u = UploadedFile.make f (fst (previewFor f urls))
           (if JS.startsWith (File.type f) "video/" then video else audio)
           (File.type f) (File.size f)
  /\ urls' = snd (previewFor f urls).
Proof.
  unfold FileUpload.processFile.
  destruct (JS.startsWith (File.type f) "video/") eqn:V;
    [|destruct (JS.startsWith (File.type f) "audio/") eqn:A];
    cbn [negb andb]; try discriminate;
    destruct (previewFor f urls) as [p urls1]; intros E;
    injection E as _ <- <-; repeat split;
    eapply startsWith_truthy; try eassumption; reflexivity.
Qed.

Lemma previewFor_spec (f : File.t) (urls : URL.Store) :
  JS.truthy (fst (previewFor f urls)) = (File.size f <=? MAX_PREVIEW_SIZE)
  /\ URL.live (snd (previewFor f urls))
     = ((if File.size f <=? MAX_PREVIEW_SIZE
         then [fst (previewFor f urls)] else []) ++ URL.live urls)%list.
Proof.
  unfold previewFor. destruct (File.size f <=? MAX_PREVIEW_SIZE); split;
    reflexivity.
Qed.



(** ** The page, event by event *)

Lemma last_cons_default {A} (l : list A) (a d : A) : last (a :: l) d = last l a.
Proof.
  revert a d. induction l as [|b l IH]; intros a d; [reflexivity|].
  change (last (a :: b :: l) d) with (last (b :: l) d).
  rewrite (IH b d), (IH b a). reflexivity.
Qed.

Lemma after_nil (p : Page.t) : Page.after p [] = Some p.
Proof. reflexivity. Qed.

Lemma after_cons (p : Page.t) (act : Action) (acts : list Action) :
  Page.after p (act :: acts)
  = match Page.step p act with
    | Some p' => Page.after p' acts
    | None => None
    end.
Proof.
  unfold Page.after. cbn [Page.history].
  destruct (Page.step p act) as [p'|]; [|reflexivity].
  destruct (Page.history p' acts) as [ps|]; [|reflexivity].
  rewrite last_cons_default. reflexivity.
Qed.

Lemma after_app (p : Page.t) (a b : list Action) :
  Page.after p (a ++ b)
  = match Page.after p a with
    | Some p' => Page.after p' b
    | None => None
    end.
Proof.
  revert p. induction a as [|act a IH]; intros p; [reflexivity|].
  cbn [app]. rewrite !after_cons.
  destruct (Page.step p act) as [p'|]; [apply IH | reflexivity].
Qed.

(** A property kept by every step holds after every sequence of events. *)
Lemma after_invariant (I : Page.t -> Prop) :
  (forall p act p', I p -> Page.step p act = Some p' -> I p') ->
  forall acts p q, I p -> Page.after p acts = Some q -> I q.
Proof.
  intros Hstep. induction acts as [|act acts IH]; intros p q Hp.
  - rewrite after_nil. intros E. injection E as <-. exact Hp.
  - rewrite after_cons. destruct (Page.step p act) as [p'|] eqn:E; [|discriminate].
    apply IH. exact (Hstep p act p' Hp E).
Qed.

Lemma selected_fresh (f : File.t) (t : FileType) (m : string) (p : Page.t) :
  Page.inputsShown p = true -> Page.previewOnly p ->
  let q := Page.selected
             (UploadedFile.make f (fst (previewFor f (Page.urls p))) t m
                (File.size f))
             (snd (previewFor f (Page.urls p))) p in
  Page.previewOnly q /\ Page.previewSized q.
Proof.
  unfold Page.inputsShown, Page.previewOnly, Page.previewSized, Page.selected,
         App.handleFileSelected, App.revokePreview.
  destruct (App.uploadedFile (Page.app p)); [discriminate|].
  intros _ Hlive. cbn.
  destruct (previewFor_spec f (Page.urls p)) as [Ht Hl].
  rewrite Hl, Hlive, Ht, app_nil_r. split; [reflexivity|].
  intros u E. injection E as <-. cbn. exact Ht.
Qed.

Lemma handleDrop_cases (disabled : bool) (files : list File.t)
    (st : FileUpload.State) (urls : URL.Store) :
  (exists st', FileUpload.handleDrop disabled files st urls = (st', urls, None))
  \/ (exists f st1,
        disabled = false /\ hd_error files = Some f
        /\ FileUpload.handleDrop disabled files st urls
           = FileUpload.processFile f st1 urls).
Proof.
  unfold FileUpload.handleDrop. destruct disabled.
  - left. eexists; reflexivity.
  - destruct files as [|f files].
    + left. eexists; reflexivity.
    + right. exists f. eexists. repeat split.
Qed.

Lemma handleFileInput_cases (files : option (list File.t))
    (st : FileUpload.State) (urls : URL.Store) :
  FileUpload.handleFileInput files st urls = (st, urls, None)
  \/ (exists f rest,
        files = Some (f :: rest)
        /\ FileUpload.handleFileInput files st urls
           = FileUpload.processFile f st urls).
Proof.
  unfold FileUpload.handleFileInput. destruct files as [[|f rest]|].
  - left. reflexivity.
  - right. exists f, rest. split; reflexivity.
  - left. reflexivity.
Qed.

Lemma processFile_refuses (f : File.t) (st st' : FileUpload.State)
    (urls urls' : URL.Store) :
  FileUpload.processFile f st urls = (st', urls', None) ->
  urls' = urls
  /\ FileUpload.error st' = Some "Please upload a valid video or audio file."
  /\ JS.startsWith (File.type f) "video/" = false
  /\ JS.startsWith (File.type f) "audio/" = false.
Proof.
  unfold FileUpload.processFile.
  destruct (JS.startsWith (File.type f) "video/");
    destruct (JS.startsWith (File.type f) "audio/"); cbn [negb andb];
    try (destruct (previewFor f urls); discriminate).
  intros E. injection E as <- <-. repeat split.
Qed.

Lemma picked_keeps_urls (p : Page.t) (f : File.t) (st : FileUpload.State) :
  Page.inputsShown p = true ->
  Page.previewOnly p /\ Page.previewSized p ->
  let q := Page.picked p (FileUpload.processFile f st (Page.urls p)) in
  Page.previewOnly q /\ Page.previewSized q.
Proof.
  intros Hshown [Hlive Hsized]. unfold Page.picked.
  destruct (FileUpload.processFile f st (Page.urls p))
    as [[st' urls'] [u|]] eqn:Hpick.
  - destruct (processFile_accepts _ _ _ _ _ _ Hpick) as (_ & -> & ->).
    apply selected_fresh; assumption.
  - destruct (processFile_refuses _ _ _ _ _ Hpick) as (-> & _).
    destruct p. split; assumption.
Qed.

Lemma step_keeps_urls (p : Page.t) (act : Action) (p' : Page.t) :
  Page.previewOnly p /\ Page.previewSized p ->
  Page.step p act = Some p' ->
  Page.previewOnly p' /\ Page.previewSized p'.
Proof.
  intros Hinv. pose proof Hinv as [Hlive Hsized].
  destruct act as [files|files|sizes| | |percent|result|err]; cbn [Page.step].
  - destruct (Page.inputsShown p) eqn:Hshown; [|discriminate].
    intros E. injection E as <-.
    destruct (handleDrop_cases (App.busy (Page.app p)) files FileUpload.initial
                (Page.urls p)) as [[st' ->]|(f & st1 & _ & _ & ->)].
    + cbn. destruct p. exact Hinv.
    + exact (picked_keeps_urls p f st1 Hshown Hinv).
  - destruct (Page.inputsShown p) eqn:Hshown; cbn [andb]; [|discriminate].
    destruct (negb (App.busy (Page.app p))); [|discriminate].
    intros E. injection E as <-.
    destruct (handleFileInput_cases files FileUpload.initial (Page.urls p))
      as [->|(f & rest & _ & ->)].
    + cbn. destruct p. exact Hinv.
    + exact (picked_keeps_urls p f FileUpload.initial Hshown Hinv).
  - destruct (Page.inputsShown p) eqn:Hshown; cbn [andb]; [|discriminate].
    destruct (negb (App.busy (Page.app p))); [|discriminate].
    unfold AudioRecorder.record, AudioRecorder.onstop.
    match goal with |- context [previewFor ?file (Page.urls p)] =>
      pose proof (selected_fresh file audio "audio/webm" p Hshown Hlive) as S;
      destruct (previewFor file (Page.urls p)) as [url urls1] end.
    cbn [fst snd] in S. intros E. injection E as <-. exact S.
  - unfold Page.inputsShown, Page.previewOnly, Page.previewSized in *.
    destruct (App.uploadedFile (Page.app p)) as [u|] eqn:Hfile; [|discriminate].
    unfold App.handleReset, App.revokePreview. rewrite Hfile.
    intros E. injection E as <-. cbn. split; [|discriminate].
    destruct (JS.truthy (UploadedFile.previewUrl u)); [|exact Hlive].
    destruct (Page.urls p) as [live minted]. cbn in *. subst live.
    cbn. rewrite String.eqb_refl. reflexivity.
  - destruct (Page.inputsShown p || App.busy (Page.app p)); [discriminate|].
    unfold App.startTranscription_begin, Page.previewOnly, Page.previewSized in *.
    destruct (App.uploadedFile (Page.app p)) as [u|] eqn:Hfile; [|discriminate].
    intros E. injection E as <-. cbn. split; assumption.
  - destruct (Page.running p); [discriminate|].
    intros E. injection E as <-. split; assumption.
  - destruct (Page.running p); [discriminate|].
    intros E. injection E as <-. split; assumption.
  - destruct (Page.running p); [discriminate|].
    intros E. injection E as <-. split; assumption.
Qed.

Lemma picked_keeps_states (p : Page.t)
    (result : FileUpload.State * URL.Store * option UploadedFile.t) :
  Page.steady p -> Page.steady (Page.picked p result).
Proof.
  intros [Hnot Hbusy]. destruct result as [[st' urls'] [u|]]; cbn.
  - split; cbn; discriminate.
  - split; assumption.
Qed.

Lemma step_keeps_states (p : Page.t) (act : Action) (p' : Page.t) :
  Page.steady p -> Page.step p act = Some p' -> Page.steady p'.
Proof.
  intros Hinv. pose proof Hinv as [Hnot Hbusy].
  destruct act as [files|files|sizes| | |percent|result|err]; cbn [Page.step].
  - destruct (Page.inputsShown p); [|discriminate].
    intros E. injection E as <-. apply picked_keeps_states. exact Hinv.
  - destruct (Page.inputsShown p && negb (App.busy (Page.app p)));
      [|discriminate].
    intros E. injection E as <-. apply picked_keeps_states. exact Hinv.
  - destruct (Page.inputsShown p && negb (App.busy (Page.app p)));
      [|discriminate].
    destruct (AudioRecorder.record sizes (Page.urls p)) as [[st' urls'] u].
    intros E; injection E as <-; cbn. split; cbn; discriminate.
  - destruct (Page.inputsShown p); [discriminate|].
    intros E; injection E as <-; cbn. split; cbn; discriminate.
  - destruct (Page.inputsShown p) eqn:Hshown; cbn [orb]; [discriminate|].
    destruct (App.busy (Page.app p)); [discriminate|].
    destruct (App.startTranscription_begin (Page.app p)) as [a|] eqn:B;
      [|discriminate].
    unfold App.startTranscription_begin in B.
    unfold Page.inputsShown in *.
    destruct (App.uploadedFile (Page.app p)); [|discriminate].
    injection B as <-. intros E; injection E as <-; cbn.
    split; [discriminate|]. intros _. split; [reflexivity | cbn; lia].
  - destruct (Page.running p) eqn:R; [discriminate|].
    intros E; injection E as <-. unfold Page.steady, Page.inputsShown in *. cbn.
    split; [exact Hnot|]. intros Hb.
    split; [exact (proj1 (Hbusy Hb)) | lia].
  - destruct (Page.running p) eqn:R; [discriminate|].
    intros E; injection E as <-; cbn. split; cbn; discriminate.
  - destruct (Page.running p) eqn:R; [discriminate|].
    intros E; injection E as <-; cbn. split; cbn; discriminate.
Qed.

(** X18.  The page is never in the state PROCESSING: whatever the user
    does and whatever the calls report, nothing sets it, so the page shows
    "Uploading" for the whole time of a call, the generation included.
    Its controls are disabled only while a call is running and a file is
    on display: the picker and the recorder are never rendered disabled. *)
Theorem page_is_never_processing :
  forall (acts : list Action) (p : Page.t),
    Page.after Page.initial acts = Some p ->
    App.appState (Page.app p) <> AppState.PROCESSING
    /\ (App.busy (Page.app p) = true ->
        App.appState (Page.app p) = AppState.UPLOADING
        /\ Page.inputsShown p = false
        /\ (0 < Page.running p)%nat).
Proof.
  intros acts p Hafter.
  destruct (after_invariant Page.steady step_keeps_states acts Page.initial p)
    as [H1 H2];
    [split; [discriminate | cbn; discriminate] | exact Hafter |].
  split; [exact H1|]. intros Hb. split; [|exact (H2 Hb)].
  unfold App.busy in Hb.
  destruct (App.appState (Page.app p)); try discriminate;
    [reflexivity | contradiction].
Qed.

Lemma page_is_never_processing_witness :
  App.appState
    (App.mkState AppState.UPLOADING
       (Some (UploadedFile.make lecture "blob:0" video "video/mp4" 20971520))
       "" None 57)
  <> AppState.PROCESSING
  /\ (App.busy
        (App.mkState AppState.UPLOADING
           (Some (UploadedFile.make lecture "blob:0" video "video/mp4" 20971520))
           "" None 57) = true ->
      App.appState
        (App.mkState AppState.UPLOADING
           (Some (UploadedFile.make lecture "blob:0" video "video/mp4" 20971520))
           "" None 57) = AppState.UPLOADING
      /\ false = false
      /\ (0 < 1)%nat).
Proof.
  apply (page_is_never_processing
           [DropFiles [lecture]; ClickStart; Progress 57]
           (Page.mk
              (App.mkState AppState.UPLOADING
                 (Some (UploadedFile.make lecture "blob:0" video "video/mp4"
                          20971520)) "" None 57)
              (URL.mkStore ["blob:0"] 1) 1 [])).
  reflexivity.
Defined.

(** X19.  No object URL leaks: after any sequence of events the only URL
    alive is the preview of the file on display, and none once the page is
    reset; and whenever the page shows the video preview, that URL is
    alive. *)
Theorem preview_urls_do_not_leak :
  forall (acts : list Action) (p : Page.t),
    Page.after Page.initial acts = Some p ->
    Page.previewOnly p
    /\ (App.shouldShowVideoPreview (Page.app p) = true ->
        exists u,
          App.uploadedFile (Page.app p) = Some u
          /\ JS.truthy (UploadedFile.previewUrl u) = true
          /\ URL.live (Page.urls p) = [UploadedFile.previewUrl u]).
Proof.
  intros acts p Hafter.
  destruct (after_invariant
              (fun q => Page.previewOnly q /\ Page.previewSized q)
              step_keeps_urls acts Page.initial p)
    as [Hlive Hsized];
    [split; [reflexivity | intros u; discriminate] | exact Hafter |].
  split; [exact Hlive|].
  unfold App.shouldShowVideoPreview, Page.previewOnly, Page.previewSized in *.
  destruct (App.uploadedFile (Page.app p)) as [u|]; [|discriminate].
  intros Hshow. exists u.
  assert (Ht : JS.truthy (UploadedFile.previewUrl u) = true).
  { rewrite (Hsized u eq_refl).
    destruct (UploadedFile.type u); [|discriminate].
    apply Z.leb_le. apply Z.ltb_lt in Hshow. lia. }
  rewrite Ht in Hlive. repeat split; assumption.
Qed.

Lemma preview_urls_do_not_leak_witness :
  Page.previewOnly (Page.mk App.initial (URL.mkStore [] 2) 0 [])
  /\ (App.shouldShowVideoPreview
        (Page.app (Page.mk App.initial (URL.mkStore [] 2) 0 [])) = true ->
      exists u,
        App.uploadedFile (Page.app (Page.mk App.initial (URL.mkStore [] 2) 0 []))
        = Some u
        /\ JS.truthy (UploadedFile.previewUrl u) = true
        /\ URL.live (Page.urls (Page.mk App.initial (URL.mkStore [] 2) 0 []))
           = [UploadedFile.previewUrl u]).
Proof.
  apply (preview_urls_do_not_leak
           [ChooseFiles (Some [lecture]); ClickReset; FinishRecording [10; 0; 20];
            ClickReset]
           (Page.mk App.initial (URL.mkStore [] 2) 0 [])).
  reflexivity.
Defined.

(** ** A call on the page *)

Lemma history_progress (ps : list Z) :
  forall p, (0 < Page.running p)%nat ->
    exists pages,
      Page.history p (map Progress ps) = Some pages
      /\ map (fun q => App.uploadProgress (Page.app q)) pages = ps
      /\ let q := last pages p in
         Page.running q = Page.running p
         /\ Page.urls q = Page.urls p
         /\ Page.console q = Page.console p
         /\ App.appState (Page.app q) = App.appState (Page.app p)
         /\ App.uploadedFile (Page.app q) = App.uploadedFile (Page.app p)
         /\ App.transcription (Page.app q) = App.transcription (Page.app p)
         /\ App.error (Page.app q) = App.error (Page.app p).
Proof.
  induction ps as [|x ps IH]; intros p Hrun.
  - exists []. repeat split.
  - cbn [map Page.history Page.step].
    destruct (Page.running p) as [|k] eqn:R; [lia|].
    set (p1 := Page.mk (App.onProgress x (Page.app p)) (Page.urls p) (S k)
                 (Page.console p)).
    destruct (IH p1 ltac:(cbn; lia))
      as (pages & -> & Hshown & H1 & H2 & H3 & H4 & H5 & H6 & H7).
    exists (p1 :: pages). split; [reflexivity|].
    split; [cbn; rewrite Hshown; reflexivity|].
    rewrite last_cons_default. cbn in *. repeat split; assumption.
Qed.

Lemma sorted_with_bounds (before : list Z) :
  StronglySorted Z.le before -> Forall (fun p => 0 <= p <= 99) before ->
  StronglySorted Z.le (0 :: before ++ [100])
  /\ StronglySorted Z.le (0 :: before).
Proof.
  intros Hs Hr.
  assert (H100 : StronglySorted Z.le (before ++ [100])).
  { induction Hs as [|a l Hs IH Ha]; cbn.
    - repeat constructor.
    - constructor.
      + apply IH. exact (Forall_inv_tail Hr).
      + apply Forall_app. split; [exact Ha|].
        constructor; [|constructor]. apply Forall_inv in Hr. lia. }
  split; constructor; try assumption.
  - apply Forall_app. split.
    + eapply Forall_impl; [|exact Hr]. cbn. lia.
    + constructor; [lia | constructor].
  - eapply Forall_impl; [|exact Hr]. cbn. lia.
Qed.

(** X20.  What the page shows during a call that is left alone: 0 at the
    click, then the values the call reports, never decreasing and between
    0 and 100; when the call gets as far as the model, these are 0 first,
    then values of at most 99, then 100 once. *)
Theorem displayed_progress_follows_the_contract :
  forall (rev : Revision) (w : World) (pollFuel fuel : nat) (h : Trace)
         (p : Page.t) (run : Outcome string * list Event),
    Page.inputsShown p = false -> App.busy (Page.app p) = false ->
    App.transcriptionCall rev w pollFuel fuel h (Page.app p) = Some run ->
    exists pages,
      Page.history p (ClickStart :: map Progress (progressValues (snd run)))
      = Some pages
      /\ let shown := map (fun q => App.uploadProgress (Page.app q)) pages in
         shown = 0 :: progressValues (snd run)
         /\ StronglySorted Z.le shown
         /\ Forall (fun x => 0 <= x <= 100) shown
         /\ (generations (snd run) <> [] -> progressContractAsStated shown).
Proof.
  intros rev w pollFuel fuel h p run Hshown Hbusy Hcall.
  unfold App.transcriptionCall in Hcall.
  destruct (App.uploadedFile (Page.app p)) as [u|] eqn:Hfile; [|discriminate].
  injection Hcall as <-.
  cbn [Page.history Page.step]. rewrite Hshown, Hbusy. cbn [orb].
  unfold App.startTranscription_begin. rewrite Hfile.
  set (run := transcribeMedia rev w pollFuel fuel (UploadedFile.file u)
                (UploadedFile.mimeType u) (Some (App.isComplexModel (Page.app p)))
                h).
  set (p1 := Page.mk _ (Page.urls p) (S (Page.running p)) (Page.console p)).
  destruct (history_progress (progressValues (snd run)) p1 ltac:(cbn; lia))
    as (pages & -> & Hvalues & _).
  exists (p1 :: pages). split; [reflexivity|].
  cbn [map]. rewrite Hvalues. cbn [p1 Page.app App.uploadProgress].
  split; [reflexivity|].
  destruct (transcribe_progress rev w pollFuel fuel (UploadedFile.file u)
              (UploadedFile.mimeType u) (Some (App.isComplexModel (Page.app p))) h)
    as (before & Hs & Hr & [(Hp & Hnone & _)|[Hp [req Hgen]]]);
    fold run in Hp; rewrite Hp;
    destruct (sorted_with_bounds before Hs Hr) as [S100 S0].
  - split; [exact S0|]. split.
    + constructor; [lia|]. eapply Forall_impl; [|exact Hr]. cbn. lia.
    + intros Hgen. exfalso. apply Hgen. exact Hnone.
  - split; [exact S100|]. split.
    + constructor; [lia|]. apply Forall_app. split.
      * eapply Forall_impl; [|exact Hr]. cbn. lia.
      * constructor; [lia | constructor].
    + intros _. unfold progressContractAsStated. split; [reflexivity|].
      split; [exact S100|].
      exists (0 :: before). split; [reflexivity|].
      constructor; [lia|]. eapply Forall_impl; [|exact Hr]. cbn. lia.
Qed.

Lemma displayed_progress_follows_the_contract_witness :
  exists pages,
    Page.history
      (Page.mk
         (App.mkState AppState.IDLE
            (Some (UploadedFile.make lecture "blob:0" video "video/mp4" 20971520))
            "" None 0)
         (URL.mkStore ["blob:0"] 1) 0 [])
      (ClickStart
         :: map Progress
              (progressValues
                 (snd (transcribeMedia UnifiedRevision healthy 5 3 lecture
                         "video/mp4" (Some true) []))))
    = Some pages
    /\ let shown := map (fun q => App.uploadProgress (Page.app q)) pages in
       shown
       = 0 :: progressValues
                (snd (transcribeMedia UnifiedRevision healthy 5 3 lecture
                        "video/mp4" (Some true) []))
       /\ StronglySorted Z.le shown
       /\ Forall (fun x => 0 <= x <= 100) shown
       /\ (generations
             (snd (transcribeMedia UnifiedRevision healthy 5 3 lecture
                     "video/mp4" (Some true) [])) <> [] ->
           progressContractAsStated shown).
Proof.
  apply (displayed_progress_follows_the_contract UnifiedRevision healthy
           5%nat 3%nat []
           (Page.mk
              (App.mkState AppState.IDLE
                 (Some (UploadedFile.make lecture "blob:0" video "video/mp4"
                          20971520)) "" None 0)
              (URL.mkStore ["blob:0"] 1) 0 [])
           (transcribeMedia UnifiedRevision healthy 5 3 lecture "video/mp4"
              (Some true) []));
    reflexivity.
Defined.

Lemma returned_text_truthy (rev : Revision) (w : World) (pollFuel fuel : nat)
    (file : File.t) (mimeType : string) (isComplexArg : option bool)
    (h : Trace) (text : string) :
  fst (transcribeMedia rev w pollFuel fuel file mimeType isComplexArg h)
  = Returned text ->
  JS.truthy text = true.
Proof.
  rewrite transcribeMedia_eq.
  destruct (JS.truthy_opt (API_KEY w)) eqn:Hkey;
    [|rewrite transcribeWith_no_key by exact Hkey; discriminate].
  destruct (truthy_key w Hkey) as (apiKey & Hsome & Htruthy).
  rewrite (transcribeWith_run _ _ _ _ _ _ _ apiKey Hsome Htruthy).
  destruct (uploadToGemini rev w UPLOAD_CHUNK_SIZE pollFuel fuel file apiKey h)
    as [[fileUri|e|l] n]; cbn [fst snd] in *; try discriminate.
  intros Hout. exact (proj1 (generationOutcome_truthy _ _ Hout)).
Qed.

Lemma or_else_truthy (a b : string) :
  JS.truthy b = true -> JS.truthy (JS.or_else a b) = true.
Proof.
  intros Hb. unfold JS.or_else. destruct (JS.truthy a) eqn:Ha; assumption.
Qed.

(** X21.  How a call that is left alone ends on the page.  A returned text
    is shown, is never empty, and the page is COMPLETE.  An error puts the
    page in ERROR with a message that is never empty and is written to the
    console, and the text of an earlier transcription stays on display.  A
    call that has not settled leaves the page UPLOADING.  The file on
    display is the same in every case. *)
Theorem call_outcome_on_display :
  forall (rev : Revision) (w : World) (pollFuel fuel : nat) (h : Trace)
         (p : Page.t) (run : Outcome string * list Event),
    Page.inputsShown p = false -> App.busy (Page.app p) = false ->
    App.transcriptionCall rev w pollFuel fuel h (Page.app p) = Some run ->
    exists q,
      Page.after p (Page.transcribing rev w pollFuel fuel h p) = Some q
      /\ App.uploadedFile (Page.app q) = App.uploadedFile (Page.app p)
      /\ Page.urls q = Page.urls p
      /\ match fst run with
         | Returned text =>
             App.appState (Page.app q) = AppState.COMPLETE
             /\ App.transcription (Page.app q) = text
             /\ JS.truthy text = true
             /\ App.error (Page.app q) = None
             /\ Page.console q = Page.console p
             /\ Page.running q = Page.running p
         | Thrown err =>
             App.appState (Page.app q) = AppState.ERROR
             /\ App.error (Page.app q)
                = Some (JS.or_else (message err)
                          "An unexpected error occurred during transcription.")
             /\ (exists m, App.error (Page.app q) = Some m /\ JS.truthy m = true)
             /\ App.transcription (Page.app q) = App.transcription (Page.app p)
             /\ Page.console q = (Page.console p ++ [err])%list
             /\ Page.running q = Page.running p
         | Pending _ =>
             App.appState (Page.app q) = AppState.UPLOADING
             /\ App.error (Page.app q) = None
             /\ App.transcription (Page.app q) = App.transcription (Page.app p)
             /\ Page.console q = Page.console p
             /\ Page.running q = S (Page.running p)
         end.
Proof.
  intros rev w pollFuel fuel h p run Hshown Hbusy Hcall.
  unfold Page.transcribing. rewrite Hcall.
  unfold App.transcriptionCall in Hcall.
  destruct (App.uploadedFile (Page.app p)) as [u|] eqn:Hfile; [|discriminate].
  injection Hcall as Hrun.
  pose proof (returned_text_truthy rev w pollFuel fuel (UploadedFile.file u)
                (UploadedFile.mimeType u) (Some (App.isComplexModel (Page.app p)))
                h) as Htext.
  rewrite Hrun in Htext. clear Hrun.
  rewrite after_cons. cbn [Page.step]. rewrite Hshown, Hbusy. cbn [orb].
  unfold App.startTranscription_begin. rewrite Hfile.
  set (p1 := Page.mk _ (Page.urls p) (S (Page.running p)) (Page.console p)).
  unfold Page.callbacks. rewrite after_app.
  destruct (history_progress (progressValues (snd run)) p1 ltac:(cbn; lia))
    as (pages & Hhist & _ & H1 & H2 & H3 & H4 & H5 & H6 & H7).
  unfold Page.after at 1. rewrite Hhist.
  set (p2 := last pages p1) in *.
  cbn [p1 Page.running Page.urls Page.console Page.app App.appState
       App.uploadedFile App.transcription App.error] in H1, H2, H3, H4, H5, H6, H7.
  destruct (fst run) as [text|err|l].
  - unfold Page.after. cbn [Page.history Page.step]. rewrite H1.
    eexists. split; [reflexivity|]. cbn.
    rewrite H5, H2, H7, H3. repeat split. exact (Htext text eq_refl).
  - unfold Page.after. cbn [Page.history Page.step]. rewrite H1.
    eexists. split; [reflexivity|]. cbn.
    rewrite H5, H2, H6, H3. repeat split.
    eexists. split; [reflexivity|]. apply or_else_truthy. reflexivity.
  - rewrite after_nil. exists p2. split; [reflexivity|].
    rewrite H5, H2, H4, H7, H6, H3, H1. repeat split.
Qed.

Lemma call_outcome_on_display_witness :
  exists q,
    Page.after
      (Page.mk
         (App.mkState AppState.COMPLETE
            (Some (UploadedFile.make lecture "blob:0" video "video/mp4" 20971520))
            "An earlier text" None 100)
         (URL.mkStore ["blob:0"] 1) 0 [])
      (Page.transcribing UnifiedRevision brokenMidway 5 3 []
         (Page.mk
            (App.mkState AppState.COMPLETE
               (Some (UploadedFile.make lecture "blob:0" video "video/mp4"
                        20971520))
               "An earlier text" None 100)
            (URL.mkStore ["blob:0"] 1) 0 []))
    = Some q
    /\ App.uploadedFile (Page.app q)
       = Some (UploadedFile.make lecture "blob:0" video "video/mp4" 20971520)
    /\ Page.urls q = URL.mkStore ["blob:0"] 1
    /\ App.appState (Page.app q) = AppState.ERROR
    /\ App.error (Page.app q)
       = Some (JS.or_else
                 "Upload failed at offset 8388608: 503 Service Unavailable - try later"
                 "An unexpected error occurred during transcription.")
    /\ (exists m, App.error (Page.app q) = Some m /\ JS.truthy m = true)
    /\ App.transcription (Page.app q) = "An earlier text"
    /\ Page.console q
       = ([] ++ [Error "Upload failed at offset 8388608: 503 Service Unavailable - try later"])%list
    /\ Page.running q = 0%nat.
Proof.
  apply (call_outcome_on_display UnifiedRevision brokenMidway 5%nat 3%nat []
           (Page.mk
              (App.mkState AppState.COMPLETE
                 (Some (UploadedFile.make lecture "blob:0" video "video/mp4"
                          20971520))
                 "An earlier text" None 100)
              (URL.mkStore ["blob:0"] 1) 0 [])
           (transcribeMedia UnifiedRevision brokenMidway 5 3 lecture "video/mp4"
              (Some true) []));
    reflexivity.
Defined.

(** X22.  A reset does not stop a call that is running: the call still
    settles on the page, which then shows its text as COMPLETE although no
    file is on display; and its progress reports still move the bar. *)
Theorem reset_does_not_cancel :
  forall (p q : Page.t) (percent : Z) (text : string),
    Page.step p ClickReset = Some q ->
    (0 < Page.running p)%nat ->
    exists q1 q2,
      Page.step q (Progress percent) = Some q1
      /\ App.uploadProgress (Page.app q1) = percent
      /\ App.appState (Page.app q1) = AppState.IDLE
      /\ Page.step q1 (Fulfilled text) = Some q2
      /\ App.appState (Page.app q2) = AppState.COMPLETE
      /\ App.transcription (Page.app q2) = text
      /\ App.uploadedFile (Page.app q2) = None.
Proof.
  intros p q percent text Hreset Hrun.
  cbn [Page.step] in Hreset.
  destruct (Page.inputsShown p); [discriminate|].
  unfold App.handleReset in Hreset. injection Hreset as <-.
  cbn [Page.step Page.running].
  destruct (Page.running p) as [|k]; [lia|].
  eexists. eexists. cbn. repeat split.
Qed.

Lemma reset_does_not_cancel_witness :
  exists q1 q2,
    Page.step (Page.mk App.initial (URL.mkStore [] 1) 1 []) (Progress 57)
    = Some q1
    /\ App.uploadProgress (Page.app q1) = 57
    /\ App.appState (Page.app q1) = AppState.IDLE
    /\ Page.step q1 (Fulfilled "Hello") = Some q2
    /\ App.appState (Page.app q2) = AppState.COMPLETE
    /\ App.transcription (Page.app q2) = "Hello"
    /\ App.uploadedFile (Page.app q2) = None.
Proof.
  apply (reset_does_not_cancel
           (Page.mk
              (App.mkState AppState.UPLOADING
                 (Some (UploadedFile.make lecture "blob:0" video "video/mp4"
                          20971520)) "" None 0)
              (URL.mkStore ["blob:0"] 1) 1 [])
           (Page.mk App.initial (URL.mkStore [] 1) 1 [])
           57 "Hello").
  - reflexivity.
  - cbn. lia.
Defined.

(** ** The recorder *)

Lemma data_events_chunks (sizes : list Z) :
  forall st,
    let st' := fold_left (fun st size => AudioRecorder.ondataavailable size st)
                 sizes st in
    AudioRecorder.chunks st'
    = (AudioRecorder.chunks st ++ filter (fun z => 0 <? z) sizes)%list
    /\ AudioRecorder.isRecording st' = AudioRecorder.isRecording st
    /\ AudioRecorder.mediaRecorder st' = AudioRecorder.mediaRecorder st.
Proof.
  induction sizes as [|z sizes IH]; intros st; cbn [fold_left filter].
  - rewrite app_nil_r. repeat split.
  - destruct (IH (AudioRecorder.ondataavailable z st)) as (-> & -> & ->).
    unfold AudioRecorder.ondataavailable. destruct (0 <? z); cbn.
    + rewrite <- app_assoc. repeat split.
    + repeat split.
Qed.





Lemma empty_file_never_returns (rev : Revision) (w : World) (pollFuel fuel : nat)
    (file : File.t) (mimeType : string) (isComplexArg : option bool)
    (h : Trace) :
  let run := transcribeMedia rev w pollFuel fuel file mimeType isComplexArg h in
  File.size file = 0 ->
  (forall text, fst run <> Returned text)
  /\ generations (snd run) = []
  /\ chunksSent (snd run) = [].
Proof.
  intros run Hsize. subst run. rewrite transcribeMedia_eq.
  destruct (JS.truthy_opt (API_KEY w)) eqn:Hkey;
    [|rewrite transcribeWith_no_key by exact Hkey; repeat split; discriminate].
  destruct (truthy_key w Hkey) as (apiKey & Hsome & Htruthy).
  rewrite (transcribeWith_run _ _ _ _ _ _ _ apiKey Hsome Htruthy).
  destruct (upload_cases rev w UPLOAD_CHUNK_SIZE pollFuel fuel file apiKey h)
    as [(_ & out & n & L & E)|(_ & E)]; rewrite E.
  - inversion L; subst; try lia. repeat split; discriminate.
  - repeat split; discriminate.
Qed.

(** X24.  The recorder does not refuse a recording without data: it
    hands over a file of size 0, and the transcription of such a file never
    returns a text; no chunk is sent and the model is never asked. *)
Theorem empty_recording_is_never_transcribed :
  forall (rev : Revision) (w : World) (pollFuel fuel : nat) (h : Trace)
         (sizes : list Z) (urls urls' : URL.Store)
         (st : AudioRecorder.State) (u : UploadedFile.t) (s : App.State)
         (run : Outcome string * list Event),
    forallb (fun z => z <=? 0) sizes = true ->
    AudioRecorder.record sizes urls = (st, urls', u) ->
    App.uploadedFile s = Some u ->
    App.transcriptionCall rev w pollFuel fuel h s = Some run ->
    UploadedFile.size u = 0
    /\ (forall text, fst run <> Returned text)
    /\ generations (snd run) = []
    /\ chunksSent (snd run) = [].
Proof.
  intros rev w pollFuel fuel h sizes urls urls' st u s run Hempty Hrec Hfile
         Hcall.
  assert (Hnone : filter (fun z => 0 <? z) sizes = []).
  { clear - Hempty. induction sizes as [|z sizes IH]; [reflexivity|].
    cbn in *. apply andb_prop in Hempty as [Hz Hrest].
    apply Z.leb_le in Hz. destruct (Z.ltb_spec 0 z); [lia|]. exact (IH Hrest). }
  unfold AudioRecorder.record, AudioRecorder.onstop, AudioRecorder.recordedFile
    in Hrec.
  destruct (data_events_chunks sizes
              (fst (AudioRecorder.startRecording true AudioRecorder.initial)))
    as (Hchunks & _ & _).
  cbn zeta in Hchunks. rewrite Hchunks, Hnone in Hrec.
  cbn [AudioRecorder.startRecording AudioRecorder.initial fst
       AudioRecorder.chunks app fold_right] in Hrec.
  match type of Hrec with context [previewFor ?f urls] =>
    destruct (previewFor f urls) as [url urls1] end.
  injection Hrec as <- _ <-.
  unfold App.transcriptionCall in Hcall.
  rewrite Hfile in Hcall. cbn in Hcall. injection Hcall as <-.
  split; [reflexivity|].
  apply empty_file_never_returns. reflexivity.
Qed.

Lemma empty_recording_is_never_transcribed_witness :
  UploadedFile.size
    (UploadedFile.make (File.make "recording.webm" "audio/webm" 0) "blob:0"
       audio "audio/webm" 0) = 0
  /\ (forall text,
        fst (transcribeMedia UnifiedRevision healthy 5 3
               (File.make "recording.webm" "audio/webm" 0)
               "audio/webm" (Some false) []) <> Returned text)
  /\ generations
       (snd (transcribeMedia UnifiedRevision healthy 5 3
               (File.make "recording.webm" "audio/webm" 0)
               "audio/webm" (Some false) [])) = []
  /\ chunksSent
       (snd (transcribeMedia UnifiedRevision healthy 5 3
               (File.make "recording.webm" "audio/webm" 0)
               "audio/webm" (Some false) [])) = [].
Proof.
  apply (empty_recording_is_never_transcribed UnifiedRevision healthy
           5%nat 3%nat [] [0; 0] URL.empty (URL.mkStore ["blob:0"] 1)
           (AudioRecorder.mkState false true [])
           (UploadedFile.make (File.make "recording.webm" "audio/webm" 0)
              "blob:0" audio "audio/webm" 0)
           (App.mkState AppState.IDLE
              (Some (UploadedFile.make
                       (File.make "recording.webm" "audio/webm" 0)
                       "blob:0" audio "audio/webm" 0)) "" None 0)
           (transcribeMedia UnifiedRevision healthy 5 3
              (File.make "recording.webm" "audio/webm" 0)
              "audio/webm" (Some false) []));
    reflexivity.
Defined.

(** ** The preview *)

(** X25.  The two size tests of the preview disagree at the limit: the
    picker mints a preview URL for a video of at most [MAX_PREVIEW_SIZE]
    bytes, the page shows the preview only below that size; a video of
    exactly that size gets a URL that is kept alive and never shown. *)
Theorem preview_limit_is_off_by_one :
  forall (f : File.t) (st st' : FileUpload.State) (urls urls' : URL.Store)
         (u : UploadedFile.t) (s : App.State),
    FileUpload.processFile f st urls = (st', urls', Some u) ->
    App.uploadedFile s = Some u ->
    JS.startsWith (File.type f) "video/" = true ->
    JS.truthy (UploadedFile.previewUrl u) = (File.size f <=? MAX_PREVIEW_SIZE)
    /\ App.shouldShowVideoPreview s = (File.size f <? MAX_PREVIEW_SIZE)
    /\ (File.size f = MAX_PREVIEW_SIZE ->
        In (UploadedFile.previewUrl u) (URL.live urls')
        /\ App.shouldShowVideoPreview s = false).
Proof.
  intros f st st' urls urls' u s Hpick Hfile Hvideo.
  destruct (processFile_accepts _ _ _ _ _ _ Hpick) as (_ & -> & ->).
  destruct (previewFor_spec f urls) as [Ht Hl].
  unfold App.shouldShowVideoPreview. rewrite Hfile, Hvideo.
  cbn [UploadedFile.previewUrl UploadedFile.type UploadedFile.size].
  split; [exact Ht|]. split; [reflexivity|].
  intros Hsize. rewrite Hl, Hsize. split; [left; reflexivity | reflexivity].
Qed.

Lemma preview_limit_is_off_by_one_witness :
  JS.truthy "blob:0" = (52428800 <=? MAX_PREVIEW_SIZE)
  /\ App.shouldShowVideoPreview
       (App.mkState AppState.IDLE
          (Some (UploadedFile.make (File.make "talk.mp4" "video/mp4" 52428800)
                   "blob:0" video "video/mp4" 52428800)) "" None 0)
     = (52428800 <? MAX_PREVIEW_SIZE)
  /\ (52428800 = MAX_PREVIEW_SIZE ->
      In "blob:0" (URL.live (URL.mkStore ["blob:0"] 1))
      /\ App.shouldShowVideoPreview
           (App.mkState AppState.IDLE
              (Some (UploadedFile.make
                       (File.make "talk.mp4" "video/mp4" 52428800)
                       "blob:0" video "video/mp4" 52428800)) "" None 0)
         = false).
Proof.
  apply (preview_limit_is_off_by_one
           (File.make "talk.mp4" "video/mp4" 52428800)
           FileUpload.initial (FileUpload.mkState false None)
           URL.empty (URL.mkStore ["blob:0"] 1)
           (UploadedFile.make (File.make "talk.mp4" "video/mp4" 52428800)
              "blob:0" video "video/mp4" 52428800)
           (App.mkState AppState.IDLE
              (Some (UploadedFile.make
                       (File.make "talk.mp4" "video/mp4" 52428800)
                       "blob:0" video "video/mp4" 52428800)) "" None 0));
    reflexivity.
Defined.
